(** * ACP-GW bridge: session registry, protocol translator, reconnect loop

    A shallow embedding of [src/acp-gw/translator.ts], of the reconnect
    scheduling and the command line in [src/acp-gw/server.ts], of the
    monitor loop, the delivery of replies and the heartbeat helpers in
    [src/web/auto-reply.ts], and of [normalizeE164] in [src/utils.ts].
    The session registry (session.ts) and the reconnection policy
    (reconnect.ts) are not among the sources; they follow the
    specification and say so where they are defined.

    Conventions.
    - A JavaScript string is a [string]; every character stands for one
      code unit, and [length], [slice] and [startsWith] count code units.
    - A [Map] is an association list in insertion order ([JSMap]), because
      [findPendingBySessionKey] depends on the iteration order.
    - The handlers run to completion on one callback (the runtime is
      single-threaded), so each one is a function in the monad [M]: it
      threads the [World] and records every call that leaves the
      translator, together with the world in which the call was made.
    - Objects that the runtime creates ([crypto.randomUUID()],
      [new AbortController()], [new Promise]) are arguments of the
      operation that creates them; an AbortController and a Promise are
      named by a number.
    - An [async] operation that throws returns [inl err]; where an
      operation awaits a Gateway request, the way the request settles is an
      argument ([RpcOutcome]), and a callback attached to a request is an
      operation of its own.
    - [this.log] writes diagnostics to stderr only; it is left out. *)

From stdpp Require Import gmap strings list.
From Stdlib Require Import ZArith.

(** ** JavaScript strings *)

Module JS.

Fixpoint take (n : nat) (s : string) : string :=
  match n, s with
  | S n', String c s' => String c (take n' s')
  | _, _ => EmptyString
  end.

Fixpoint drop (n : nat) (s : string) : string :=
  match n, s with
  | S n', String _ s' => drop n' s'
  | _, _ => s
  end.

(** [s.slice(start)] and [s.slice(start, stop)] for non-negative indices. *)
Definition slice (s : string) (start : nat) (stop : option nat) : string :=
  match stop with
  | None => drop start s
  | Some e => take (e - start) (drop start s)
  end.

(** The line feed of ["\n"]. *)
Definition LF : string := String (Ascii.ascii_of_nat 10) EmptyString.

(** [s.startsWith(p)] *)
Definition startsWith (s p : string) : bool := String.prefix p s.

(** [parts.join(sep)] *)
Fixpoint join (sep : string) (parts : list string) : string :=
  match parts with
  | [] => EmptyString
  | [x] => x
  | x :: rest => x +:+ sep +:+ join sep rest
  end.

(** Truthiness of a possibly undefined string: [undefined] and the empty
    string are falsy. *)
Definition truthy (o : option string) : bool :=
  match o with
  | Some s => negb (String.eqb s EmptyString)
  | None => false
  end.

End JS.

(** ** [Map<string, V>] in insertion order *)

Module JSMap.
Section ops.
Context {V : Type}.

Fixpoint get (k : string) (m : list (string * V)) : option V :=
  match m with
  | [] => None
  | (k', v) :: rest => if decide (k' = k) then Some v else get k rest
  end.

(** [m.set(k, v)]: an existing key keeps its position, a new key goes
    last. *)
Fixpoint set (k : string) (v : V) (m : list (string * V)) : list (string * V) :=
  match m with
  | [] => [(k, v)]
  | (k', v') :: rest =>
      if decide (k' = k) then (k, v) :: rest else (k', v') :: set k v rest
  end.

Fixpoint delete (k : string) (m : list (string * V)) : list (string * V) :=
  match m with
  | [] => []
  | (k', v') :: rest =>
      if decide (k' = k) then delete k rest else (k', v') :: delete k rest
  end.

Definition keys (m : list (string * V)) : list string := m.*1.
End ops.
End JSMap.

(** ** Data *)

(** [type StopReason] of translator.ts *)
Inductive StopReason :=
  | end_turn | max_tokens | max_turn_requests | refusal | cancelled.

Record PromptResponse := { stopReason : StopReason }.

(** [new Error(message)] *)
Record Error := { message : string }.

(** Modelled from the spec: session.ts is not among the sources; the
    record follows the SessionRecord of the data model, with the optional
    run [{ runId, cancellationHandle }] in one slot. translator.ts reads the
    handle as [session.abortController]. *)
Module Session.
Record ActiveRun := { runId : string; cancellationHandle : nat }.
Record t := {
  sessionId : string;
  sessionKey : string;
  cwd : string;
  activeRun : option ActiveRun;
}.
Definition abortController (s : t) : option nat :=
  cancellationHandle <$> activeRun s.
Definition with_activeRun (r : option ActiveRun) (s : t) : t :=
  {| sessionId := sessionId s; sessionKey := sessionKey s;
     cwd := cwd s; activeRun := r |}.
End Session.

(** The value type of [pendingPrompts]. [resolve] and [reject] name the
    promise whose settling functions they are. *)
Module Pending.
Record t := {
  sessionId : string;
  idempotencyKey : string;
  resolve : nat;
  reject : nat;
  sentTextLength : option nat;
  sentText : option string;
}.
(** [p.sentTextLength = len; p.sentText = text] *)
Definition with_sent (len : nat) (text : string) (p : t) : t :=
  {| sessionId := sessionId p; idempotencyKey := idempotencyKey p;
     resolve := resolve p; reject := reject p;
     sentTextLength := Some len; sentText := Some text |}.
End Pending.

(** Chat event frames: [evt.payload] with [sessionKey], [state] and
    [message.content]. *)
Module Chat.
Record Part := { type : string; text : option string }.
Record Message := { content : option (list Part) }.
Record Payload := {
  sessionKey : option string;
  state : option string;
  message : option Message;
}.
Record EventFrame := { event : string; payload : option Payload }.
End Chat.

(** [ContentBlock] of a prompt; blocks other than text and image are
    ignored by the translator. *)
Inductive ContentBlock :=
  | TextBlock (text : string)
  | ImageBlock (data mimeType : string)
  | OtherBlock.

Record Attachment := {
  att_type : string; att_mimeType : string; att_content : string;
}.

Record PromptRequest := { pr_sessionId : string; pr_prompt : list ContentBlock }.
Record SetSessionModeRequest := { sm_sessionId : string; sm_modeId : option string }.

(** Parameters of the Gateway RPC calls the translator issues. *)
Inductive GatewayParams :=
  | ChatSend (sessionKey message : string)
      (attachments : option (list Attachment)) (idempotencyKey : string)
  | ChatAbort (sessionKey : string)
  | SessionsPatch (sessionKey thinkingLevel : string).

(** Calls that leave the translator. *)
Inductive Effect :=
  | SessionUpdateChunk (sessionId text : string)
      (* connection.sessionUpdate, agent_message_chunk *)
  | Resolve (promise : nat) (response : PromptResponse)
  | Reject (promise : nat) (err : Error)
  | Abort (controller : nat)
  | GatewayRequest (method : string) (params : GatewayParams) (expectFinal : bool).

(** The translator's fields and the process-wide session table. *)
Record World := {
  connected : bool;
  pendingPrompts : list (string * Pending.t);
  sessions : gmap string Session.t;
}.

Definition with_connected (b : bool) (w : World) : World :=
  {| connected := b; pendingPrompts := pendingPrompts w; sessions := sessions w |}.
Definition with_pendingPrompts (m : list (string * Pending.t)) (w : World) : World :=
  {| connected := connected w; pendingPrompts := m; sessions := sessions w |}.
Definition with_sessions (ss : gmap string Session.t) (w : World) : World :=
  {| connected := connected w; pendingPrompts := pendingPrompts w; sessions := ss |}.

(** ** The handler monad *)

(** One outgoing call and the world in which it was made. *)
Record Call := { at_world : World; effect : Effect }.

Definition M (A : Type) : Type := World -> A * World * list Call.

Definition ret {A} (a : A) : M A := fun w => (a, w, []).

Definition bind {A B} (c : M A) (k : A -> M B) : M B :=
  fun w =>
    let '(a, w1, t1) := c w in
    let '(b, w2, t2) := k a w1 in
    (b, w2, t1 ++ t2).

Definition get : M World := fun w => (w, w, []).
Definition modify (f : World -> World) : M unit := fun w => (tt, f w, []).
Definition call (e : Effect) : M unit :=
  fun w => (tt, w, [{| at_world := w; effect := e |}]).

Declare Scope handler_scope.
Delimit Scope handler_scope with handler.
Notation "'let*' x ':=' c 'in' k" := (bind c (fun x => k))
  (at level 10, x name, c at level 100, k at level 200) : handler_scope.
Notation "c '>>' k" := (bind c (fun _ => k))
  (at level 80, right associativity) : handler_scope.
Local Open Scope handler_scope.

Fixpoint forEach {A} (l : list A) (body : A -> M unit) : M unit :=
  match l with
  | [] => ret tt
  | x :: rest => body x >> forEach rest body
  end.

Definition world_of {A} (r : A * World * list Call) : World := r.1.2.
Definition trace_of {A} (r : A * World * list Call) : list Call := r.2.
Definition value_of {A} (r : A * World * list Call) : A := r.1.1.
Definition effects_of {A} (r : A * World * list Call) : list Effect :=
  effect <$> r.2.

(** ** Session registry *)

(** Modelled from the spec: the registry operations of session.ts, which is
    not among the sources. No operation throws; an unknown session makes
    the mutators do nothing. *)
Module Registry.

(** [createSession(cwd)]; the generated [sessionId] and the Gateway key that
    goes with it are arguments. *)
Definition createSession (sessionId sessionKey cwd : string) : M Session.t :=
  let session :=
    {| Session.sessionId := sessionId; Session.sessionKey := sessionKey;
       Session.cwd := cwd; Session.activeRun := None |} in
  modify (fun w => with_sessions (<[sessionId := session]> (sessions w)) w) >>
  ret session.

Definition getSession (sessionId : string) : M (option Session.t) :=
  let* w := get in ret (sessions w !! sessionId).

Definition setActiveRun (sessionId runId : string) (handle : nat) : M unit :=
  modify (fun w =>
    with_sessions
      (alter (Session.with_activeRun
                (Some {| Session.runId := runId;
                         Session.cancellationHandle := handle |}))
             sessionId (sessions w)) w).

Definition clearActiveRun (sessionId : string) : M unit :=
  modify (fun w =>
    with_sessions (alter (Session.with_activeRun None) sessionId (sessions w)) w).

(** Invokes the stored cancellation handle, then clears the slot; nothing
    happens when the session has no active run. *)
Definition cancelActiveRun (sessionId : string) : M unit :=
  let* session := getSession sessionId in
  match session ≫= Session.activeRun with
  | Some run => call (Abort (Session.cancellationHandle run)) >>
                clearActiveRun sessionId
  | None => ret tt
  end.

Definition clearAllSessions : M unit :=
  modify (with_sessions ∅).

End Registry.

(** ** Protocol translator (class [AcpGwAgent]) *)

Module Translator.
Import Registry.

Definition SessionNotFound (sessionId : string) : Error :=
  {| message := "Session " +:+ sessionId +:+ " not found" |}.

Definition GatewayDisconnected (reason : string) : Error :=
  {| message := "Gateway disconnected: " +:+ reason |}.

Definition start : M unit := modify (with_connected true).

Definition handleGatewayDisconnect (reason : string) : M unit :=
  modify (with_connected false) >>
  let* w := get in
  forEach (pendingPrompts w) (fun '(sessionId, pending) =>
    call (Reject (Pending.reject pending) (GatewayDisconnected reason)) >>
    clearActiveRun sessionId) >>
  modify (with_pendingPrompts []).

(** The loop of [findPendingBySessionKey] over the entries of the map. *)
Fixpoint findPending (ss : gmap string Session.t) (sessionKey : string)
    (entries : list (string * Pending.t)) : option Pending.t :=
  match entries with
  | [] => None
  | (sessionId, pending) :: rest =>
      if decide (Session.sessionKey <$> ss !! sessionId = Some sessionKey)
      then Some pending
      else findPending ss sessionKey rest
  end.

Definition findPendingBySessionKey (sessionKey : string) : M (option Pending.t) :=
  let* w := get in ret (findPending (sessions w) sessionKey (pendingPrompts w)).

(** [content?.find(c => c.type === "text")?.text ?? ""] *)
Definition fullTextOf (messageData : Chat.Message) : string :=
  match Chat.content messageData with
  | Some content =>
      match List.find (fun c => bool_decide (Chat.type c = "text")) content with
      | Some c => default EmptyString (Chat.text c)
      | None => EmptyString
      end
  | None => EmptyString
  end.

(** The state-to-StopReason mapping of the terminal branch. *)
Definition stopReasonOf (state : option string) : StopReason :=
  if bool_decide (state = Some "final") || bool_decide (state = Some "done")
  then end_turn
  else if bool_decide (state = Some "aborted") then cancelled
  else refusal.

Definition isTerminal (state : option string) : bool :=
  bool_decide (state = Some "final") || bool_decide (state = Some "done")
  || bool_decide (state = Some "error") || bool_decide (state = Some "aborted").

(** The duplicate guard of the delta branch:
    [sentText.length > 0 &&
     newText.startsWith(sentText.slice(0, Math.min(20, sentText.length)))] *)
Definition isDuplicate (sentText newText : string) : bool :=
  bool_decide (0 < String.length sentText)
  && JS.startsWith newText
       (JS.slice sentText 0 (Some (20 `min` String.length sentText))).

(** The body of [if (state === "delta" && messageData)]. *)
Definition handleDelta (sessionId : string) (messageData : Chat.Message) : M unit :=
  let fullText := fullTextOf messageData in
  let* w := get in
  let actualPending := JSMap.get sessionId (pendingPrompts w) in
  let sentSoFar := default 0 (actualPending ≫= Pending.sentTextLength) in
  let sentText := default EmptyString (actualPending ≫= Pending.sentText) in
  match (if bool_decide (sentSoFar < String.length fullText)
         then actualPending else None) with
  | Some actual =>
      let newText := JS.slice fullText sentSoFar None in
      if isDuplicate sentText newText then ret tt
      else
        modify (fun w =>
          with_pendingPrompts
            (JSMap.set sessionId
               (Pending.with_sent (String.length fullText) fullText actual)
               (pendingPrompts w)) w) >>
        call (SessionUpdateChunk sessionId newText)
  | None => ret tt
  end.

Definition handleChatEvent (evt : Chat.EventFrame) : M unit :=
  match Chat.payload evt with
  | None => ret tt
  | Some payload =>
      let state := Chat.state payload in
      let messageData := Chat.message payload in
      if negb (JS.truthy (Chat.sessionKey payload)) then ret tt
      else
        let sessionKey := default EmptyString (Chat.sessionKey payload) in
        let* pending := findPendingBySessionKey sessionKey in
        match pending with
        | None => ret tt
        | Some pending =>
            let sessionId := Pending.sessionId pending in
            match (if bool_decide (state = Some "delta") then messageData else None) with
            | Some messageData => handleDelta sessionId messageData
            | None =>
                if isTerminal state then
                  modify (fun w =>
                    with_pendingPrompts (JSMap.delete sessionId (pendingPrompts w)) w) >>
                  clearActiveRun sessionId >>
                  call (Resolve (Pending.resolve pending)
                          {| stopReason := stopReasonOf state |})
                else ret tt
            end
        end
  end.

Definition newSession (cwd sessionId sessionKey : string) : M string :=
  let* session := createSession sessionId sessionKey cwd in
  ret (Session.sessionId session).

(** How the Gateway settles an awaited request. *)
Inductive RpcOutcome := RpcOk | RpcFailed (err : Error).

(** [try { await request } catch (err) { log }]: both arms only log. *)
Definition tryAwait (outcome : RpcOutcome) : M unit :=
  match outcome with
  | RpcOk => ret tt
  | RpcFailed _ => ret tt
  end.

Definition setSessionMode (params : SetSessionModeRequest)
    (patchOutcome : RpcOutcome) : M (Error + unit) :=
  let* session := getSession (sm_sessionId params) in
  match session with
  | None => ret (inl (SessionNotFound (sm_sessionId params)))
  | Some session =>
      (if JS.truthy (sm_modeId params) then
         call (GatewayRequest "sessions.patch"
                 (SessionsPatch (Session.sessionKey session)
                    (default EmptyString (sm_modeId params))) false) >>
         tryAwait patchOutcome
       else ret tt) >>
      ret (inr tt)
  end.

Definition extractTextFromPrompt (prompt : list ContentBlock) : string :=
  JS.join JS.LF
    (omap (fun block => match block with TextBlock t => Some t | _ => None end)
       prompt).

Definition extractAttachmentsFromPrompt (prompt : list ContentBlock) : list Attachment :=
  omap (fun block =>
          match block with
          | ImageBlock data mimeType =>
              if JS.truthy (Some data) && JS.truthy (Some mimeType)
              then Some {| att_type := "image"; att_mimeType := mimeType;
                           att_content := data |}
              else None
          | _ => None
          end) prompt.

(** [prompt] up to the point where the promise is returned. [runId],
    [abortController] and [promise] are the fresh UUID, AbortController and
    Promise; the result is the promise handed to the caller. *)
Definition prompt (params : PromptRequest) (runId : string)
    (abortController promise : nat) : M (Error + nat) :=
  let sessionId := pr_sessionId params in
  let* session := getSession sessionId in
  match session with
  | None => ret (inl (SessionNotFound sessionId))
  | Some session =>
      match Session.abortController session with
      | Some _ => cancelActiveRun sessionId
      | None => ret tt
      end >>
      setActiveRun sessionId runId abortController >>
      let userText := extractTextFromPrompt (pr_prompt params) in
      let attachments := extractAttachmentsFromPrompt (pr_prompt params) in
      let cwdContext :=
        "[Working directory: " +:+ Session.cwd session +:+ "]"
        +:+ JS.LF +:+ JS.LF in
      let message := cwdContext +:+ userText in
      modify (fun w =>
        with_pendingPrompts
          (JSMap.set sessionId
             {| Pending.sessionId := sessionId;
                Pending.idempotencyKey := runId;
                Pending.resolve := promise;
                Pending.reject := promise;
                Pending.sentTextLength := None;
                Pending.sentText := None |}
             (pendingPrompts w)) w) >>
      call (GatewayRequest "chat.send"
              (ChatSend (Session.sessionKey session) message
                 (if bool_decide (0 < length attachments)
                  then Some attachments else None)
                 runId) true) >>
      ret (inr promise)
  end.

(** The [.catch] callback that [prompt] attaches to the [chat.send]
    request; [sessionId] and [reject] are the values its closure captured. *)
Definition promptDispatchFailed (sessionId : string) (reject : nat)
    (err : Error) : M unit :=
  modify (fun w =>
    with_pendingPrompts (JSMap.delete sessionId (pendingPrompts w)) w) >>
  clearActiveRun sessionId >>
  call (Reject reject err).

(** [cancel] up to its [await] of the [chat.abort] request; the result
    tells whether the session was known, that is whether the rest of
    [cancel] will run. *)
Definition cancelBegin (sessionId : string) : M bool :=
  let* session := getSession sessionId in
  match session with
  | None => ret false
  | Some session =>
      cancelActiveRun sessionId >>
      call (GatewayRequest "chat.abort" (ChatAbort (Session.sessionKey session))
              false) >>
      ret true
  end.

(** [cancel] from the point where the [chat.abort] request has settled. *)
Definition cancelResume (sessionId : string) (abortOutcome : RpcOutcome) : M unit :=
  tryAwait abortOutcome >>
  let* w := get in
  match JSMap.get sessionId (pendingPrompts w) with
  | Some pending =>
      modify (fun w =>
        with_pendingPrompts (JSMap.delete sessionId (pendingPrompts w)) w) >>
      call (Resolve (Pending.resolve pending) {| stopReason := cancelled |})
  | None => ret tt
  end.

End Translator.

(** ** Reconnect scheduling of the ACP-GW server (server.ts) *)

Module Server.

Definition RECONNECT_DELAY_MS : Z := 2000.
Definition MAX_RECONNECT_ATTEMPTS : Z := 5.

(** [reconnectTimer] holds the delay of the pending timer, if any. *)
Record ConnectionState := {
  reconnectAttempts : Z;
  reconnectTimer : option Z;
}.

Definition initial : ConnectionState :=
  {| reconnectAttempts := 0; reconnectTimer := None |}.

Definition scheduleReconnect (st : ConnectionState) : ConnectionState :=
  match reconnectTimer st with
  | Some _ => st
  | None =>
      if (MAX_RECONNECT_ATTEMPTS <=? reconnectAttempts st)%Z then st
      else
        let attempts := (reconnectAttempts st + 1)%Z in
        let delay := (RECONNECT_DELAY_MS * attempts)%Z in
        {| reconnectAttempts := attempts; reconnectTimer := Some delay |}
  end.

(** The connection-state part of the [onHelloOk] and [onClose] hooks and of
    the timer callback. *)
Definition onHelloOk (st : ConnectionState) : ConnectionState :=
  {| reconnectAttempts := 0; reconnectTimer := reconnectTimer st |}.

Definition onClose (code : Z) (st : ConnectionState) : ConnectionState :=
  if negb (code =? 1000)%Z && negb (code =? 1001)%Z then scheduleReconnect st
  else st.

Definition onTimer (st : ConnectionState) : ConnectionState :=
  {| reconnectAttempts := reconnectAttempts st; reconnectTimer := None |}.

End Server.

(** ** Reconnect tail of the web monitor loop (auto-reply.ts) *)

Module WebMonitor.

Inductive CloseReason :=
  | Aborted
  | Closed (status : option Z) (isLoggedOut : bool).

Inductive Outcome :=
  | Break
  | Retry (delay : Z).

Section loop.
(** reconnect.ts is not among the sources: the policy type, its
    [maxAttempts] field and [computeBackoff] are parameters. *)
Variable ReconnectPolicy : Type.
Variable maxAttempts : ReconnectPolicy -> Z.
Variable computeBackoff : ReconnectPolicy -> Z -> Z.

(** One iteration of [while (true)] from the moment the listener closes:
    the new value of [reconnectAttempts] and whether the loop sleeps and
    retries or leaves. *)
Definition afterClose (reconnectPolicy : ReconnectPolicy)
    (heartbeatSeconds uptimeMs : Z) (stopRequested sigintStop : bool)
    (reason : CloseReason) (reconnectAttempts : Z) : Z * Outcome :=
  let reconnectAttempts :=
    if (heartbeatSeconds * 1000 <? uptimeMs)%Z then 0%Z else reconnectAttempts in
  if stopRequested || sigintStop
     || match reason with Aborted => true | _ => false end
  then (reconnectAttempts, Break)
  else
    let loggedOut :=
      match reason with Closed _ b => b | Aborted => false end in
    if loggedOut then (reconnectAttempts, Break)
    else
      let reconnectAttempts := (reconnectAttempts + 1)%Z in
      if (0 <? maxAttempts reconnectPolicy)%Z
         && (maxAttempts reconnectPolicy <=? reconnectAttempts)%Z
      then (reconnectAttempts, Break)
      else (reconnectAttempts,
            Retry (computeBackoff reconnectPolicy reconnectAttempts)).

(** What one pass of [while (true)] observes: [stopRequested()] at the head
    of the loop, the uptime, flags and reason at the close, and whether
    [sleep] rejects. *)
Record Connection := {
  stoppedBefore : bool;
  uptimeMs : Z;
  stopRequested : bool;
  sigintStop : bool;
  reason : CloseReason;
  sleepAborted : bool;
}.

(** The [while (true)] loop of [monitorWebProvider] with [keepAlive], run
    over the connections that close: the delays it sleeps, oldest first.
    When the list is used up the last listener stays open. *)
Fixpoint monitorWebProvider (reconnectPolicy : ReconnectPolicy)
    (heartbeatSeconds : Z) (connections : list Connection)
    (reconnectAttempts : Z) : list Z :=
  match connections with
  | [] => []
  | c :: rest =>
      if stoppedBefore c then []
      else
        match afterClose reconnectPolicy heartbeatSeconds (uptimeMs c)
                (stopRequested c) (sigintStop c) (reason c) reconnectAttempts
        with
        | (_, Break) => []
        | (reconnectAttempts, Retry delay) =>
            delay ::
            (if sleepAborted c then []
             else monitorWebProvider reconnectPolicy heartbeatSeconds rest
                    reconnectAttempts)
        end
  end.
End loop.

End WebMonitor.

(** ** Gateway event frames and tool activity (translator.ts) *)

Module Gateway.

(** [payload.data] of an agent frame, as far as the translator reads it. *)
Record ToolData := {
  phase : option string;
  name : option string;
  toolCallId : option string;
  isError : option bool;
}.

(** [evt.payload]: an untyped object, of which the chat handler reads
    [sessionKey], [state] and [message] and the agent handler reads
    [runId], [stream] and [data]. *)
Record Payload := {
  sessionKey : option string;
  state : option string;
  message : option Chat.Message;
  runId : option string;
  stream : option string;
  data : option ToolData;
}.

(** The [payload] field of a frame: absent, [null] or an object. *)
Inductive PayloadSlot :=
  | Undefined
  | Null
  | Object (p : Payload).

Record EventFrame := { event : string; payload : PayloadSlot }.

(** [evt.payload] where the handlers test [!payload]. *)
Definition payloadOf (evt : EventFrame) : option Payload :=
  match payload evt with
  | Object p => Some p
  | Undefined | Null => None
  end.

(** The frame as [handleChatEvent] reads it. *)
Definition toChat (evt : EventFrame) : Chat.EventFrame :=
  {| Chat.event := event evt;
     Chat.payload :=
       (fun p => {| Chat.sessionKey := sessionKey p; Chat.state := state p;
                    Chat.message := message p |}) <$> payloadOf evt |}.

(** What [handleGatewayEvent] sends out: the tool notifications of the
    agent handler, and the calls of the chat handler. *)
Inductive Outgoing :=
  | ToolCall (sessionId toolCallId title status : string)
  | ToolCallUpdate (sessionId toolCallId status : string)
  | FromChat (c : Call).

(** How a call of [handleGatewayEvent] ends: it throws a TypeError, or it
    returns after the calls it made. *)
Inductive Handled :=
  | TypeError
  | Done (w : World) (calls : list Outgoing).

Section handlers.
(** session.ts is not among the sources: the lookup of a session by the
    run id of its active run is a parameter. *)
Variable getSessionByRunId : string -> World -> option Session.t.

(** [handleAgentEvent] reads the registry and makes at most one
    [sessionUpdate] call. *)
Definition handleAgentEvent (evt : EventFrame) (w : World) : list Outgoing :=
  match payloadOf evt with
  | None => []
  | Some payload =>
      match data payload with
      | Some data =>
          if negb (JS.truthy (runId payload)) then []
          else
            match getSessionByRunId (default EmptyString (runId payload)) w with
            | None => []
            | Some session =>
                if bool_decide (stream payload = Some "tool") then
                  if negb (JS.truthy (toolCallId data)) then []
                  else
                    let toolCallId := default EmptyString (toolCallId data) in
                    if bool_decide (phase data = Some "start") then
                      [ToolCall (Session.sessionId session) toolCallId
                         (default "tool" (name data)) "running"]
                    else if bool_decide (phase data = Some "result") then
                      [ToolCallUpdate (Session.sessionId session) toolCallId
                         (if default false (isError data)
                          then "error" else "completed")]
                    else []
                else []
            end
      | None => []
      end
  end.

(** The argument of the first [this.log] is evaluated whether or not the
    log is verbose: [JSON.stringify(evt.payload)] is [undefined] for an
    absent payload, and [.slice(0, 200)] of it throws before anything is
    dispatched. *)
Definition handleGatewayEvent (evt : EventFrame) (w : World) : Handled :=
  match payload evt with
  | Undefined => TypeError
  | Null | Object _ =>
      let tools :=
        if bool_decide (event evt = "agent") then handleAgentEvent evt w
        else [] in
      if bool_decide (event evt = "chat") then
        let r := Translator.handleChatEvent (toChat evt) w in
        Done (world_of r) (tools ++ (FromChat <$> trace_of r))
      else Done w tools
  end.
End handlers.

End Gateway.

(** ** Command line of the ACP-GW server (server.ts, [parseArgs]) *)

Module Cli.

(** [AcpGwOptions] as far as [parseArgs] fills it; [verbose] is [true] once
    set and undefined otherwise. *)
Record AcpGwOptions := {
  gatewayUrl : option string;
  gatewayToken : option string;
  gatewayPassword : option string;
  verbose : bool;
}.

Definition noOptions : AcpGwOptions :=
  {| gatewayUrl := None; gatewayToken := None; gatewayPassword := None;
     verbose := false |}.

(** [parseArgs] returns the options, or the process exits after printing
    the usage text. *)
Inductive Parsed :=
  | Options (opts : AcpGwOptions)
  | Exit (code : Z).

(** The branch of the [if] chain that the argument [arg] takes; [next] is
    [args[i + 1]]. *)
Inductive Branch :=
  | SetUrl (value : string)
  | SetToken (value : string)
  | SetPassword (value : string)
  | SetVerbose
  | SkipCwd
  | Help
  | Ignore.

Definition branchOf (arg : string) (next : option string) : Branch :=
  if (bool_decide (arg = "--gateway-url") || bool_decide (arg = "--url"))
     && JS.truthy next
  then SetUrl (default EmptyString next)
  else if (bool_decide (arg = "--gateway-token") || bool_decide (arg = "--token"))
          && JS.truthy next
  then SetToken (default EmptyString next)
  else if (bool_decide (arg = "--gateway-password")
           || bool_decide (arg = "--password"))
          && JS.truthy next
  then SetPassword (default EmptyString next)
  else if bool_decide (arg = "--verbose") || bool_decide (arg = "-v")
  then SetVerbose
  else if bool_decide (arg = "--cwd") && JS.truthy next then SkipCwd
  else if bool_decide (arg = "--help") || bool_decide (arg = "-h") then Help
  else Ignore.

(** The [for] loop from some index on. [consumed] says that the argument
    at this index was taken as a value by [args[++i]] and is stepped
    over. *)
Fixpoint parseFrom (opts : AcpGwOptions) (consumed : bool) (args : list string)
    : Parsed :=
  match args with
  | [] => Options opts
  | arg :: rest =>
      if consumed then parseFrom opts false rest
      else
        match branchOf arg (head rest) with
        | SetUrl v =>
            parseFrom {| gatewayUrl := Some v; gatewayToken := gatewayToken opts;
                         gatewayPassword := gatewayPassword opts;
                         verbose := verbose opts |} true rest
        | SetToken v =>
            parseFrom {| gatewayUrl := gatewayUrl opts; gatewayToken := Some v;
                         gatewayPassword := gatewayPassword opts;
                         verbose := verbose opts |} true rest
        | SetPassword v =>
            parseFrom {| gatewayUrl := gatewayUrl opts;
                         gatewayToken := gatewayToken opts;
                         gatewayPassword := Some v;
                         verbose := verbose opts |} true rest
        | SetVerbose =>
            parseFrom {| gatewayUrl := gatewayUrl opts;
                         gatewayToken := gatewayToken opts;
                         gatewayPassword := gatewayPassword opts;
                         verbose := true |} false rest
        | SkipCwd => parseFrom opts true rest
        | Help => Exit 0
        | Ignore => parseFrom opts false rest
        end
  end.

Definition parseArgs (args : list string) : Parsed :=
  parseFrom noOptions false args.

(** The strings [parseArgs] recognises. *)
Definition flags : list string :=
  ["--gateway-url"; "--url"; "--gateway-token"; "--token";
   "--gateway-password"; "--password"; "--verbose"; "-v"; "--cwd";
   "--help"; "-h"].

End Cli.

(** ** Delivery of a reply (auto-reply.ts) *)

Module WebReply.

(** [ReplyPayload], as far as [deliverWebReply] reads it. *)
Record ReplyPayload := {
  text : option string;
  mediaUrl : option string;
  mediaUrls : option (list string);
}.

(** What [loadWebMedia] resolves to. *)
Record WebMedia := {
  buffer : string;
  contentType : option string;
  kind : string;
}.

(** The argument of [msg.sendMedia]: [slot] is the key that holds the
    buffer ("image", "audio", "video" or "document"); [ptt] is false and
    [fileName] is [None] where the object has no such field. *)
Record MediaMessage := {
  slot : string;
  content : string;
  caption : option string;
  mimetype : option string;
  ptt : bool;
  fileName : option string;
}.

(** A call of [msg.reply] or [msg.sendMedia]. *)
Inductive Sent :=
  | Reply (text : string)
  | SendMedia (m : MediaMessage).

Inductive Completion :=
  | Returned
  | Threw.

(** [mediaUrl.split("/").pop()]: what follows the last slash. *)
Fixpoint lastSegment (current s : string) : string :=
  match s with
  | EmptyString => current
  | String c rest =>
      if bool_decide (String c EmptyString = "/") then
        lastSegment EmptyString rest
      else lastSegment (current +:+ String c EmptyString) rest
  end.

Definition mediaListOf (replyResult : ReplyPayload) : list string :=
  match mediaUrls replyResult with
  | Some (url :: urls) => url :: urls
  | _ =>
      if JS.truthy (mediaUrl replyResult)
      then [default EmptyString (mediaUrl replyResult)]
      else []
  end.

Definition mediaMessage (mediaUrl : string) (media : WebMedia)
    (caption : option string) : MediaMessage :=
  if bool_decide (kind media = "image") then
    {| slot := "image"; content := buffer media; caption := caption;
       mimetype := contentType media; ptt := false; fileName := None |}
  else if bool_decide (kind media = "audio") then
    {| slot := "audio"; content := buffer media; caption := caption;
       mimetype := contentType media; ptt := true; fileName := None |}
  else if bool_decide (kind media = "video") then
    {| slot := "video"; content := buffer media; caption := caption;
       mimetype := contentType media; ptt := false; fileName := None |}
  else
    {| slot := "document"; content := buffer media; caption := caption;
       mimetype := Some (default "application/octet-stream" (contentType media));
       ptt := false;
       fileName := Some (lastSegment EmptyString mediaUrl) |}.

Section deliver.
(** The outside of the function: what [loadWebMedia] gives for the media
    at an index ([None] when it throws), and whether a call of
    [msg.sendMedia] for the media at an index, or of [msg.reply], resolves
    ([false] when it throws). *)
Variable loadWebMedia : nat -> string -> Z -> option WebMedia.
Variable sendMedia : nat -> MediaMessage -> bool.
Variable reply : string -> bool.

(** The [for] loop over [mediaList.entries()] from [index] on: the calls
    made, each with whether it resolved, and how the loop ends. *)
Fixpoint sendFrom (index : nat) (cleanText : option string) (maxMediaBytes : Z)
    (mediaList : list string) : list (Sent * bool) * Completion :=
  match mediaList with
  | [] => ([], Returned)
  | mediaUrl :: rest =>
      let later := sendFrom (S index) cleanText maxMediaBytes rest in
      let caption :=
        if bool_decide (index = 0) && JS.truthy cleanText then cleanText
        else None in
      let tried :=
        match loadWebMedia index mediaUrl maxMediaBytes with
        | None => ([], false)
        | Some media =>
            let m := mediaMessage mediaUrl media caption in
            ([(SendMedia m, sendMedia index m)], sendMedia index m)
        end in
      if tried.2 then (tried.1 ++ later.1, later.2)
      else if bool_decide (index = 0) && JS.truthy cleanText then
        let t := default EmptyString cleanText in
        if reply t then (tried.1 ++ (Reply t, true) :: later.1, later.2)
        else (tried.1 ++ [(Reply t, false)], Threw)
      else (tried.1 ++ later.1, later.2)
  end.

Definition deliverWebReply (replyResult : ReplyPayload) (maxMediaBytes : Z)
    : list (Sent * bool) * Completion :=
  let mediaList := mediaListOf replyResult in
  if bool_decide (length mediaList = 0) && JS.truthy (text replyResult) then
    let t := default EmptyString (text replyResult) in
    ([(Reply t, reply t)], if reply t then Returned else Threw)
  else sendFrom 0 (text replyResult) maxMediaBytes mediaList.
End deliver.

End WebReply.

(** ** Heartbeat replies (auto-reply.ts) *)

Module Heartbeat.

Definition HEARTBEAT_TOKEN : string := "HEARTBEAT_OK".

(** The code units below 256 that [trim] strips: TAB, LF, VT, FF, CR,
    space and the no-break space. *)
Definition isWhiteSpace (c : Ascii.ascii) : bool :=
  let n := Ascii.nat_of_ascii c in
  bool_decide (9 <= n <= 13) || bool_decide (n = 32) || bool_decide (n = 160).

Fixpoint trimStart (s : string) : string :=
  match s with
  | EmptyString => EmptyString
  | String c rest => if isWhiteSpace c then trimStart rest else s
  end.

Fixpoint trimEnd (s : string) : string :=
  match s with
  | EmptyString => EmptyString
  | String c rest =>
      match trimEnd rest with
      | EmptyString =>
          if isWhiteSpace c then EmptyString else String c EmptyString
      | kept => String c kept
      end
  end.

(** [s.trim()] *)
Definition trim (s : string) : string := trimEnd (trimStart s).

(** [s.replaceAll(pattern, "")] for a non-empty pattern: the matches are
    taken from left to right and do not overlap; [skip] counts the
    characters of the current match still to be dropped. *)
Fixpoint removeFrom (pattern : string) (skip : nat) (s : string) : string :=
  match s with
  | EmptyString => EmptyString
  | String c rest =>
      match skip with
      | S skip' => removeFrom pattern skip' rest
      | 0 =>
          if JS.startsWith s pattern
          then removeFrom pattern (String.length pattern - 1) rest
          else String c (removeFrom pattern 0 rest)
      end
  end.

Definition removeAll (pattern s : string) : string := removeFrom pattern 0 s.

Record Stripped := { shouldSkip : bool; text : string }.

Definition stripHeartbeatToken (raw : option string) : Stripped :=
  if negb (JS.truthy raw) then {| shouldSkip := true; text := EmptyString |}
  else
    let trimmed := trim (default EmptyString raw) in
    if negb (JS.truthy (Some trimmed))
    then {| shouldSkip := true; text := EmptyString |}
    else if bool_decide (trimmed = HEARTBEAT_TOKEN)
    then {| shouldSkip := true; text := EmptyString |}
    else
      let withoutToken := trim (removeAll HEARTBEAT_TOKEN trimmed) in
      {| shouldSkip := bool_decide (String.length withoutToken = 0);
         text := if JS.truthy (Some withoutToken) then withoutToken
                 else trimmed |}.

Section once.
(** Whether a string compares greater than 0 once converted to a number,
    as in [replyResult.mediaUrl > 0]. *)
Variable positive : string -> bool.

(** [(replyResult.mediaUrl ?? replyResult.mediaUrls?.length ?? 0) > 0] *)
Definition hasMedia (replyResult : WebReply.ReplyPayload) : bool :=
  match WebReply.mediaUrl replyResult with
  | Some url => positive url
  | None =>
      match WebReply.mediaUrls replyResult with
      | Some urls => bool_decide (0 < length urls)
      | None => false
      end
  end.

(** [runWebHeartbeatOnce] from the reply of the resolver on: the text
    handed to [sender], if it is called. *)
Definition runWebHeartbeatOnce (replyResult : option WebReply.ReplyPayload)
    : option string :=
  match replyResult with
  | None => None
  | Some replyResult =>
      if negb (JS.truthy (WebReply.text replyResult))
         && negb (JS.truthy (WebReply.mediaUrl replyResult))
         && negb (bool_decide
                    (0 < length (default [] (WebReply.mediaUrls replyResult))))
      then None
      else
        let stripped := stripHeartbeatToken (WebReply.text replyResult) in
        if shouldSkip stripped && negb (hasMedia replyResult) then None
        else
          Some (if JS.truthy (Some (text stripped)) then text stripped
                else if JS.truthy (WebReply.text replyResult)
                     then default EmptyString (WebReply.text replyResult)
                     else EmptyString)
  end.
End once.

End Heartbeat.

(** ** Phone numbers (utils.ts) and the reply heartbeat interval
       (auto-reply.ts) *)

Module Utils.

(** [\d] *)
Definition isDigit (c : Ascii.ascii) : bool :=
  let n := Ascii.nat_of_ascii c in bool_decide (48 <= n <= 57).

(** [s.replace(/[^...]/g, "")]: the characters that [keep] accepts. *)
Fixpoint only (keep : Ascii.ascii -> bool) (s : string) : string :=
  match s with
  | EmptyString => EmptyString
  | String c rest => if keep c then String c (only keep rest) else only keep rest
  end.

Definition digitOrPlus (c : Ascii.ascii) : bool :=
  isDigit c || bool_decide (String c EmptyString = "+").

Definition withWhatsAppPrefix (number : string) : string :=
  if JS.startsWith number "whatsapp:" then number else "whatsapp:" +:+ number.

Definition normalizeE164 (number : string) : string :=
  let withoutPrefix :=
    Heartbeat.trim
      (if JS.startsWith number "whatsapp:"
       then JS.drop (String.length "whatsapp:") number
       else number) in
  let digits := only digitOrPlus withoutPrefix in
  if JS.startsWith digits "+" then "+" +:+ JS.slice digits 1 None
  else "+" +:+ digits.

End Utils.

Module ReplyHeartbeat.
Section minutes.
(** JavaScript numbers enter only through the tests [raw === 0] and
    [typeof raw === "number" && raw > 0]; the type and the two tests are
    parameters. *)
Variable Number : Type.
Variable isZero : Number -> bool.
Variable isPositive : Number -> bool.
Variable DEFAULT_REPLY_HEARTBEAT_MINUTES : Number.

(** [cfg.inbound?.reply], as far as it is read. *)
Record ReplyConfig := {
  heartbeatMinutes : option Number;
  mode : option string;
}.

Definition resolveReplyHeartbeatMinutes (cfg : ReplyConfig)
    (overrideMinutes : option Number) : option Number :=
  let raw :=
    match overrideMinutes with
    | Some n => Some n
    | None => heartbeatMinutes cfg
    end in
  match raw with
  | Some n =>
      if isZero n then None
      else if isPositive n then Some n
      else if bool_decide (mode cfg = Some "command")
           then Some DEFAULT_REPLY_HEARTBEAT_MINUTES
           else None
  | None =>
      if bool_decide (mode cfg = Some "command")
      then Some DEFAULT_REPLY_HEARTBEAT_MINUTES
      else None
  end.
End minutes.
End ReplyHeartbeat.

(** ** Reconnection policy *)

Module Reconnect.

(** Modelled from the spec: reconnect.ts is not among the sources. The
    record is the ReconnectPolicy of the data model ("baseDelayMs, backoff
    multiplier, optional jitter", "maxAttempts (0 = unlimited)"). Delays are
    natural numbers of milliseconds and the multiplier is a whole number of
    at least 1, as growth requires. *)
Record ReconnectPolicy := {
  baseDelayMs : N;
  multiplier : positive;
  jitter : option N;
  maxAttempts : Z;
}.

(** Modelled from the spec: [computeBackoff] of reconnect.ts, which is not
    among the sources. It is the pure function of section 4.3 in the
    exponential form named there: the delay grows from [baseDelayMs] by the
    multiplier with every attempt after the first, and a policy with a
    jitter adds it. *)
Definition computeBackoff (policy : ReconnectPolicy) (attemptNumber : Z) : Z :=
  (Z.of_N (baseDelayMs policy)
   * Z.pos (multiplier policy) ^ Z.max 0 (attemptNumber - 1)
   + Z.of_N (default 0%N (jitter policy)))%Z.

End Reconnect.

(** * Vocabulary of the statements *)

Import Translator Registry.

(** ** Worlds and chat frames *)

(** Every entry of [pendingPrompts] is stored under its own [sessionId],
    and a [Map] holds a key once. *)
Definition pending_wf (m : list (string * Pending.t)) : Prop :=
  NoDup (JSMap.keys m) /\ Forall (fun e => Pending.sessionId e.2 = e.1) m.

(** The run in the session's active-run slot, if any. *)
Definition activeRunOf (w : World) (sessionId : string) : option Session.ActiveRun :=
  sessions w !! sessionId ≫= Session.activeRun.

(** Some pending prompt belongs to a session with this Gateway key. *)
Definition matchesPending (w : World) (key : string) : Prop :=
  exists sessionId pending session,
    (sessionId, pending) ∈ pendingPrompts w /\
    sessions w !! sessionId = Some session /\
    Session.sessionKey session = key.

(** Chat frames with a session key. *)
Definition chatEvent (key : string) (state : option string)
    (message : option Chat.Message) : Chat.EventFrame :=
  {| Chat.event := "chat";
     Chat.payload := Some {| Chat.sessionKey := Some key; Chat.state := state;
                             Chat.message := message |} |}.

Definition textMessage (text : string) : Chat.Message :=
  {| Chat.content := Some [{| Chat.type := "text"; Chat.text := Some text |}] |}.

Definition chatDelta (key text : string) : Chat.EventFrame :=
  chatEvent key (Some "delta") (Some (textMessage text)).

(** Concrete worlds: the translator as constructed; after [start] and
    [newSession]; and with a prompt outstanding on that session. *)
Definition initialWorld : World :=
  {| connected := false; pendingPrompts := []; sessions := ∅ |}.

Definition sessionWorld : World :=
  world_of (newSession "/tmp/x" "s1" "acp:s1" (world_of (start initialWorld))).

Definition pingWorld : World :=
  world_of
    (prompt {| pr_sessionId := "s1"; pr_prompt := [TextBlock "ping"] |}
       "run-1" 1 1 sessionWorld).

Definition pingPending : Pending.t :=
  {| Pending.sessionId := "s1"; Pending.idempotencyKey := "run-1";
     Pending.resolve := 1; Pending.reject := 1;
     Pending.sentTextLength := None; Pending.sentText := None |}.

(** A world in which "haha " has been streamed for the prompt of [pingWorld]. *)
Definition hahaWorld : World :=
  world_of (handleChatEvent (chatDelta "acp:s1" "haha ") pingWorld).

(** ** Streaming *)

(** The texts of the chunks among some outgoing calls. *)
Definition chunksOf (effects : list Effect) : list string :=
  omap (fun e => match e with SessionUpdateChunk _ t => Some t | _ => None end)
    effects.

(** Chat frames handled one callback after the other: for each frame, the
    chunks forwarded while it was handled. *)
Fixpoint forwardedPerEvent (evts : list Chat.EventFrame) (w : World)
    : list (list string) :=
  match evts with
  | [] => []
  | evt :: rest =>
      let r := handleChatEvent evt w in
      chunksOf (effects_of r) :: forwardedPerEvent rest (world_of r)
  end.

Definition forwardedLengths (evts : list Chat.EventFrame) (w : World) : list nat :=
  (fun chunks => sum_list (String.length <$> chunks)) <$> forwardedPerEvent evts w.

(** The chunks a stream of cumulative texts yields from a stored length
    and text, as a function of the texts alone. *)
Fixpoint unsentSuffixes (sentSoFar : nat) (sentText : string)
    (texts : list string) : list (list string) :=
  match texts with
  | [] => []
  | fullText :: rest =>
      let newText := JS.slice fullText sentSoFar None in
      if bool_decide (sentSoFar < String.length fullText)
         && negb (isDuplicate sentText newText)
      then [newText] :: unsentSuffixes (String.length fullText) fullText rest
      else [] :: unsentSuffixes sentSoFar sentText rest
  end.

(** ** Disconnect *)

(** The session table after [clearActiveRun] on each of [ids] in turn. *)
Definition clearedAll (ids : list string) (ss : gmap string Session.t)
    : gmap string Session.t :=
  foldl (fun ss id => alter (Session.with_activeRun None) id ss) ss ids.

(** The body and the loop of [handleGatewayDisconnect]. *)
Definition rejectAndClear (reason : string) (entry : string * Pending.t) : M unit :=
  let '(sessionId, pending) := entry in
  call (Reject (Pending.reject pending) (GatewayDisconnected reason)) >>
  clearActiveRun sessionId.

(** ** Prompts *)

(** The request [prompt] sends for a session. *)
Definition chatSendOf (session : Session.t) (params : PromptRequest)
    (runId : string) : Effect :=
  let attachments := extractAttachmentsFromPrompt (pr_prompt params) in
  GatewayRequest "chat.send"
    (ChatSend (Session.sessionKey session)
       (("[Working directory: " +:+ Session.cwd session +:+ "]"
         +:+ JS.LF +:+ JS.LF)
        +:+ extractTextFromPrompt (pr_prompt params))
       (if bool_decide (0 < length attachments) then Some attachments else None)
       runId) true.

(** The entry [prompt] records. *)
Definition freshPending (sessionId runId : string) (promise : nat) : Pending.t :=
  {| Pending.sessionId := sessionId; Pending.idempotencyKey := runId;
     Pending.resolve := promise; Pending.reject := promise;
     Pending.sentTextLength := None; Pending.sentText := None |}.

(** The world [prompt] leaves for a known session. *)
Definition promptedWorld (sessionId runId : string) (abortController promise : nat)
    (w : World) : World :=
  with_pendingPrompts
    (JSMap.set sessionId (freshPending sessionId runId promise) (pendingPrompts w))
    (with_sessions
       (alter (Session.with_activeRun
                 (Some {| Session.runId := runId;
                          Session.cancellationHandle := abortController |}))
          sessionId (sessions w)) w).

(** A [prompt] call with the fresh objects it creates, and the world after
    a sequence of such calls with no other callback in between. *)
Record PromptCall := {
  call_params : PromptRequest;
  call_runId : string;
  call_abortController : nat;
  call_promise : nat;
}.

Definition call_sessionId (c : PromptCall) : string := pr_sessionId (call_params c).

Definition promptCall (c : PromptCall) : M (Error + nat) :=
  prompt (call_params c) (call_runId c) (call_abortController c) (call_promise c).

Definition afterPrompts (calls : list PromptCall) (w : World) : World :=
  foldl (fun w c => world_of (promptCall c w)) w calls.

Definition promptS1 (runId : string) (n : nat) : PromptCall :=
  {| call_params := {| pr_sessionId := "s1"; pr_prompt := [TextBlock "again"] |};
     call_runId := runId; call_abortController := n; call_promise := n |}.

(** ** Reconnection *)

(** States the connection host of server.ts can be in. *)
Inductive serverReachable : Server.ConnectionState -> Prop :=
  | reach_initial : serverReachable Server.initial
  | reach_hello st : serverReachable st -> serverReachable (Server.onHelloOk st)
  | reach_close code st : serverReachable st -> serverReachable (Server.onClose code st)
  | reach_timer st : serverReachable st -> serverReachable (Server.onTimer st).

(** ** Reachable worlds *)

(** The worlds the translator can be in: it starts as constructed, and every
    callback of the runtime runs one of its operations to completion. *)
Inductive reachable : World -> Prop :=
  | reach_new : reachable initialWorld
  | reach_start w : reachable w -> reachable (world_of (start w))
  | reach_newSession w cwd sessionId sessionKey :
      reachable w ->
      reachable (world_of (newSession cwd sessionId sessionKey w))
  | reach_prompt w params runId abortController promise :
      reachable w ->
      reachable (world_of (prompt params runId abortController promise w))
  | reach_dispatchFailed w sessionId promise err :
      reachable w ->
      reachable (world_of (promptDispatchFailed sessionId promise err w))
  | reach_chatEvent w evt :
      reachable w -> reachable (world_of (handleChatEvent evt w))
  | reach_disconnect w reason :
      reachable w -> reachable (world_of (handleGatewayDisconnect reason w))
  | reach_setSessionMode w params outcome :
      reachable w -> reachable (world_of (setSessionMode params outcome w))
  | reach_cancelBegin w sessionId :
      reachable w -> reachable (world_of (cancelBegin sessionId w))
  | reach_cancelResume w sessionId outcome :
      reachable w -> reachable (world_of (cancelResume sessionId outcome w)).

(** ** Cancellation and event sequences *)

(** [cancel] when no other callback runs while it awaits [chat.abort]. *)
Definition cancel (sessionId : string) (abortOutcome : RpcOutcome) : M unit :=
  let* known := cancelBegin sessionId in
  if known then cancelResume sessionId abortOutcome else ret tt.

(** The world after a sequence of chat frames, one callback each. *)
Fixpoint afterEvents (evts : list Chat.EventFrame) (w : World) : World :=
  match evts with
  | [] => w
  | evt :: rest => afterEvents rest (world_of (handleChatEvent evt w))
  end.

(** No pending prompt but that of [sessionId] belongs to a session with
    the Gateway key [key]. *)
Definition soleKey (w : World) (key sessionId : string) : Prop :=
  forall sid q,
    (sid, q) ∈ pendingPrompts w ->
    Session.sessionKey <$> sessions w !! sid = Some key ->
    sid = sessionId.

(** The terminal states of a chat frame. *)
Definition terminalStates : list string := ["final"; "done"; "aborted"; "error"].

(** Each text extends the one before it, the first one extending [prev]. *)
Fixpoint cumulative (prev : string) (texts : list string) : Prop :=
  match texts with
  | [] => True
  | text :: rest => JS.startsWith text prev = true /\ cumulative text rest
  end.

(** The stored length and text after a stream of cumulative texts, as a
    function of the texts alone. *)
Fixpoint storedAfter (sentSoFar : nat) (sentText : string)
    (texts : list string) : nat * string :=
  match texts with
  | [] => (sentSoFar, sentText)
  | fullText :: rest =>
      if bool_decide (sentSoFar < String.length fullText)
         && negb (isDuplicate sentText (JS.slice fullText sentSoFar None))
      then storedAfter (String.length fullText) fullText rest
      else storedAfter sentSoFar sentText rest
  end.

(** All chunks of some frames, put together in the order they were sent. *)
Definition received (chunks : list (list string)) : string :=
  foldr String.append EmptyString (concat chunks).

(** The recorded length of an entry is the length of its recorded text. *)
Definition entryConsistent (p : Pending.t) : Prop :=
  Pending.sentTextLength p = String.length <$> Pending.sentText p.

(** What every reachable world satisfies. *)
Definition worldInvariant (w : World) : Prop :=
  pending_wf (pendingPrompts w) /\
  Forall (fun e => entryConsistent e.2) (pendingPrompts w) /\
  forall sessionId, sessionId ∈ JSMap.keys (pendingPrompts w) ->
    is_Some (sessions w !! sessionId).


(** An attachment as the Gateway expects it. *)
Definition validAttachment (a : Attachment) : Prop :=
  att_type a = "image" /\ att_mimeType a <> EmptyString /\
  att_content a <> EmptyString.

(** ** Command line *)

(** [value] is a non-empty argument that directly follows one of [names]. *)
Definition follows (names : list string) (args : list string) (value : string)
    : Prop :=
  value <> EmptyString /\
  exists before flag after,
    args = before ++ flag :: value :: after /\ flag ∈ names.

(** ** Runs of the server's connection callbacks *)

(** The callbacks that touch the connection state of server.ts, in the
    order they fire. *)
Inductive ServerEvent :=
  | HelloOk
  | Close (code : Z)
  | TimerFired.

Definition serverStep (ev : ServerEvent) (st : Server.ConnectionState)
    : Server.ConnectionState :=
  match ev with
  | HelloOk => Server.onHelloOk st
  | Close code => Server.onClose code st
  | TimerFired => Server.onTimer st
  end.

(** The delays handed to [setTimeout] during a run, oldest first: a
    callback sets a timer when none was pending before it and one is
    pending after it. *)
Fixpoint scheduledDelays (evs : list ServerEvent) (st : Server.ConnectionState)
    : list Z :=
  match evs with
  | [] => []
  | ev :: rest =>
      let st' := serverStep ev st in
      match Server.reconnectTimer st, Server.reconnectTimer st' with
      | None, Some delay => delay :: scheduledDelays rest st'
      | _, _ => scheduledDelays rest st'
      end
  end.

(** The delays of attempts [n+1 .. MAX_RECONNECT_ATTEMPTS]. *)
Definition remainingDelays (n : Z) : list Z :=
  (fun k => Server.RECONNECT_DELAY_MS * k)%Z
    <$> seqZ (n + 1) (Server.MAX_RECONNECT_ATTEMPTS - n).

(** ** Runs of the web monitor loop *)

(** A connection that closes for a reason the loop retries after: nobody
    asked it to stop, the session is not logged out and the sleep runs to
    its end. *)
Definition retryable (c : WebMonitor.Connection) : Prop :=
  WebMonitor.stoppedBefore c = false /\
  WebMonitor.stopRequested c = false /\
  WebMonitor.sigintStop c = false /\
  (exists status, WebMonitor.reason c = WebMonitor.Closed status false) /\
  WebMonitor.sleepAborted c = false.

(** The connection did not stay up longer than the heartbeat interval. *)
Definition shortLived (heartbeatSeconds : Z) (c : WebMonitor.Connection) : Prop :=
  (WebMonitor.uptimeMs c <= heartbeatSeconds * 1000)%Z.

(** A connection lost after [uptime] ms with status 428. *)
Definition dropped (uptime : Z) : WebMonitor.Connection :=
  {| WebMonitor.stoppedBefore := false;
     WebMonitor.uptimeMs := uptime;
     WebMonitor.stopRequested := false;
     WebMonitor.sigintStop := false;
     WebMonitor.reason := WebMonitor.Closed (Some 428%Z) false;
     WebMonitor.sleepAborted := false |}.

(** ** Delivery of a reply *)

(** The calls that resolved, in order. *)
Definition delivered (sent : list (WebReply.Sent * bool)) : list WebReply.Sent :=
  omap (fun call : WebReply.Sent * bool => if call.2 then Some call.1 else None)
    sent.

(** The call hands [t] to the recipient, as a reply or as a caption. *)
Definition carries (t : string) (call : WebReply.Sent) : Prop :=
  match call with
  | WebReply.Reply t' => t' = t
  | WebReply.SendMedia m => WebReply.caption m = Some t
  end.

(** The call is a media message without a caption. *)
Definition bare (call : WebReply.Sent) : Prop :=
  match call with
  | WebReply.Reply _ => False
  | WebReply.SendMedia m => WebReply.caption m = None
  end.

(** A picture that loads for every media but the first. *)
Definition laterPictures (index : nat) (mediaUrl : string) (maxMediaBytes : Z)
    : option WebReply.WebMedia :=
  if bool_decide (index = 0) then None
  else Some {| WebReply.buffer := "png"; WebReply.contentType := Some "image/png";
               WebReply.kind := "image" |}.

Definition twoPictures (text : option string) : WebReply.ReplyPayload :=
  {| WebReply.text := text; WebReply.mediaUrl := Some "ignored";
     WebReply.mediaUrls := Some ["https://host/a.png"; "https://host/b.png"] |}.

(** ** Heartbeat replies *)

(** [pattern] occurs somewhere in [s]. *)
Definition occursIn (pattern s : string) : Prop :=
  exists before after, s = before +:+ pattern +:+ after.

(** [s.includes(pattern)] *)
Fixpoint includes (s pattern : string) : bool :=
  JS.startsWith s pattern
  || match s with
     | EmptyString => false
     | String _ rest => includes rest pattern
     end.

(** A policy that starts at one second and doubles, with a quarter of a
    second of jitter. *)
Definition doubling : Reconnect.ReconnectPolicy :=
  {| Reconnect.baseDelayMs := 1000; Reconnect.multiplier := 2;
     Reconnect.jitter := Some 250%N; Reconnect.maxAttempts := 5 |}.

(** * Properties *)

(** ** Strings *)
Lemma take_min n s : JS.take (n `min` String.length s) s = JS.take n s.
Proof.
  revert n. induction s as [|c s IH]; intros [|n]; simpl; try reflexivity.
  by rewrite IH.
Qed.

Lemma length_drop n s : String.length (JS.drop n s) = String.length s - n.
Proof.
  revert n. induction s as [|c s IH]; intros [|n]; simpl; try reflexivity.
  apply IH.
Qed.

Lemma drop_0 s : JS.drop 0 s = s.
Proof. by destruct s. Qed.

Lemma length_0_empty s : String.length s = 0 -> s = EmptyString.
Proof. by destruct s. Qed.

Lemma take_drop n s : JS.take n s +:+ JS.drop n s = s.
Proof.
  revert n. induction s as [|c s IH]; intros [|n]; simpl; try reflexivity.
  change (String c (JS.take n s +:+ JS.drop n s) = String c s).
  by rewrite IH.
Qed.

Lemma length_append (a b : string) :
  String.length (a +:+ b) = String.length a + String.length b.
Proof.
  induction a as [|c a IH]; [done |].
  change (S (String.length (a +:+ b)) = S (String.length a) + String.length b).
  by rewrite IH.
Qed.

Lemma append_assoc (a b c : string) : (a +:+ b) +:+ c = a +:+ b +:+ c.
Proof.
  induction a as [|x a IH]; [done |].
  change (String x ((a +:+ b) +:+ c) = String x (a +:+ b +:+ c)).
  by rewrite IH.
Qed.

Lemma startsWith_nonempty s p :
  JS.startsWith s p = true -> p <> EmptyString -> s <> EmptyString.
Proof. destruct p, s; simpl; try done. Qed.

Lemma truthy_Some key : key <> EmptyString -> JS.truthy (Some key) = true.
Proof.
  intros H. simpl. destruct (String.eqb_spec key EmptyString); [done | reflexivity].
Qed.

(** ** The map of pending prompts *)
Section jsmap.
Context {V : Type}.
Implicit Types (m : list (string * V)) (k : string) (v : V).

Lemma get_delete_eq k m : JSMap.get k (JSMap.delete k m) = None.
Proof.
  induction m as [|[k' v'] m IH]; simpl; [done |].
  case_decide; [done |]. simpl. by rewrite decide_False.
Qed.

Lemma get_delete_ne k k' m :
  k <> k' -> JSMap.get k' (JSMap.delete k m) = JSMap.get k' m.
Proof.
  intros Hne. induction m as [|[k0 v0] m IH]; simpl; [done |].
  destruct (decide (k0 = k)) as [->|]; simpl.
  - by rewrite decide_False.
  - by rewrite IH.
Qed.

Lemma get_set_eq k v m : JSMap.get k (JSMap.set k v m) = Some v.
Proof.
  induction m as [|[k' v'] m IH]; simpl.
  - by rewrite decide_True.
  - case_decide; simpl; [by rewrite decide_True | by rewrite decide_False].
Qed.

Lemma get_set_ne k k' v m :
  k <> k' -> JSMap.get k' (JSMap.set k v m) = JSMap.get k' m.
Proof.
  intros Hne. induction m as [|[k0 v0] m IH]; simpl.
  - by rewrite decide_False.
  - destruct (decide (k0 = k)) as [->|]; simpl.
    + by rewrite !decide_False.
    + by rewrite IH.
Qed.

Lemma elem_of_delete k k' v m :
  (k', v) ∈ JSMap.delete k m -> k' <> k /\ (k', v) ∈ m.
Proof.
  induction m as [|[k0 v0] m IH]; simpl; [by intros ?%elem_of_nil |].
  case_decide as Hk.
  - intros [? ?]%IH. split; [done | by right].
  - intros [Heq | Hin]%elem_of_cons.
    + inversion Heq; subst. split; [done | by left].
    + destruct (IH Hin). split; [done | by right].
Qed.

Lemma keys_delete k m : JSMap.keys (JSMap.delete k m) = filter (λ x, x ≠ k) (JSMap.keys m).
Proof.
  unfold JSMap.keys.
  induction m as [|[k0 v0] m IH]; csimpl; [done |].
  rewrite filter_cons. csimpl.
  destruct (decide (k0 = k)) as [->|Hne].
  - by rewrite decide_False; [| by intros []].
  - rewrite decide_True; [| done]. csimpl. by rewrite IH.
Qed.

Lemma keys_set_present k v m :
  k ∈ JSMap.keys m -> JSMap.keys (JSMap.set k v m) = JSMap.keys m.
Proof.
  unfold JSMap.keys.
  induction m as [|[k0 v0] m IH]; csimpl; [by intros ?%elem_of_nil |].
  destruct (decide (k0 = k)) as [->|Hne]; csimpl; [done |].
  intros [?|Hin]%elem_of_cons; [congruence |]. by rewrite IH.
Qed.

Lemma keys_set_absent k v m :
  k ∉ JSMap.keys m -> JSMap.keys (JSMap.set k v m) = JSMap.keys m ++ [k].
Proof.
  unfold JSMap.keys.
  induction m as [|[k0 v0] m IH]; csimpl; [done |].
  intros Hnin. apply not_elem_of_cons in Hnin as [Hne Hnin].
  rewrite decide_False; [| done]. csimpl. by rewrite IH.
Qed.

Lemma get_None_keys k m : JSMap.get k m = None <-> k ∉ JSMap.keys m.
Proof.
  unfold JSMap.keys.
  induction m as [|[k0 v0] m IH]; csimpl.
  - split; [intros _; apply not_elem_of_nil | done].
  - destruct (decide (k0 = k)) as [->|Hne].
    + split; [done | intros []; by left].
    + rewrite IH, not_elem_of_cons. split; [by intros ? | by intros [_ ?]].
Qed.

End jsmap.

Lemma fullTextOf_textMessage text : fullTextOf (textMessage text) = text.
Proof. reflexivity. Qed.

Lemma findPending_None ss key entries :
  findPending ss key entries = None <->
  forall sessionId pending, (sessionId, pending) ∈ entries ->
    Session.sessionKey <$> ss !! sessionId <> Some key.
Proof.
  induction entries as [|[sid p] rest IH]; simpl.
  - split; [intros _ ? ? ?%elem_of_nil; done | done].
  - case_decide as Hk.
    + split; [done |]. intros H. exfalso. eapply H; [by left | done].
    + rewrite IH. split.
      * intros H sid' p' [Heq|Hin]%elem_of_cons; [by inversion Heq; subst | by eapply H].
      * intros H sid' p' Hin. eapply H. by right.
Qed.

Lemma findPending_Some ss key entries p :
  findPending ss key entries = Some p ->
  exists sessionId, (sessionId, p) ∈ entries /\
    Session.sessionKey <$> ss !! sessionId = Some key.
Proof.
  induction entries as [|[sid q] rest IH]; simpl; [done |].
  case_decide as Hk.
  - intros [= ->]. exists sid. split; [by left | done].
  - intros [sid' [Hin Hkey]]%IH. exists sid'. split; [by right | done].
Qed.

Lemma not_matchesPending w key :
  ~ matchesPending w key ->
  findPending (sessions w) key (pendingPrompts w) = None.
Proof.
  intros Hno. apply findPending_None. intros sid p Hin Hkey.
  destruct (sessions w !! sid) as [session|] eqn:Hs; [| done].
  apply Hno. exists sid, p, session. simpl in Hkey. by inversion Hkey.
Qed.

Lemma wf_get m sessionId p :
  pending_wf m -> (sessionId, p) ∈ m -> JSMap.get sessionId m = Some p.
Proof.
  intros [Hnd _]. unfold JSMap.keys in Hnd.
  induction m as [|[k q] m IH]; [by intros ?%elem_of_nil |].
  csimpl in *. apply NoDup_cons in Hnd as [Hnin Hnd].
  intros [Heq|Hin]%elem_of_cons.
  - inversion Heq; subst. by rewrite decide_True.
  - rewrite decide_False; [by apply IH |].
    intros ->. apply Hnin. apply list_elem_of_fmap. by exists (sessionId, p).
Qed.

Lemma wf_found w key p :
  pending_wf (pendingPrompts w) ->
  findPending (sessions w) key (pendingPrompts w) = Some p ->
  JSMap.get (Pending.sessionId p) (pendingPrompts w) = Some p.
Proof.
  intros Hwf [sid [Hin _]]%findPending_Some.
  destruct Hwf as [Hnd Hall].
  pose proof (proj1 (Forall_forall _ _) Hall _ Hin) as Hk. simpl in Hk.
  rewrite Hk. by apply wf_get.
Qed.

(** What [handleChatEvent] does once the frame has a session key and a
    pending prompt was found for it. *)
Lemma handleChatEvent_found key state message w p :
  key <> EmptyString ->
  findPending (sessions w) key (pendingPrompts w) = Some p ->
  handleChatEvent (chatEvent key state message) w =
  match (if bool_decide (state = Some "delta") then message else None) with
  | Some messageData => handleDelta (Pending.sessionId p) messageData w
  | None =>
      if isTerminal state then
        let w' :=
          with_sessions
            (alter (Session.with_activeRun None) (Pending.sessionId p) (sessions w))
            (with_pendingPrompts
               (JSMap.delete (Pending.sessionId p) (pendingPrompts w)) w) in
        (tt, w',
         [{| at_world := w';
             effect := Resolve (Pending.resolve p)
                         {| stopReason := stopReasonOf state |} |}])
      else (tt, w, [])
  end.
Proof.
  intros Hkey Hfind. unfold handleChatEvent, chatEvent. cbn [Chat.payload Chat.sessionKey Chat.state Chat.message].
  rewrite (truthy_Some _ Hkey). cbn [negb default from_option id].
  unfold bind at 1. unfold findPendingBySessionKey, bind, get, ret. rewrite Hfind.
  destruct (if bool_decide (state = Some "delta") then message else None) as [md|].
  - by destruct (handleDelta _ _ _) as [[[] ?] ?].
  - destruct (isTerminal state); reflexivity.
Qed.

(** The delta branch once the entry of the session is known. *)
Lemma handleDelta_entry sessionId messageData w actual :
  JSMap.get sessionId (pendingPrompts w) = Some actual ->
  let fullText := fullTextOf messageData in
  let sentSoFar := default 0 (Pending.sentTextLength actual) in
  let sentText := default EmptyString (Pending.sentText actual) in
  let newText := JS.drop sentSoFar fullText in
  handleDelta sessionId messageData w =
  if bool_decide (sentSoFar < String.length fullText)
     && negb (isDuplicate sentText newText)
  then
    let w' :=
      with_pendingPrompts
        (JSMap.set sessionId
           (Pending.with_sent (String.length fullText) fullText actual)
           (pendingPrompts w)) w in
    (tt, w', [{| at_world := w'; effect := SessionUpdateChunk sessionId newText |}])
  else (tt, w, []).
Proof.
  intros Hget. unfold handleDelta, bind, get, ret, modify, call. rewrite Hget.
  cbn [mbind option_bind JS.slice].
  case_bool_decide; cbn [andb]; [| done].
  by destruct (isDuplicate _ _).
Qed.

Lemma handleDelta_no_entry sessionId messageData w :
  JSMap.get sessionId (pendingPrompts w) = None ->
  handleDelta sessionId messageData w = (tt, w, []).
Proof.
  intros Hget. unfold handleDelta, bind, get, ret. rewrite Hget.
  by case_bool_decide.
Qed.

Example pingWorld_pending : pendingPrompts pingWorld = [("s1", pingPending)].
Proof. reflexivity. Qed.

Example pingWorld_activeRun :
  activeRunOf pingWorld "s1"
  = Some {| Session.runId := "run-1"; Session.cancellationHandle := 1 |}.
Proof. vm_compute. reflexivity. Qed.

Example pingWorld_find :
  findPending (sessions pingWorld) "acp:s1" (pendingPrompts pingWorld)
  = Some pingPending.
Proof. vm_compute. reflexivity. Qed.

Lemma pingWorld_wf : pending_wf (pendingPrompts pingWorld).
Proof.
  split.
  - apply NoDup_singleton.
  - by repeat constructor.
Defined.

(** The end-to-end scenario of the specification: prompt "ping", a delta
    with cumulative text "pong", then a final event. *)
Example ping_pong :
  let r1 := handleChatEvent (chatDelta "acp:s1" "pong") pingWorld in
  let r2 := handleChatEvent (chatEvent "acp:s1" (Some "final") None) (world_of r1) in
  effects_of r1 = [SessionUpdateChunk "s1" "pong"] /\
  effects_of r2 = [Resolve 1 {| stopReason := end_turn |}] /\
  activeRunOf (world_of r2) "s1" = None /\
  pendingPrompts (world_of r2) = [].
Proof. vm_compute. done. Qed.

(** ** Chat events *)
(** C10. A chat event whose payload lacks a session key, or whose session
    key belongs to no session with a pending prompt, is dropped:
    [handleChatEvent] makes no outgoing call (so no session update) and
    returns the world as it was, pending-prompt table and every session's
    active-run slot included. *)
Theorem C10_unmatched_chat_event_is_dropped (evt : Chat.EventFrame) (w : World) :
  (Chat.payload evt ≫= Chat.sessionKey = None \/
   exists key, Chat.payload evt ≫= Chat.sessionKey = Some key /\
               ~ matchesPending w key) ->
  handleChatEvent evt w = (tt, w, []).
Proof.
  intros Hkey. unfold handleChatEvent.
  destruct (Chat.payload evt) as [payload|]; [| done]. cbn in Hkey.
  destruct (Chat.sessionKey payload) as [key|]; [| done].
  destruct Hkey as [| (key' & [= <-] & Hno)]; [done |].
  destruct (JS.truthy (Some key)); [| done]. cbn [negb default from_option id].
  unfold findPendingBySessionKey, bind, get, ret.
  by rewrite (not_matchesPending _ _ Hno).
Qed.

Lemma C10_witness :
  handleChatEvent (chatDelta "acp:other" "pong") pingWorld = (tt, pingWorld, []).
Proof.
  apply C10_unmatched_chat_event_is_dropped. right. exists "acp:other".
  split; [reflexivity |].
  intros (sid & p & session & Hin & Hs & Hk).
  apply list_elem_of_singleton in Hin. inversion Hin; subst.
  vm_compute in Hs. inversion Hs; subst. discriminate Hk.
Defined.

(** C5. When a run has previously sent text and the new suffix of a delta
    event (the cumulative text beyond the stored length) begins with the
    first 20 characters of that text, the event is dropped: no call is
    made and the world, stored sent-text state included, is unchanged. *)
Theorem C5_duplicate_suffix_is_dropped (w : World) (key : string)
    (messageData : Chat.Message) (p actual : Pending.t) (sent : string) :
  key <> EmptyString ->
  findPending (sessions w) key (pendingPrompts w) = Some p ->
  JSMap.get (Pending.sessionId p) (pendingPrompts w) = Some actual ->
  Pending.sentText actual = Some sent ->
  sent <> EmptyString ->
  JS.startsWith
    (JS.slice (fullTextOf messageData)
       (default 0 (Pending.sentTextLength actual)) None)
    (JS.slice sent 0 (Some 20)) = true ->
  handleChatEvent (chatEvent key (Some "delta") (Some messageData)) w
  = (tt, w, []).
Proof.
  intros Hkey Hfind Hget Hsent Hne Hdup.
  rewrite (handleChatEvent_found _ _ _ _ _ Hkey Hfind).
  rewrite bool_decide_eq_true_2 by done.
  rewrite (handleDelta_entry _ _ _ _ Hget). cbn zeta.
  rewrite Hsent. cbn [default from_option id].
  assert (isDuplicate sent
            (JS.drop (default 0 (Pending.sentTextLength actual))
               (fullTextOf messageData)) = true) as ->.
  { unfold isDuplicate. apply andb_true_intro. split.
    - apply bool_decide_eq_true_2. destruct sent; [done | simpl; lia].
    - unfold JS.slice in *. rewrite Nat.sub_0_r, drop_0 in *.
      by rewrite take_min. }
  by rewrite andb_false_r.
Qed.

Lemma C5_witness :
  handleChatEvent (chatDelta "acp:s1" "haha haha ha") hahaWorld
  = (tt, hahaWorld, []).
Proof.
  apply (C5_duplicate_suffix_is_dropped hahaWorld "acp:s1"
           (textMessage "haha haha ha")
           (Pending.with_sent 5 "haha " pingPending)
           (Pending.with_sent 5 "haha " pingPending) "haha ").
  - discriminate.
  - vm_compute. reflexivity.
  - reflexivity.
  - reflexivity.
  - discriminate.
  - reflexivity.
Defined.

(** C9. While no text has been sent for a run, the duplicate guard cannot
    fire, and the first delta event with non-empty cumulative text is
    forwarded in full: the one call made is the chunk with the entire
    cumulative text, and the entry then stores that text and its length. *)
Theorem C9_first_delta_forwarded_in_full (w : World) (key : string)
    (messageData : Chat.Message) (p : Pending.t) :
  key <> EmptyString ->
  pending_wf (pendingPrompts w) ->
  findPending (sessions w) key (pendingPrompts w) = Some p ->
  default 0 (Pending.sentTextLength p) = 0 ->
  default EmptyString (Pending.sentText p) = EmptyString ->
  fullTextOf messageData <> EmptyString ->
  let fullText := fullTextOf messageData in
  let w' :=
    with_pendingPrompts
      (JSMap.set (Pending.sessionId p)
         (Pending.with_sent (String.length fullText) fullText p)
         (pendingPrompts w)) w in
  (forall newText, isDuplicate (default EmptyString (Pending.sentText p)) newText = false) /\
  handleChatEvent (chatEvent key (Some "delta") (Some messageData)) w
  = (tt, w',
     [{| at_world := w';
         effect := SessionUpdateChunk (Pending.sessionId p) fullText |}]).
Proof.
  intros Hkey Hwf Hfind Hlen Hsent Hne fullText w'. split.
  - intros newText. by rewrite Hsent.
  - rewrite (handleChatEvent_found _ _ _ _ _ Hkey Hfind).
    rewrite bool_decide_eq_true_2 by done.
    rewrite (handleDelta_entry _ _ _ _ (wf_found _ _ _ Hwf Hfind)). cbn zeta.
    rewrite Hlen, Hsent, drop_0.
    rewrite bool_decide_eq_true_2.
    + reflexivity.
    + destruct (fullTextOf messageData); [done | simpl; lia].
Qed.

Lemma C9_witness :
  effects_of (handleChatEvent (chatDelta "acp:s1" "pong") pingWorld)
  = [SessionUpdateChunk "s1" "pong"].
Proof.
  destruct (C9_first_delta_forwarded_in_full pingWorld "acp:s1"
              (textMessage "pong") pingPending) as [_ H].
  - discriminate.
  - exact pingWorld_wf.
  - vm_compute. reflexivity.
  - reflexivity.
  - reflexivity.
  - discriminate.
  - unfold chatDelta. rewrite H. reflexivity.
Defined.

(** ** Active-run slots *)
Lemma activeRunOf_alter_eq w ss run sessionId :
  activeRunOf (with_sessions (alter (Session.with_activeRun run) sessionId ss) w)
    sessionId
  = ss !! sessionId ≫= fun _ => run.
Proof.
  unfold activeRunOf. cbn [sessions with_sessions].
  rewrite lookup_alter_eq. by destruct (ss !! sessionId).
Qed.

Lemma activeRunOf_alter_ne w ss run sessionId other :
  sessionId <> other ->
  activeRunOf (with_sessions (alter (Session.with_activeRun run) sessionId ss) w)
    other
  = ss !! other ≫= Session.activeRun.
Proof.
  intros Hne. unfold activeRunOf. cbn [sessions with_sessions].
  by rewrite lookup_alter_ne.
Qed.

Lemma activeRunOf_cleared w ss sessionId :
  activeRunOf (with_sessions (alter (Session.with_activeRun None) sessionId ss) w)
    sessionId = None.
Proof. rewrite activeRunOf_alter_eq. by destruct (ss !! sessionId). Qed.

(** C2. On a terminal chat event (final, done, aborted, error) for a run
    with a pending prompt, the one call made is the resolution of that
    prompt's deferred, and it is made in a world from which the
    PendingRequest is already removed and in which the session's active-run
    slot is already empty; the stop reason is end_turn for final and done,
    cancelled for aborted and refusal for error. *)
Theorem C2_terminal_event_releases_then_resolves (w : World) (key st : string)
    (message : option Chat.Message) (p : Pending.t) :
  key <> EmptyString ->
  pending_wf (pendingPrompts w) ->
  findPending (sessions w) key (pendingPrompts w) = Some p ->
  st ∈ ["final"; "done"; "aborted"; "error"] ->
  exists w' reason,
    handleChatEvent (chatEvent key (Some st) message) w
    = (tt, w',
       [{| at_world := w';
           effect := Resolve (Pending.resolve p) {| stopReason := reason |} |}]) /\
    JSMap.get (Pending.sessionId p) (pendingPrompts w') = None /\
    (forall k, (k, p) ∉ pendingPrompts w') /\
    activeRunOf w' (Pending.sessionId p) = None /\
    (st = "final" \/ st = "done" -> reason = end_turn) /\
    (st = "aborted" -> reason = cancelled) /\
    (st = "error" -> reason = refusal).
Proof.
  intros Hkey [_ Hall] Hfind Hst.
  rewrite (handleChatEvent_found _ _ _ _ _ Hkey Hfind).
  assert (bool_decide (Some st = Some "delta") = false) as ->.
  { apply bool_decide_eq_false_2. intros [= ->].
    repeat (apply elem_of_cons in Hst as [Hst|Hst]; [discriminate |]).
    by apply elem_of_nil in Hst. }
  assert (isTerminal (Some st) = true) as ->.
  { unfold isTerminal.
    repeat (apply elem_of_cons in Hst as [->|Hst]; [reflexivity |]).
    by apply elem_of_nil in Hst. }
  eexists _, _. split; [reflexivity |].
  split; [apply get_delete_eq |].
  split.
  { intros k [Hk Hin]%elem_of_delete.
    pose proof (proj1 (Forall_forall _ _) Hall _ Hin) as Hsid. by simpl in Hsid. }
  split; [apply activeRunOf_cleared |].
  repeat split.
  - by intros [-> | ->].
  - by intros ->.
  - by intros ->.
Qed.

Lemma C2_witness :
  effects_of (handleChatEvent (chatEvent "acp:s1" (Some "error") None) pingWorld)
  = [Resolve 1 {| stopReason := refusal |}].
Proof.
  destruct (C2_terminal_event_releases_then_resolves pingWorld "acp:s1" "error"
              None pingPending) as (w' & reason & H & _ & _ & _ & _ & _ & Herr).
  - discriminate.
  - exact pingWorld_wf.
  - vm_compute. reflexivity.
  - set_solver.
  - rewrite H, (Herr eq_refl). reflexivity.
Defined.

(** ** Streaming *)

Lemma Forall_set (m : list (string * Pending.t)) k v :
  Forall (fun e => Pending.sessionId e.2 = e.1) m ->
  Pending.sessionId v = k ->
  Forall (fun e => Pending.sessionId e.2 = e.1) (JSMap.set k v m).
Proof.
  intros Hall Hv. induction Hall as [|[k' v'] m Hhd Htl IH]; simpl.
  - by constructor.
  - case_decide; constructor; done.
Qed.

Lemma wf_set m k v :
  pending_wf m -> Pending.sessionId v = k -> pending_wf (JSMap.set k v m).
Proof.
  intros [Hnd Hall] Hv. split; [| by apply Forall_set].
  destruct (decide (k ∈ JSMap.keys m)) as [Hin|Hnin].
  - by rewrite keys_set_present.
  - rewrite keys_set_absent by done.
    apply NoDup_app. split; [done |]. split; [| apply NoDup_singleton].
    intros x Hx ->%list_elem_of_singleton. done.
Qed.

Lemma wf_delete m k : pending_wf m -> pending_wf (JSMap.delete k m).
Proof.
  intros [Hnd Hall]. split.
  - rewrite keys_delete. by apply NoDup_filter.
  - apply Forall_forall. intros [k' v] [_ Hin]%elem_of_delete.
    by apply (proj1 (Forall_forall _ _) Hall _ Hin).
Qed.

(** Updating the found entry in place leaves it the entry that is found. *)
Lemma findPending_set ss key m p p' :
  pending_wf m ->
  findPending ss key m = Some p ->
  findPending ss key (JSMap.set (Pending.sessionId p) p' m) = Some p'.
Proof.
  intros [Hnd Hall]. unfold JSMap.keys in Hnd.
  induction m as [|[k q] m IH]; [done |].
  csimpl in *. apply NoDup_cons in Hnd as [Hnin Hnd].
  apply Forall_cons in Hall as [Hq Hall]. simpl in Hq.
  case_decide as Hk.
  - intros [= ->]. rewrite decide_True by done. simpl.
    rewrite Hq. by rewrite decide_True.
  - intros Hfind.
    destruct (findPending_Some _ _ _ _ Hfind) as (sid & Hin & _).
    pose proof (proj1 (Forall_forall _ _) Hall _ Hin) as Hsid. simpl in Hsid.
    rewrite decide_False.
    + simpl. rewrite decide_False by done. by apply IH.
    + intros ->. apply Hnin. apply list_elem_of_fmap.
      exists (sid, p). split; [done | done].
Qed.

Lemma get_elem (m : list (string * Pending.t)) k v :
  JSMap.get k m = Some v -> (k, v) ∈ m.
Proof.
  induction m as [|[k' v'] m IH]; simpl; [done |].
  case_decide as Hk.
  - intros [= ->]. subst. by left.
  - intros Hget. right. by apply IH.
Qed.

Lemma handleDelta_wf sessionId messageData w :
  pending_wf (pendingPrompts w) ->
  pending_wf (pendingPrompts (world_of (handleDelta sessionId messageData w))).
Proof.
  intros Hwf.
  destruct (JSMap.get sessionId (pendingPrompts w)) as [actual|] eqn:Hget.
  - rewrite (handleDelta_entry _ _ _ _ Hget). cbn zeta.
    destruct (_ && _); [| done].
    apply wf_set; [done |].
    destruct Hwf as [_ Hall].
    apply (proj1 (Forall_forall _ _) Hall _ (get_elem _ _ _ Hget)).
  - by rewrite (handleDelta_no_entry _ _ _ Hget).
Qed.

Lemma handleChatEvent_wf evt w :
  pending_wf (pendingPrompts w) ->
  pending_wf (pendingPrompts (world_of (handleChatEvent evt w))).
Proof.
  intros Hwf. unfold handleChatEvent.
  destruct (Chat.payload evt) as [payload|]; [| done].
  destruct (JS.truthy (Chat.sessionKey payload)); [| done].
  cbn [negb]. unfold findPendingBySessionKey, bind at 1. unfold bind at 1, get, ret.
  destruct (findPending _ _ _) as [p|]; [| done].
  destruct (if bool_decide _ then Chat.message payload else None) as [md|].
  - pose proof (handleDelta_wf (Pending.sessionId p) md w Hwf) as H.
    by destruct (handleDelta _ _ _) as [[[] ?] ?].
  - destruct (isTerminal _); [| done]. by apply wf_delete.
Qed.

(** One delta frame for the run whose prompt is found under [key]. *)
Lemma delta_step w key messageData p :
  key <> EmptyString ->
  pending_wf (pendingPrompts w) ->
  findPending (sessions w) key (pendingPrompts w) = Some p ->
  let fullText := fullTextOf messageData in
  let sentSoFar := default 0 (Pending.sentTextLength p) in
  let sentText := default EmptyString (Pending.sentText p) in
  let newText := JS.slice fullText sentSoFar None in
  let p' := Pending.with_sent (String.length fullText) fullText p in
  let w' :=
    with_pendingPrompts (JSMap.set (Pending.sessionId p) p' (pendingPrompts w)) w in
  handleChatEvent (chatEvent key (Some "delta") (Some messageData)) w
  = (if bool_decide (sentSoFar < String.length fullText)
        && negb (isDuplicate sentText newText)
     then (tt, w',
           [{| at_world := w';
               effect := SessionUpdateChunk (Pending.sessionId p) newText |}])
     else (tt, w, []))
  /\ pending_wf (pendingPrompts w')
  /\ findPending (sessions w') key (pendingPrompts w') = Some p'.
Proof.
  intros Hkey Hwf Hfind. cbn zeta. split; [| split].
  - rewrite (handleChatEvent_found _ _ _ _ _ Hkey Hfind).
    rewrite bool_decide_eq_true_2 by done.
    by rewrite (handleDelta_entry _ _ _ _ (wf_found _ _ _ Hwf Hfind)).
  - by apply wf_set.
  - by apply findPending_set.
Qed.

Lemma forwardedPerEvent_deltas texts : forall w key p,
  key <> EmptyString ->
  pending_wf (pendingPrompts w) ->
  findPending (sessions w) key (pendingPrompts w) = Some p ->
  forwardedPerEvent (chatDelta key <$> texts) w
  = unsentSuffixes (default 0 (Pending.sentTextLength p))
      (default EmptyString (Pending.sentText p)) texts.
Proof.
  induction texts as [|t rest IH]; intros w key p Hkey Hwf Hfind; [done |].
  destruct (delta_step w key (textMessage t) p Hkey Hwf Hfind)
    as (Hstep & Hwf' & Hfind').
  cbn zeta in Hstep, Hwf', Hfind'. rewrite fullTextOf_textMessage in *.
  change (forwardedPerEvent (chatDelta key <$> t :: rest) w)
    with (chunksOf (effects_of (handleChatEvent (chatDelta key t) w))
          :: forwardedPerEvent (chatDelta key <$> rest)
               (world_of (handleChatEvent (chatDelta key t) w))).
  unfold chatDelta at 1 3. rewrite Hstep. cbn [unsentSuffixes].
  destruct (bool_decide _ && negb _).
  - cbn [world_of effects_of fst snd]. f_equal.
    by rewrite (IH _ _ _ Hkey Hwf' Hfind').
  - cbn [world_of effects_of fst snd]. f_equal.
    by rewrite (IH _ _ _ Hkey Hwf Hfind).
Qed.

(** C1 (amended). When the cumulative text of a delta event is longer than
    the stored sent-text length and the duplicate guard does not fire, the
    translator first stores the length and text of the payload and then
    forwards exactly the suffix beyond the length that was stored before:
    the chunk goes out in the world that already holds the new length and
    text. Otherwise it forwards nothing and leaves the stored state as it
    was. For cumulative payloads of lengths 5, 12, 12, 20 on a fresh
    prompt, on none of which the guard fires, the forwarded chunks have
    lengths 5, 7, 0 (nothing), 8, and when each payload extends the one
    before, the chunks put together are the last payload. *)
Theorem C1_delta_forwards_unsent_suffix :
  (forall (w : World) (key : string) (messageData : Chat.Message) (p : Pending.t),
      key <> EmptyString ->
      pending_wf (pendingPrompts w) ->
      findPending (sessions w) key (pendingPrompts w) = Some p ->
      let fullText := fullTextOf messageData in
      let sentSoFar := default 0 (Pending.sentTextLength p) in
      let sentText := default EmptyString (Pending.sentText p) in
      let newText := JS.slice fullText sentSoFar None in
      let evt := chatEvent key (Some "delta") (Some messageData) in
      (sentSoFar < String.length fullText ->
       isDuplicate sentText newText = false ->
       exists w',
         handleChatEvent evt w
         = (tt, w',
            [{| at_world := w';
                effect := SessionUpdateChunk (Pending.sessionId p) newText |}]) /\
         JSMap.get (Pending.sessionId p) (pendingPrompts w')
         = Some (Pending.with_sent (String.length fullText) fullText p) /\
         sessions w' = sessions w) /\
      (String.length fullText <= sentSoFar \/ isDuplicate sentText newText = true ->
       handleChatEvent evt w = (tt, w, []))) /\
  (forall (w : World) (key : string) (p : Pending.t) (t1 t2 t3 t4 : string),
      key <> EmptyString ->
      pending_wf (pendingPrompts w) ->
      findPending (sessions w) key (pendingPrompts w) = Some p ->
      Pending.sentTextLength p = None ->
      Pending.sentText p = None ->
      String.length t1 = 5 -> String.length t2 = 12 ->
      String.length t3 = 12 -> String.length t4 = 20 ->
      isDuplicate t1 (JS.slice t2 5 None) = false ->
      isDuplicate t2 (JS.slice t4 12 None) = false ->
      let evts := chatDelta key <$> [t1; t2; t3; t4] in
      forwardedPerEvent evts w
      = [[t1]; [JS.slice t2 5 None]; []; [JS.slice t4 12 None]] /\
      forwardedLengths evts w = [5; 7; 0; 8] /\
      (JS.slice t2 0 (Some 5) = t1 -> JS.slice t4 0 (Some 12) = t2 ->
       t1 +:+ JS.slice t2 5 None +:+ JS.slice t4 12 None = t4)).
Proof.
  split.
  - intros w key md p Hkey Hwf Hfind. cbn zeta.
    destruct (delta_step w key md p Hkey Hwf Hfind) as (Hstep & _ & _).
    cbn zeta in Hstep. split.
    + intros Hlt Hdup. eexists. rewrite Hstep.
      rewrite bool_decide_eq_true_2 by done. rewrite Hdup. cbn [andb negb].
      split; [reflexivity |]. split; [apply get_set_eq | reflexivity].
    + intros Hor. rewrite Hstep. destruct Hor as [Hle | Hdup].
      * rewrite bool_decide_eq_false_2 by lia. reflexivity.
      * rewrite Hdup. by rewrite andb_false_r.
  - intros w key p t1 t2 t3 t4 Hkey Hwf Hfind Hlen Hsent L1 L2 L3 L4 D1 D2.
    assert (forwardedPerEvent (chatDelta key <$> [t1; t2; t3; t4]) w
            = [[t1]; [JS.slice t2 5 None]; []; [JS.slice t4 12 None]]) as Hfw.
    { rewrite (forwardedPerEvent_deltas _ _ _ _ Hkey Hwf Hfind), Hlen, Hsent.
      cbn [default from_option id unsentSuffixes].
      rewrite L1, L2, L3, L4, D1, D2. cbn [bool_decide andb negb].
      rewrite !bool_decide_eq_true_2 by lia.
      rewrite bool_decide_eq_false_2 by lia.
      cbn [andb negb isDuplicate String.length bool_decide].
      unfold JS.slice at 1. by rewrite drop_0. }
    cbn zeta. split; [exact Hfw |]. split.
    + unfold forwardedLengths. rewrite Hfw.
      change ([String.length t1 + 0; String.length (JS.drop 5 t2) + 0; 0;
               String.length (JS.drop 12 t4) + 0] = [5; 7; 0; 8]).
      rewrite !length_drop, L1, L2, L4. reflexivity.
    + unfold JS.slice. rewrite !Nat.sub_0_r, !drop_0. intros P1 P2.
      subst t1 t2. rewrite <- append_assoc.
      by rewrite !take_drop.
Qed.

Lemma C1_witness :
  forwardedLengths
    (chatDelta "acp:s1"
       <$> ["Hello"; "Hello world!"; "Hello world!"; "Hello world! Goodbye"])
    pingWorld
  = [5; 7; 0; 8].
Proof.
  apply (proj2 C1_delta_forwards_unsent_suffix pingWorld "acp:s1" pingPending
           "Hello" "Hello world!" "Hello world!" "Hello world! Goodbye").
  - discriminate.
  - exact pingWorld_wf.
  - vm_compute. reflexivity.
  - reflexivity.
  - reflexivity.
  - reflexivity.
  - reflexivity.
  - reflexivity.
  - reflexivity.
  - reflexivity.
  - reflexivity.
Defined.

(** C1 as stated fails: these cumulative payloads have lengths 5, 12, 12, 20
    and each extends the one before, yet after the first chunk nothing is
    forwarded, because every new suffix begins with the text already sent
    and the duplicate guard drops it; the second event leaves the stored
    state at "haha " although its unsent suffix is "haha ha". Nor does the
    translator forward first and store afterwards: on the first event the
    prompt has no stored text, and the chunk "haha " goes out in a world in
    which "haha " is already stored. *)
Lemma C1_counterexample :
  String.length <$> ["haha "; "haha haha ha"; "haha haha ha"; "haha haha haha haha "]
  = [5; 12; 12; 20] /\
  forwardedLengths
    (chatDelta "acp:s1"
       <$> ["haha "; "haha haha ha"; "haha haha ha"; "haha haha haha haha "])
    pingWorld
  = [5; 0; 0; 0] /\
  JS.slice "haha haha ha" 5 None = "haha ha" /\
  handleChatEvent (chatDelta "acp:s1" "haha haha ha") hahaWorld
  = (tt, hahaWorld, []) /\
  (Pending.sentText <$> JSMap.get "s1" (pendingPrompts hahaWorld))
  = Some (Some "haha ") /\
  (Pending.sentText <$> JSMap.get "s1" (pendingPrompts pingWorld))
  = Some None /\
  (fun c => (effect c,
             Pending.sentText
               <$> JSMap.get "s1" (pendingPrompts (at_world c))))
    <$> trace_of (handleChatEvent (chatDelta "acp:s1" "haha ") pingWorld)
  = [(SessionUpdateChunk "s1" "haha ", Some (Some "haha "))].
Proof. vm_compute. repeat split; reflexivity. Qed.

(** ** Disconnect *)

Lemma clearedAll_stable ids : forall (ss : gmap string Session.t) sessionId,
  ss !! sessionId ≫= Session.activeRun = None ->
  clearedAll ids ss !! sessionId ≫= Session.activeRun = None.
Proof.
  induction ids as [|id ids IH]; intros ss sid Hnone; [done |].
  apply (IH (alter (Session.with_activeRun None) id ss)). destruct (decide (id = sid)) as [->|Hne].
  - rewrite lookup_alter_eq. by destruct (ss !! sid).
  - by rewrite lookup_alter_ne.
Qed.

Lemma clearedAll_elem ids : forall (ss : gmap string Session.t) sessionId,
  sessionId ∈ ids ->
  clearedAll ids ss !! sessionId ≫= Session.activeRun = None.
Proof.
  induction ids as [|id ids IH]; intros ss sid Hin; [by apply elem_of_nil in Hin |].
  apply elem_of_cons in Hin as [->|Hin].
  - apply (clearedAll_stable ids (alter (Session.with_activeRun None) id ss)).
    rewrite lookup_alter_eq. by destruct (ss !! id).
  - by apply (IH (alter (Session.with_activeRun None) id ss)).
Qed.

Lemma clearedAll_other ids : forall (ss : gmap string Session.t) sessionId,
  sessionId ∉ ids -> clearedAll ids ss !! sessionId = ss !! sessionId.
Proof.
  induction ids as [|id ids IH]; intros ss sid Hnin; [done |].
  apply not_elem_of_cons in Hnin as [Hne Hnin].
  simpl. rewrite IH by done. by rewrite lookup_alter_ne.
Qed.

Lemma forEach_cons {A} (x : A) rest body w :
  forEach (x :: rest) body w
  = let '(_, w1, t1) := body x w in
    let '(b, w2, t2) := forEach rest body w1 in
    (b, w2, t1 ++ t2).
Proof. reflexivity. Qed.

Lemma disconnect_loop reason entries : forall w,
  effects_of (forEach entries (rejectAndClear reason) w)
  = (fun e => Reject (Pending.reject e.2) (GatewayDisconnected reason)) <$> entries /\
  world_of (forEach entries (rejectAndClear reason) w)
  = with_sessions (clearedAll entries.*1 (sessions w)) w.
Proof.
  induction entries as [|[sid p] rest IH]; intros w.
  - split; [done | by destruct w].
  - rewrite forEach_cons.
    change (rejectAndClear reason (sid, p) w)
      with (tt, with_sessions
                  (alter (Session.with_activeRun None) sid (sessions w)) w,
            [{| at_world := w;
                effect := Reject (Pending.reject p) (GatewayDisconnected reason) |}]).
    cbv iota beta.
    specialize (IH (with_sessions
                      (alter (Session.with_activeRun None) sid (sessions w)) w)).
    destruct (forEach rest _ _) as [[[] w2] t2].
    unfold effects_of, world_of in *. cbn [fst snd] in *.
    destruct IH as [IHe IHw]. split.
    + rewrite !fmap_cons. cbn [app]. rewrite fmap_cons. by rewrite <- IHe.
    + by rewrite IHw.
Qed.

Lemma handleGatewayDisconnect_unfold reason w :
  handleGatewayDisconnect reason w
  = let r := forEach (pendingPrompts w) (rejectAndClear reason)
               (with_connected false w) in
    (tt, with_pendingPrompts [] (world_of r), trace_of r).
Proof.
  unfold handleGatewayDisconnect, bind, modify, get.
  cbn [pendingPrompts with_connected].
  change (forEach (pendingPrompts w) _ (with_connected false w))
    with (forEach (pendingPrompts w) (rejectAndClear reason) (with_connected false w)).
  destruct (forEach _ _ _) as [[[] w2] t2]. cbn [app world_of trace_of fst snd].
  by rewrite app_nil_r.
Qed.

(** C4. One [handleGatewayDisconnect reason] rejects the deferred of every
    pending prompt, in the order of the table and with the error
    "Gateway disconnected: <reason>"; with N pending prompts it makes exactly
    those N calls. Afterwards the active-run slot of each of these sessions
    is empty, the pending-request table is empty, and the translator is
    marked disconnected. *)
Theorem C4_disconnect_rejects_all_pending (reason : string) (w : World) :
  let r := handleGatewayDisconnect reason w in
  effects_of r
  = (fun e => Reject (Pending.reject e.2)
                {| message := "Gateway disconnected: " +:+ reason |})
    <$> pendingPrompts w /\
  length (effects_of r) = length (pendingPrompts w) /\
  (forall sessionId, sessionId ∈ JSMap.keys (pendingPrompts w) ->
     activeRunOf (world_of r) sessionId = None) /\
  pendingPrompts (world_of r) = [] /\
  connected (world_of r) = false.
Proof.
  cbn zeta. rewrite handleGatewayDisconnect_unfold. cbn zeta.
  destruct (disconnect_loop reason (pendingPrompts w) (with_connected false w))
    as [He Hw].
  unfold effects_of, world_of, trace_of in *. cbn [fst snd] in *.
  change (GatewayDisconnected reason)
    with {| message := "Gateway disconnected: " +:+ reason |} in He.
  split; [exact He |]. split; [by rewrite He, length_fmap |].
  rewrite Hw. split; [| done].
  intros sid Hin. unfold activeRunOf.
  cbn [sessions with_sessions with_pendingPrompts with_connected].
  by apply clearedAll_elem.
Qed.

Example disconnect_two_sessions :
  let w :=
    world_of
      (prompt {| pr_sessionId := "s2"; pr_prompt := [TextBlock "hi"] |} "run-2" 2 2
         (world_of (newSession "/tmp/y" "s2" "acp:s2" pingWorld))) in
  let r := handleGatewayDisconnect "1006: gone" w in
  effects_of r
  = [Reject 1 {| message := "Gateway disconnected: 1006: gone" |};
     Reject 2 {| message := "Gateway disconnected: 1006: gone" |}] /\
  activeRunOf w "s1" <> None /\ activeRunOf w "s2" <> None /\
  activeRunOf (world_of r) "s1" = None /\ activeRunOf (world_of r) "s2" = None /\
  pendingPrompts (world_of r) = [].
Proof. vm_compute. repeat split; done. Qed.

(** ** Prompts *)

Lemma alter_activeRun_twice (ss : gmap string Session.t) sessionId r1 r2 :
  alter (Session.with_activeRun r2) sessionId
    (alter (Session.with_activeRun r1) sessionId ss)
  = alter (Session.with_activeRun r2) sessionId ss.
Proof.
  apply map_eq. intros k. destruct (decide (sessionId = k)) as [->|Hne].
  - rewrite !lookup_alter_eq. by destruct (ss !! k).
  - by rewrite !lookup_alter_ne.
Qed.

Lemma prompt_unknown params runId abortController promise w :
  sessions w !! pr_sessionId params = None ->
  prompt params runId abortController promise w
  = (inl (SessionNotFound (pr_sessionId params)), w, []).
Proof.
  intros Hs. unfold prompt, bind at 1. unfold getSession, bind, get, ret.
  by rewrite Hs.
Qed.

Lemma prompt_known params runId abortController promise w session :
  sessions w !! pr_sessionId params = Some session ->
  let w' := promptedWorld (pr_sessionId params) runId abortController promise w in
  prompt params runId abortController promise w
  = (inr promise, w',
     match Session.activeRun session with
     | Some run =>
         [{| at_world := w; effect := Abort (Session.cancellationHandle run) |}]
     | None => []
     end
     ++ [{| at_world := w'; effect := chatSendOf session params runId |}]).
Proof.
  intros Hs. cbn zeta. unfold prompt, bind at 1. unfold getSession at 1.
  unfold bind at 1. unfold get at 1, ret at 1. rewrite Hs.
  unfold Session.abortController.
  destruct (Session.activeRun session) as [run|] eqn:Hrun; cbn [fmap option_fmap option_map].
  - unfold cancelActiveRun, getSession, setActiveRun, clearActiveRun, bind, get,
      ret, modify, call.
    rewrite Hs. cbn [mbind option_bind]. rewrite Hrun.
    cbn [sessions with_sessions pendingPrompts with_pendingPrompts app].
    unfold promptedWorld, chatSendOf, freshPending.
    rewrite alter_activeRun_twice. by destruct w.
  - unfold setActiveRun, bind, ret, modify, call. cbn [app].
    unfold promptedWorld, chatSendOf, freshPending. by destruct w.
Qed.

Lemma promptCall_world c w :
  world_of (promptCall c w)
  = match sessions w !! call_sessionId c with
    | Some _ =>
        promptedWorld (call_sessionId c) (call_runId c) (call_abortController c)
          (call_promise c) w
    | None => w
    end.
Proof.
  unfold promptCall, call_sessionId.
  destruct (sessions w !! pr_sessionId (call_params c)) as [session|] eqn:Hs.
  - by rewrite (prompt_known _ _ _ _ _ _ Hs).
  - by rewrite (prompt_unknown _ _ _ _ _ Hs).
Qed.

Lemma promptedWorld_activeRun_eq sessionId runId ac promise w :
  is_Some (sessions w !! sessionId) ->
  activeRunOf (promptedWorld sessionId runId ac promise w) sessionId
  = Some {| Session.runId := runId; Session.cancellationHandle := ac |}.
Proof.
  intros [session Hs]. unfold promptedWorld, activeRunOf.
  cbn [sessions with_sessions with_pendingPrompts].
  rewrite lookup_alter_eq, Hs. reflexivity.
Qed.

Lemma promptedWorld_activeRun_ne sessionId runId ac promise w other :
  sessionId <> other ->
  activeRunOf (promptedWorld sessionId runId ac promise w) other
  = activeRunOf w other.
Proof.
  intros Hne. unfold promptedWorld, activeRunOf.
  cbn [sessions with_sessions with_pendingPrompts].
  by rewrite lookup_alter_ne.
Qed.

Lemma promptedWorld_known sessionId runId ac promise w other :
  is_Some (sessions w !! other) ->
  is_Some (sessions (promptedWorld sessionId runId ac promise w) !! other).
Proof.
  intros [session Hs]. unfold promptedWorld.
  cbn [sessions with_sessions with_pendingPrompts].
  destruct (decide (sessionId = other)) as [->|Hne].
  - rewrite lookup_alter_eq, Hs. by eexists.
  - rewrite lookup_alter_ne by done. by eexists.
Qed.

Lemma promptCall_wf c w :
  pending_wf (pendingPrompts w) ->
  pending_wf (pendingPrompts (world_of (promptCall c w))).
Proof.
  intros Hwf. rewrite promptCall_world.
  destruct (sessions w !! call_sessionId c); [| done].
  by apply wf_set.
Qed.

Lemma promptCall_known c w other :
  is_Some (sessions w !! other) ->
  is_Some (sessions (world_of (promptCall c w)) !! other).
Proof.
  intros Hs. rewrite promptCall_world.
  destruct (sessions w !! call_sessionId c); [| done].
  by apply promptedWorld_known.
Qed.

Lemma promptCall_other c w other :
  call_sessionId c <> other ->
  activeRunOf (world_of (promptCall c w)) other = activeRunOf w other /\
  JSMap.get other (pendingPrompts (world_of (promptCall c w)))
  = JSMap.get other (pendingPrompts w).
Proof.
  intros Hne. rewrite promptCall_world.
  destruct (sessions w !! call_sessionId c); [| done]. split.
  - by apply promptedWorld_activeRun_ne.
  - unfold promptedWorld. cbn [pendingPrompts with_pendingPrompts].
    by apply get_set_ne.
Qed.

Lemma afterPrompts_wf calls : forall w,
  pending_wf (pendingPrompts w) ->
  pending_wf (pendingPrompts (afterPrompts calls w)).
Proof.
  induction calls as [|c calls IH]; intros w Hwf; [done |].
  apply (IH (world_of (promptCall c w))). by apply promptCall_wf.
Qed.

Lemma afterPrompts_known calls : forall w other,
  is_Some (sessions w !! other) ->
  is_Some (sessions (afterPrompts calls w) !! other).
Proof.
  induction calls as [|c calls IH]; intros w other Hs; [done |].
  apply (IH (world_of (promptCall c w))). by apply promptCall_known.
Qed.

Lemma afterPrompts_other calls : forall w other,
  Forall (fun c => call_sessionId c <> other) calls ->
  activeRunOf (afterPrompts calls w) other = activeRunOf w other /\
  JSMap.get other (pendingPrompts (afterPrompts calls w))
  = JSMap.get other (pendingPrompts w).
Proof.
  induction calls as [|c calls IH]; intros w other Hall; [done |].
  apply Forall_cons in Hall as [Hc Hall].
  destruct (IH (world_of (promptCall c w)) other Hall) as [IH1 IH2].
  destruct (promptCall_other c w other Hc) as [H1 H2].
  change (afterPrompts (c :: calls) w)
    with (afterPrompts calls (world_of (promptCall c w))).
  split; congruence.
Qed.

Lemma afterPrompts_app l1 l2 w :
  afterPrompts (l1 ++ l2) w = afterPrompts l2 (afterPrompts l1 w).
Proof. apply foldl_app. Qed.

Lemma filter_key_absent (m : list (string * Pending.t)) k :
  k ∉ m.*1 -> filter (fun e => e.1 = k) m = [].
Proof.
  induction m as [|[k' v'] m IH]; [done |].
  csimpl. intros [Hne Hnin]%not_elem_of_cons.
  rewrite filter_cons. simpl. rewrite decide_False by done. by apply IH.
Qed.

(** In a well-formed table the entry of a key is the only one under it. *)
Lemma wf_filter (m : list (string * Pending.t)) k v :
  pending_wf m -> JSMap.get k m = Some v ->
  filter (fun e => e.1 = k) m = [(k, v)].
Proof.
  intros [Hnd _]. unfold JSMap.keys in Hnd.
  induction m as [|[k' v'] m IH]; [done |].
  csimpl in *. apply NoDup_cons in Hnd as [Hnin Hnd].
  rewrite filter_cons. simpl.
  destruct (decide (k' = k)) as [->|Hne].
  - intros [= ->]. f_equal. by apply filter_key_absent.
  - intros Hget. by apply IH.
Qed.

(** C3. [prompt] on an unknown session fails with "Session <id> not found"
    and changes nothing. On a session that has an active run, the first
    call [prompt] makes is the cancellation of that run, made while the old
    run is still the registered one; the fresh run is registered by the
    time the request goes out. After any sequence of [prompt] calls, the
    slot of a prompted session holds exactly the run of its latest prompt,
    and the pending table holds exactly one entry for it, keyed by that
    run. *)
Theorem C3_prompt_supersedes_active_run :
  (forall (w : World) (params : PromptRequest) (runId : string)
          (abortController promise : nat),
      sessions w !! pr_sessionId params = None ->
      prompt params runId abortController promise w
      = (inl {| message := "Session " +:+ pr_sessionId params +:+ " not found" |},
         w, [])) /\
  (forall (w : World) (params : PromptRequest) (runId : string)
          (abortController promise : nat) (session : Session.t)
          (run : Session.ActiveRun),
      sessions w !! pr_sessionId params = Some session ->
      Session.activeRun session = Some run ->
      exists w' request,
        prompt params runId abortController promise w
        = (inr promise, w',
           [{| at_world := w; effect := Abort (Session.cancellationHandle run) |};
            {| at_world := w'; effect := request |}]) /\
        activeRunOf w (pr_sessionId params) = Some run /\
        activeRunOf w' (pr_sessionId params)
        = Some {| Session.runId := runId;
                  Session.cancellationHandle := abortController |}) /\
  (forall (w : World) (before after : list PromptCall) (c : PromptCall),
      pending_wf (pendingPrompts w) ->
      is_Some (sessions w !! call_sessionId c) ->
      Forall (fun c' => call_sessionId c' <> call_sessionId c) after ->
      let w' := afterPrompts (before ++ c :: after) w in
      activeRunOf w' (call_sessionId c)
      = Some {| Session.runId := call_runId c;
                Session.cancellationHandle := call_abortController c |} /\
      filter (fun e => e.1 = call_sessionId c) (pendingPrompts w')
      = [(call_sessionId c,
          freshPending (call_sessionId c) (call_runId c) (call_promise c))]).
Proof.
  split; [| split].
  - intros w params runId ac promise Hs. by apply prompt_unknown.
  - intros w params runId ac promise session run Hs Hrun.
    eexists _, _. rewrite (prompt_known _ _ _ _ _ _ Hs), Hrun.
    split; [reflexivity |]. split.
    + unfold activeRunOf. by rewrite Hs.
    + apply promptedWorld_activeRun_eq. by eexists.
  - intros w before after c Hwf Hs Hafter. cbn zeta.
    rewrite afterPrompts_app.
    change (afterPrompts (c :: after) (afterPrompts before w))
      with (afterPrompts after (world_of (promptCall c (afterPrompts before w)))).
    pose proof (afterPrompts_wf before w Hwf) as Hwf1.
    pose proof (afterPrompts_known before w _ Hs) as Hs1.
    set (w1 := afterPrompts before w) in *.
    destruct (afterPrompts_other after (world_of (promptCall c w1)) _ Hafter)
      as [Hrun Hget].
    pose proof (afterPrompts_wf after _ (promptCall_wf c w1 Hwf1)) as Hwf2.
    split.
    + rewrite Hrun, promptCall_world. destruct Hs1 as [session Hs1].
      rewrite Hs1. apply promptedWorld_activeRun_eq. by eexists.
    + apply wf_filter; [done |].
      rewrite Hget, promptCall_world. destruct Hs1 as [session Hs1].
      rewrite Hs1. unfold promptedWorld. cbn [pendingPrompts with_pendingPrompts].
      apply get_set_eq.
Qed.

Lemma C3_witness :
  activeRunOf (afterPrompts [promptS1 "run-2" 2; promptS1 "run-3" 3] pingWorld) "s1"
  = Some {| Session.runId := "run-3"; Session.cancellationHandle := 3 |}.
Proof.
  apply (proj2 (proj2 C3_prompt_supersedes_active_run) pingWorld
           [promptS1 "run-2" 2] [] (promptS1 "run-3" 3)).
  - exact pingWorld_wf.
  - vm_compute. by eexists.
  - constructor.
Defined.

Example prompt_twice_trace :
  effects_of (promptCall (promptS1 "run-2" 2) pingWorld)
  = [Abort 1;
     GatewayRequest "chat.send"
       (ChatSend "acp:s1"
          ("[Working directory: /tmp/x]" +:+ JS.LF +:+ JS.LF +:+ "again")
          None "run-2") true].
Proof. vm_compute. reflexivity. Qed.

(** C6. When the [chat.send] request of a prompt fails, the callback rejects
    the promise that [prompt] returned, with the error of the request; the
    rejection is the one call it makes, and it makes it in a world from which
    the session's entry in the pending table is already removed and in which
    the session's active-run slot is already empty. This holds in whatever
    world [later] the callback runs. *)
Theorem C6_dispatch_failure_releases (w later : World) (params : PromptRequest)
    (runId : string) (abortController promise : nat) (session : Session.t)
    (err : Error) :
  sessions w !! pr_sessionId params = Some session ->
  value_of (prompt params runId abortController promise w) = inr promise /\
  exists w',
    promptDispatchFailed (pr_sessionId params) promise err later
    = (tt, w', [{| at_world := w'; effect := Reject promise err |}]) /\
    JSMap.get (pr_sessionId params) (pendingPrompts w') = None /\
    activeRunOf w' (pr_sessionId params) = None.
Proof.
  intros Hs. split.
  - by rewrite (prompt_known _ _ _ _ _ _ Hs).
  - eexists. split; [reflexivity |]. split.
    + apply get_delete_eq.
    + apply activeRunOf_cleared.
Qed.

Lemma C6_witness :
  let w1 :=
    world_of (prompt {| pr_sessionId := "s1"; pr_prompt := [TextBlock "ping"] |}
                "run-1" 1 1 sessionWorld) in
  let r := promptDispatchFailed "s1" 1 {| message := "gateway not connected" |} w1 in
  effects_of r = [Reject 1 {| message := "gateway not connected" |}] /\
  pendingPrompts (world_of r) = [] /\
  activeRunOf (world_of r) "s1" = None.
Proof.
  cbn zeta.
  destruct (C6_dispatch_failure_releases sessionWorld pingWorld
              {| pr_sessionId := "s1"; pr_prompt := [TextBlock "ping"] |}
              "run-1" 1 1
              {| Session.sessionId := "s1"; Session.sessionKey := "acp:s1";
                 Session.cwd := "/tmp/x"; Session.activeRun := None |}
              {| message := "gateway not connected" |})
    as (_ & w' & Hrun & _ & Hslot).
  - vm_compute. reflexivity.
  - change (world_of (prompt _ _ _ _ _)) with pingWorld.
    cbn [pr_sessionId] in *. rewrite Hrun. repeat split; [| exact Hslot].
    by inversion Hrun.
Defined.

(** C8. [setSessionMode] on an unknown session fails with
    "Session <id> not found"; on a known session it returns the empty
    response whether the [sessions.patch] request succeeds or fails, and
    leaves the world as it was. *)
Theorem C8_setSessionMode_ignores_patch_failure (w : World)
    (params : SetSessionModeRequest) (patchOutcome : RpcOutcome) :
  match sessions w !! sm_sessionId params with
  | None =>
      setSessionMode params patchOutcome w
      = (inl {| message := "Session " +:+ sm_sessionId params +:+ " not found" |},
         w, [])
  | Some session =>
      value_of (setSessionMode params patchOutcome w) = inr tt /\
      world_of (setSessionMode params patchOutcome w) = w /\
      effects_of (setSessionMode params patchOutcome w)
      = if JS.truthy (sm_modeId params)
        then [GatewayRequest "sessions.patch"
                (SessionsPatch (Session.sessionKey session)
                   (default EmptyString (sm_modeId params))) false]
        else []
  end.
Proof.
  unfold setSessionMode, getSession, bind, get, ret, call, tryAwait.
  destruct (sessions w !! sm_sessionId params) as [session|]; [| reflexivity].
  destruct (JS.truthy (sm_modeId params)), patchOutcome; repeat split.
Qed.

Example setSessionMode_patch_fails :
  value_of (setSessionMode {| sm_sessionId := "s1"; sm_modeId := Some "high" |}
              (RpcFailed {| message := "gateway not connected" |}) pingWorld)
  = inr tt.
Proof. vm_compute. reflexivity. Qed.

(** ** The invariant of the pending table *)

Lemma setSessionMode_world params outcome w :
  world_of (setSessionMode params outcome w) = w.
Proof.
  unfold setSessionMode, getSession, bind, get, ret, call, tryAwait.
  destruct (sessions w !! sm_sessionId params) as [session|]; [| reflexivity].
  by destruct (JS.truthy (sm_modeId params)), outcome.
Qed.

(** Every operation keeps the table well formed, so the well-formedness
    assumed by the statements above holds in every reachable world. *)
Lemma reachable_wf w : reachable w -> pending_wf (pendingPrompts w).
Proof.
  induction 1 as [| w _ IH | w cwd sid key _ IH | w params runId ac d _ IH
                 | w sid d err _ IH | w evt _ IH | w reason _ IH
                 | w params outcome _ IH | w sid _ IH | w sid outcome _ IH].
  - split; [apply NoDup_nil_2 | constructor].
  - exact IH.
  - exact IH.
  - apply (promptCall_wf
             {| call_params := params; call_runId := runId;
                call_abortController := ac; call_promise := d |} w IH).
  - by apply wf_delete.
  - by apply handleChatEvent_wf.
  - rewrite handleGatewayDisconnect_unfold. split; [apply NoDup_nil_2 | constructor].
  - by rewrite setSessionMode_world.
  - unfold cancelBegin, getSession, cancelActiveRun, getSession, clearActiveRun,
      bind, get, ret, modify, call.
    destruct (sessions w !! sid) as [session|]; [| exact IH].
    by destruct (_ ≫= Session.activeRun).
  - unfold cancelResume, tryAwait, bind, get, ret, modify, call.
    destruct outcome; cbn [world_of fst snd];
      (destruct (JSMap.get sid (pendingPrompts w)); [by apply wf_delete | exact IH]).
Qed.

(** ** Reconnection *)
Local Open Scope Z_scope.

Lemma scheduleReconnect_schedules st :
  Server.reconnectTimer st = None ->
  Server.reconnectAttempts st < Server.MAX_RECONNECT_ATTEMPTS ->
  Server.scheduleReconnect st
  = {| Server.reconnectAttempts := Server.reconnectAttempts st + 1;
       Server.reconnectTimer :=
         Some (Server.RECONNECT_DELAY_MS * (Server.reconnectAttempts st + 1)) |}.
Proof.
  intros Htimer Hlt. unfold Server.scheduleReconnect. rewrite Htimer.
  destruct (Z.leb_spec Server.MAX_RECONNECT_ATTEMPTS (Server.reconnectAttempts st));
    [lia | reflexivity].
Qed.

Lemma scheduleReconnect_gives_up st :
  Server.MAX_RECONNECT_ATTEMPTS <= Server.reconnectAttempts st ->
  Server.scheduleReconnect st = st.
Proof.
  intros Hge. unfold Server.scheduleReconnect.
  destruct (Server.reconnectTimer st); [done |].
  destruct (Z.leb_spec Server.MAX_RECONNECT_ATTEMPTS (Server.reconnectAttempts st));
    [done | lia].
Qed.

Lemma serverReachable_bounds st :
  serverReachable st ->
  0 <= Server.reconnectAttempts st <= Server.MAX_RECONNECT_ATTEMPTS /\
  forall delay, Server.reconnectTimer st = Some delay ->
    Server.RECONNECT_DELAY_MS <= delay
    <= Server.RECONNECT_DELAY_MS * Server.MAX_RECONNECT_ATTEMPTS.
Proof.
  unfold Server.RECONNECT_DELAY_MS, Server.MAX_RECONNECT_ATTEMPTS.
  induction 1 as [|st _ [IHa IHt]|code st _ [IHa IHt]|st _ [IHa IHt]]; simpl.
  - split; [lia | done].
  - split; [lia | exact IHt].
  - unfold Server.onClose, Server.scheduleReconnect,
      Server.RECONNECT_DELAY_MS, Server.MAX_RECONNECT_ATTEMPTS.
    destruct (negb (code =? 1000) && negb (code =? 1001));
      [| split; [lia | exact IHt]].
    destruct (Server.reconnectTimer st) eqn:Ht;
      [split; [lia | intros delay Hd; apply IHt; congruence] |].
    destruct (Z.leb_spec 5 (Server.reconnectAttempts st));
      [split; [lia | intros delay Hd; apply IHt; congruence] |].
    simpl. split; [lia |]. intros delay [= <-]. lia.
  - split; [lia | done].
Qed.

Lemma computeBackoff_monotone (policy : Reconnect.ReconnectPolicy) (n m : Z) :
  n <= m -> Reconnect.computeBackoff policy n <= Reconnect.computeBackoff policy m.
Proof.
  intros Hle. unfold Reconnect.computeBackoff.
  apply Z.add_le_mono_r, Z.mul_le_mono_nonneg_l; [lia |].
  apply Z.pow_le_mono_r; lia.
Qed.

(** C7. In server.ts the delay of a scheduled reconnect is
    [RECONNECT_DELAY_MS] times the attempt number, so a later attempt never
    waits less than an earlier one, and once the counter has reached
    [MAX_RECONNECT_ATTEMPTS], [scheduleReconnect] changes nothing: no timer
    is set. In the monitor loop of auto-reply.ts, whatever [computeBackoff]
    is, an iteration whose counter has reached a positive [maxAttempts]
    leaves the loop instead of retrying. [computeBackoff] itself, as the
    reconnection policy describes it, is non-decreasing in the attempt
    number, and the delay the monitor loop sleeps is [computeBackoff] of its
    attempt counter: of two iterations that retry, the one with the greater
    counter never sleeps less. *)
Theorem C7_reconnect_backoff_and_cutoff :
  (forall st1 st2 : Server.ConnectionState,
      Server.reconnectTimer st1 = None ->
      Server.reconnectTimer st2 = None ->
      Server.reconnectAttempts st1 <= Server.reconnectAttempts st2 ->
      Server.reconnectAttempts st2 < Server.MAX_RECONNECT_ATTEMPTS ->
      exists d1 d2,
        Server.reconnectTimer (Server.scheduleReconnect st1) = Some d1 /\
        Server.reconnectTimer (Server.scheduleReconnect st2) = Some d2 /\
        d1 = Server.RECONNECT_DELAY_MS
             * Server.reconnectAttempts (Server.scheduleReconnect st1) /\
        d2 = Server.RECONNECT_DELAY_MS
             * Server.reconnectAttempts (Server.scheduleReconnect st2) /\
        d1 <= d2) /\
  (forall (st : Server.ConnectionState) (code : Z),
      Server.MAX_RECONNECT_ATTEMPTS <= Server.reconnectAttempts st ->
      0 < Server.MAX_RECONNECT_ATTEMPTS /\
      Server.scheduleReconnect st = st /\
      Server.onClose code st = st) /\
  (forall (ReconnectPolicy : Type) (maxAttempts : ReconnectPolicy -> Z)
          (computeBackoff : ReconnectPolicy -> Z -> Z)
          (reconnectPolicy : ReconnectPolicy) (heartbeatSeconds uptimeMs : Z)
          (stopRequested sigintStop : bool) (reason : WebMonitor.CloseReason)
          (reconnectAttempts : Z),
      let r :=
        WebMonitor.afterClose ReconnectPolicy maxAttempts computeBackoff
          reconnectPolicy heartbeatSeconds uptimeMs stopRequested sigintStop
          reason reconnectAttempts in
      0 < maxAttempts reconnectPolicy ->
      maxAttempts reconnectPolicy <= r.1 ->
      r.2 = WebMonitor.Break) /\
  (forall (policy : Reconnect.ReconnectPolicy) (n m : Z),
      n <= m ->
      Reconnect.computeBackoff policy n <= Reconnect.computeBackoff policy m) /\
  (forall (policy : Reconnect.ReconnectPolicy) (heartbeatSeconds : Z)
          (uptime1 uptime2 : Z) (stop1 stop2 sigint1 sigint2 : bool)
          (reason1 reason2 : WebMonitor.CloseReason)
          (attempts1 attempts2 n1 n2 delay1 delay2 : Z),
      WebMonitor.afterClose Reconnect.ReconnectPolicy Reconnect.maxAttempts
        Reconnect.computeBackoff policy heartbeatSeconds uptime1 stop1 sigint1
        reason1 attempts1
      = (n1, WebMonitor.Retry delay1) ->
      WebMonitor.afterClose Reconnect.ReconnectPolicy Reconnect.maxAttempts
        Reconnect.computeBackoff policy heartbeatSeconds uptime2 stop2 sigint2
        reason2 attempts2
      = (n2, WebMonitor.Retry delay2) ->
      n1 <= n2 ->
      delay1 = Reconnect.computeBackoff policy n1 /\
      delay2 = Reconnect.computeBackoff policy n2 /\
      delay1 <= delay2).
Proof.
  split; [| split; [| split; [| split]]].
  - intros st1 st2 T1 T2 Hle Hlt.
    rewrite (scheduleReconnect_schedules st1 T1) by lia.
    rewrite (scheduleReconnect_schedules st2 T2) by lia.
    eexists _, _. repeat split. simpl. unfold Server.RECONNECT_DELAY_MS. lia.
  - intros st code Hge. split; [done |].
    split; [by apply scheduleReconnect_gives_up |].
    unfold Server.onClose. rewrite scheduleReconnect_gives_up by done.
    by destruct (_ && _).
  - intros Policy maxAttempts computeBackoff policy hb up stop sigint reason n.
    cbn zeta. unfold WebMonitor.afterClose.
    destruct (stop || sigint || _); [done |].
    destruct (match reason with WebMonitor.Closed _ b => b | _ => false end);
      [done |].
    set (n' := (if hb * 1000 <? up then 0 else n) + 1).
    intros Hpos. destruct (Z.ltb_spec 0 (maxAttempts policy)); [| lia].
    destruct (Z.leb_spec (maxAttempts policy) n'); simpl; [done | lia].
  - apply computeBackoff_monotone.
  - intros policy hb up1 up2 stop1 stop2 sig1 sig2 reason1 reason2 a1 a2
      n1 n2 d1 d2 H1 H2 Hle.
    assert (forall up stop sig reason a n d,
              WebMonitor.afterClose Reconnect.ReconnectPolicy
                Reconnect.maxAttempts Reconnect.computeBackoff policy hb up
                stop sig reason a = (n, WebMonitor.Retry d) ->
              d = Reconnect.computeBackoff policy n) as Hdelay.
    { intros up stop sig reason a n d. unfold WebMonitor.afterClose.
      destruct (stop || sig || _); [discriminate |].
      destruct (match reason with WebMonitor.Closed _ b => b | _ => false end);
        [discriminate |].
      destruct (_ && _); [discriminate |]. by intros [= <- <-]. }
    apply Hdelay in H1 as ->. apply Hdelay in H2 as ->.
    split; [done |]. split; [done |]. by apply computeBackoff_monotone.
Qed.

Lemma C7_witness :
  (exists d1 d2,
     Server.reconnectTimer (Server.scheduleReconnect Server.initial) = Some d1 /\
     Server.reconnectTimer
       (Server.scheduleReconnect
          {| Server.reconnectAttempts := 4; Server.reconnectTimer := None |})
     = Some d2 /\
     d1 = 2000 /\ d2 = 10000) /\
  (1250 = Reconnect.computeBackoff doubling 1 /\
   4250 = Reconnect.computeBackoff doubling 3 /\
   1250 <= 4250).
Proof.
  split.
  - destruct (proj1 C7_reconnect_backoff_and_cutoff Server.initial
                {| Server.reconnectAttempts := 4; Server.reconnectTimer := None |})
      as (d1 & d2 & H1 & H2 & E1 & E2 & _).
    + reflexivity.
    + reflexivity.
    + simpl. lia.
    + reflexivity.
    + exists d1, d2. repeat split; [exact H1 | exact H2 | |].
      * rewrite E1. reflexivity.
      * rewrite E2. reflexivity.
  - apply (proj2 (proj2 (proj2 (proj2 C7_reconnect_backoff_and_cutoff)))
             doubling 60 10 10 false false false false
             (WebMonitor.Closed (Some 428) false)
             (WebMonitor.Closed (Some 428) false) 0 2 1 3 1250 4250).
    + reflexivity.
    + reflexivity.
    + lia.
Defined.

Example computeBackoff_doubling :
  Reconnect.computeBackoff doubling <$> [0; 1; 2; 3; 4]
  = [1250; 1250; 2250; 4250; 8250].
Proof. reflexivity. Qed.

Example server_gives_up_after_five :
  let close := Server.onClose 1006 in
  let retry st := Server.onTimer (close st) in
  Server.reconnectTimer
    (close (retry (retry (retry (retry (retry Server.initial))))))
  = None /\
  Server.reconnectTimer (close (retry (retry (retry (retry Server.initial)))))
  = Some 10000.
Proof. vm_compute. done. Qed.

Example web_loop_cutoff :
  WebMonitor.afterClose unit (fun _ => 3) (fun _ n => 1000 * n) tt 60 10
    false false (WebMonitor.Closed (Some 428) false) 2
  = (3, WebMonitor.Break) /\
  WebMonitor.afterClose unit (fun _ => 3) (fun _ n => 1000 * n) tt 60 10
    false false (WebMonitor.Closed (Some 428) false) 1
  = (2, WebMonitor.Retry 2000).
Proof. vm_compute. done. Qed.

Local Close Scope Z_scope.

(** * Further properties *)

(** ** Chat events after a run has ended *)

Lemma handleChatEvent_not_found key state message w :
  findPending (sessions w) key (pendingPrompts w) = None ->
  handleChatEvent (chatEvent key state message) w = (tt, w, []).
Proof.
  intros Hnone. unfold handleChatEvent, chatEvent.
  cbn [Chat.payload Chat.sessionKey Chat.state Chat.message].
  destruct (JS.truthy (Some key)); [| done].
  cbn [negb default from_option id].
  unfold findPendingBySessionKey, bind, get, ret. by rewrite Hnone.
Qed.

Lemma handleChatEvent_terminal key st message w p :
  key <> EmptyString ->
  findPending (sessions w) key (pendingPrompts w) = Some p ->
  st ∈ terminalStates ->
  handleChatEvent (chatEvent key (Some st) message) w
  = let w' :=
      with_sessions
        (alter (Session.with_activeRun None) (Pending.sessionId p) (sessions w))
        (with_pendingPrompts
           (JSMap.delete (Pending.sessionId p) (pendingPrompts w)) w) in
    (tt, w',
     [{| at_world := w';
         effect := Resolve (Pending.resolve p)
                     {| stopReason := stopReasonOf (Some st) |} |}]).
Proof.
  intros Hkey Hfind Hst.
  rewrite (handleChatEvent_found _ _ _ _ _ Hkey Hfind).
  unfold terminalStates in Hst.
  assert (bool_decide (Some st = Some "delta") = false) as ->.
  { apply bool_decide_eq_false_2. intros [= ->].
    repeat (apply elem_of_cons in Hst as [Hst|Hst]; [discriminate |]).
    by apply elem_of_nil in Hst. }
  assert (isTerminal (Some st) = true) as ->; [| reflexivity].
  unfold isTerminal.
  repeat (apply elem_of_cons in Hst as [->|Hst]; [reflexivity |]).
  by apply elem_of_nil in Hst.
Qed.

(** X1. Once a terminal chat event has resolved the prompt of a session,
    every later chat event carrying that session's key, delta or terminal,
    is dropped: no chunk is forwarded and nothing is resolved a second time.
    (The key is assumed to belong to that one pending session.) *)
Theorem X1_no_event_after_terminal (w : World) (key st : string)
    (message : option Chat.Message) (p : Pending.t)
    (state' : option string) (message' : option Chat.Message) :
  key <> EmptyString ->
  findPending (sessions w) key (pendingPrompts w) = Some p ->
  st ∈ terminalStates ->
  soleKey w key (Pending.sessionId p) ->
  let w' := world_of (handleChatEvent (chatEvent key (Some st) message) w) in
  handleChatEvent (chatEvent key state' message') w' = (tt, w', []).
Proof.
  intros Hkey Hfind Hst Hsole. cbn zeta.
  rewrite (handleChatEvent_terminal _ _ _ _ _ Hkey Hfind Hst). cbn zeta.
  apply handleChatEvent_not_found.
  cbn [world_of fst snd sessions pendingPrompts with_sessions with_pendingPrompts].
  apply findPending_None. intros sid q [Hne Hin]%elem_of_delete Hk.
  rewrite lookup_alter_ne in Hk by done.
  by apply Hne, (Hsole sid q).
Qed.

Lemma X1_witness :
  handleChatEvent (chatDelta "acp:s1" "late")
    (world_of (handleChatEvent (chatEvent "acp:s1" (Some "final") None) pingWorld))
  = (tt, world_of (handleChatEvent (chatEvent "acp:s1" (Some "final") None) pingWorld),
     []).
Proof.
  apply (X1_no_event_after_terminal pingWorld "acp:s1" "final" None pingPending).
  - discriminate.
  - vm_compute. reflexivity.
  - unfold terminalStates. set_solver.
  - intros sid q Hin _. apply list_elem_of_singleton in Hin. by inversion Hin.
Defined.

(** ** Cancellation *)

Lemma pendingPrompts_with_sessions ss w :
  pendingPrompts (with_sessions ss w) = pendingPrompts w.
Proof. reflexivity. Qed.

Lemma cancel_unknown sessionId outcome w :
  sessions w !! sessionId = None -> cancel sessionId outcome w = (tt, w, []).
Proof.
  intros Hs. unfold cancel, cancelBegin, getSession, bind, get, ret.
  by rewrite Hs.
Qed.

(** [cancel] on a known session, step by step: [w1] is the world in which
    the [chat.abort] request goes out, [w2] the one [cancel] leaves. *)
Lemma cancel_known sessionId outcome w session :
  sessions w !! sessionId = Some session ->
  let w1 :=
    match Session.activeRun session with
    | Some _ =>
        with_sessions
          (alter (Session.with_activeRun None) sessionId (sessions w)) w
    | None => w
    end in
  let w2 :=
    match JSMap.get sessionId (pendingPrompts w) with
    | Some _ =>
        with_pendingPrompts (JSMap.delete sessionId (pendingPrompts w)) w1
    | None => w1
    end in
  cancel sessionId outcome w
  = (tt, w2,
     match Session.activeRun session with
     | Some run =>
         [{| at_world := w; effect := Abort (Session.cancellationHandle run) |}]
     | None => []
     end
     ++ [{| at_world := w1;
            effect := GatewayRequest "chat.abort"
                        (ChatAbort (Session.sessionKey session)) false |}]
     ++ match JSMap.get sessionId (pendingPrompts w) with
        | Some pending =>
            [{| at_world := w2;
                effect := Resolve (Pending.resolve pending)
                            {| stopReason := cancelled |} |}]
        | None => []
        end).
Proof.
  intros Hs. cbn zeta.
  unfold cancel, cancelBegin, cancelResume, cancelActiveRun, clearActiveRun,
    getSession, tryAwait, bind, get, ret, modify, call.
  cbv beta. rewrite !Hs. cbn [mbind option_bind].
  destruct (Session.activeRun session) as [run|]; destruct outcome;
    cbv beta iota zeta; rewrite ?pendingPrompts_with_sessions;
    destruct (JSMap.get sessionId (pendingPrompts w)) as [pending|];
    reflexivity.
Qed.

(** X2. A prompt followed by [cancel] on the same session: whether the
    [chat.abort] request succeeds or fails, [cancel] aborts the run's
    controller, sends [chat.abort] for the session's Gateway key and resolves
    the promise [prompt] returned with stop reason cancelled, in this order;
    afterwards the session has neither a pending entry nor an active run. *)
Theorem X2_cancel_completes_the_prompt (w : World) (params : PromptRequest)
    (runId : string) (abortController promise : nat) (session : Session.t)
    (abortOutcome : RpcOutcome) :
  sessions w !! pr_sessionId params = Some session ->
  let w1 := world_of (prompt params runId abortController promise w) in
  let r := cancel (pr_sessionId params) abortOutcome w1 in
  effects_of r
  = [Abort abortController;
     GatewayRequest "chat.abort" (ChatAbort (Session.sessionKey session)) false;
     Resolve promise {| stopReason := cancelled |}] /\
  JSMap.get (pr_sessionId params) (pendingPrompts (world_of r)) = None /\
  activeRunOf (world_of r) (pr_sessionId params) = None.
Proof.
  intros Hs. cbn zeta. rewrite (prompt_known _ _ _ _ _ _ Hs). cbn zeta.
  cbn [world_of fst snd].
  set (sid := pr_sessionId params) in *.
  set (w1 := promptedWorld sid runId abortController promise w).
  assert (sessions w1 !! sid
          = Some (Session.with_activeRun
                    (Some {| Session.runId := runId;
                             Session.cancellationHandle := abortController |})
                    session)) as Hs1.
  { unfold w1, promptedWorld. cbn [sessions with_sessions with_pendingPrompts].
    by rewrite lookup_alter_eq, Hs. }
  assert (JSMap.get sid (pendingPrompts w1)
          = Some (freshPending sid runId promise)) as Hp1.
  { unfold w1, promptedWorld. cbn [pendingPrompts with_pendingPrompts].
    apply get_set_eq. }
  rewrite (cancel_known _ _ _ _ Hs1). cbn zeta.
  rewrite Hp1. cbn [Session.activeRun Session.with_activeRun].
  split; [reflexivity |]. split.
  - cbn [world_of fst snd pendingPrompts with_pendingPrompts]. apply get_delete_eq.
  - cbn [world_of fst snd]. unfold activeRunOf.
    cbn [sessions with_sessions with_pendingPrompts].
    rewrite lookup_alter_eq. by destruct (sessions w1 !! sid).
Qed.

Lemma X2_witness :
  effects_of (cancel "s1" (RpcFailed {| message := "gateway not connected" |}) pingWorld)
  = [Abort 1;
     GatewayRequest "chat.abort" (ChatAbort "acp:s1") false;
     Resolve 1 {| stopReason := cancelled |}].
Proof.
  apply (X2_cancel_completes_the_prompt sessionWorld
           {| pr_sessionId := "s1"; pr_prompt := [TextBlock "ping"] |} "run-1" 1 1
           {| Session.sessionId := "s1"; Session.sessionKey := "acp:s1";
              Session.cwd := "/tmp/x"; Session.activeRun := None |}).
  vm_compute. reflexivity.
Defined.

(** X3. [cancel] right after a [cancel] of the same session changes
    nothing: on an unknown session it makes no call at all, on a known one
    its only call is the [chat.abort] request; nothing is aborted or
    resolved a second time, and the world stays as the first [cancel] left
    it. *)
Theorem X3_second_cancel_changes_nothing (w : World) (sessionId : string)
    (first second : RpcOutcome) :
  let w' := world_of (cancel sessionId first w) in
  world_of (cancel sessionId second w') = w' /\
  effects_of (cancel sessionId second w')
  = match sessions w !! sessionId with
    | Some session =>
        [GatewayRequest "chat.abort" (ChatAbort (Session.sessionKey session)) false]
    | None => []
    end.
Proof.
  cbn zeta. destruct (sessions w !! sessionId) as [session|] eqn:Hs.
  - rewrite (cancel_known _ first _ _ Hs). cbn zeta. cbn [world_of fst snd].
    set (w1 := match Session.activeRun session with
               | Some _ => _ | None => w end).
    set (w2 := match JSMap.get sessionId (pendingPrompts w) with
               | Some _ => _ | None => w1 end).
    assert (exists session', sessions w2 !! sessionId = Some session' /\
              Session.activeRun session' = None /\
              Session.sessionKey session' = Session.sessionKey session)
      as (session' & Hs2 & Hrun2 & Hkey2).
    { assert (exists session', sessions w1 !! sessionId = Some session' /\
                Session.activeRun session' = None /\
                Session.sessionKey session' = Session.sessionKey session)
        as (session' & H1 & H2 & H3).
      { unfold w1. destruct (Session.activeRun session) eqn:Hrun.
        - eexists. cbn [sessions with_sessions].
          rewrite lookup_alter_eq, Hs. split; [reflexivity | done].
        - by exists session. }
      exists session'. unfold w2.
      by destruct (JSMap.get sessionId (pendingPrompts w)). }
    assert (JSMap.get sessionId (pendingPrompts w2) = None) as Hp2.
    { unfold w2. destruct (JSMap.get sessionId (pendingPrompts w)) eqn:Hp.
      - cbn [pendingPrompts with_pendingPrompts]. apply get_delete_eq.
      - unfold w1. by destruct (Session.activeRun session). }
    rewrite (cancel_known _ second _ _ Hs2). cbn zeta.
    rewrite Hrun2, Hp2, Hkey2. by split.
  - rewrite (cancel_unknown _ first _ Hs). cbn [world_of fst snd].
    by rewrite (cancel_unknown _ second _ Hs).
Qed.

(** X4. [cancel] of one session leaves every other session alone: its
    active-run slot and its entry in the pending table are as before. *)
Theorem X4_cancel_leaves_other_sessions (w : World) (sessionId other : string)
    (abortOutcome : RpcOutcome) :
  sessionId <> other ->
  let w' := world_of (cancel sessionId abortOutcome w) in
  activeRunOf w' other = activeRunOf w other /\
  JSMap.get other (pendingPrompts w') = JSMap.get other (pendingPrompts w) /\
  sessions w' !! other = sessions w !! other.
Proof.
  intros Hne. cbn zeta. destruct (sessions w !! sessionId) as [session|] eqn:Hs.
  - rewrite (cancel_known _ _ _ _ Hs). cbn zeta. cbn [world_of fst snd].
    unfold activeRunOf.
    destruct (Session.activeRun session), (JSMap.get sessionId (pendingPrompts w));
      cbn [sessions pendingPrompts with_sessions with_pendingPrompts];
      rewrite ?lookup_alter_ne, ?get_delete_ne by done; done.
  - by rewrite (cancel_unknown _ _ _ Hs).
Qed.

Lemma X4_witness :
  let w :=
    world_of
      (prompt {| pr_sessionId := "s2"; pr_prompt := [TextBlock "hi"] |} "run-2" 2 2
         (world_of (newSession "/tmp/y" "s2" "acp:s2" pingWorld))) in
  activeRunOf (world_of (cancel "s1" RpcOk w)) "s2"
  = Some {| Session.runId := "run-2"; Session.cancellationHandle := 2 |}.
Proof.
  cbn zeta.
  rewrite (proj1 (X4_cancel_leaves_other_sessions _ "s1" "s2" RpcOk
                    ltac:(discriminate))).
  vm_compute. reflexivity.
Defined.

Lemma cancelBegin_known sessionId w session :
  sessions w !! sessionId = Some session ->
  let w1 :=
    match Session.activeRun session with
    | Some _ =>
        with_sessions
          (alter (Session.with_activeRun None) sessionId (sessions w)) w
    | None => w
    end in
  cancelBegin sessionId w
  = (true, w1,
     match Session.activeRun session with
     | Some run =>
         [{| at_world := w; effect := Abort (Session.cancellationHandle run) |}]
     | None => []
     end
     ++ [{| at_world := w1;
            effect := GatewayRequest "chat.abort"
                        (ChatAbort (Session.sessionKey session)) false |}]).
Proof.
  intros Hs. cbn zeta.
  unfold cancelBegin, cancelActiveRun, clearActiveRun, getSession, bind, get,
    ret, modify, call.
  cbv beta. rewrite !Hs. cbn [mbind option_bind].
  by destruct (Session.activeRun session).
Qed.

Lemma cancelResume_run sessionId outcome w :
  cancelResume sessionId outcome w
  = match JSMap.get sessionId (pendingPrompts w) with
    | Some pending =>
        let w' :=
          with_pendingPrompts (JSMap.delete sessionId (pendingPrompts w)) w in
        (tt, w',
         [{| at_world := w';
             effect := Resolve (Pending.resolve pending)
                         {| stopReason := cancelled |} |}])
    | None => (tt, w, [])
    end.
Proof.
  unfold cancelResume, tryAwait, bind, get, ret, modify, call.
  destruct outcome; cbv beta iota zeta;
    by destruct (JSMap.get sessionId (pendingPrompts w)).
Qed.

(** X5. A prompt submitted for a session while a [cancel] of that session
    is still awaiting its [chat.abort] request is the one the resumed
    [cancel] completes: it resolves the new prompt's promise with stop
    reason cancelled and removes its pending entry, while the new run stays
    registered as the session's active run. *)
Theorem X5_cancel_resumes_on_the_newer_prompt (w : World)
    (params : PromptRequest) (runId : string) (abortController promise : nat)
    (session : Session.t) (abortOutcome : RpcOutcome) :
  sessions w !! pr_sessionId params = Some session ->
  let w1 := world_of (cancelBegin (pr_sessionId params) w) in
  let w2 := world_of (prompt params runId abortController promise w1) in
  let r := cancelResume (pr_sessionId params) abortOutcome w2 in
  value_of (cancelBegin (pr_sessionId params) w) = true /\
  effects_of r = [Resolve promise {| stopReason := cancelled |}] /\
  JSMap.get (pr_sessionId params) (pendingPrompts (world_of r)) = None /\
  activeRunOf (world_of r) (pr_sessionId params)
  = Some {| Session.runId := runId;
            Session.cancellationHandle := abortController |}.
Proof.
  intros Hs. cbn zeta. set (sid := pr_sessionId params) in *.
  rewrite (cancelBegin_known _ _ _ Hs). cbn zeta. cbn [value_of world_of fst snd].
  split; [reflexivity |].
  set (w1 := match Session.activeRun session with
             | Some _ => _ | None => w end).
  assert (is_Some (sessions w1 !! sid)) as [session1 Hs1].
  { unfold w1. destruct (Session.activeRun session).
    - cbn [sessions with_sessions]. rewrite lookup_alter_eq, Hs. by eexists.
    - by eexists. }
  fold sid. rewrite (prompt_known _ _ _ _ _ _ Hs1). cbn zeta.
  cbn [world_of fst snd].
  change (pr_sessionId params) with sid.
  set (w2 := promptedWorld sid runId abortController promise w1).
  assert (JSMap.get sid (pendingPrompts w2)
          = Some (freshPending sid runId promise)) as Hp2.
  { unfold w2, promptedWorld. cbn [pendingPrompts with_pendingPrompts].
    apply get_set_eq. }
  rewrite cancelResume_run, Hp2. cbn zeta.
  split; [reflexivity |]. split.
  - cbn [world_of fst snd pendingPrompts with_pendingPrompts]. apply get_delete_eq.
  - unfold activeRunOf, w2, promptedWorld.
    cbn [world_of fst snd sessions with_sessions with_pendingPrompts].
    by rewrite lookup_alter_eq, Hs1.
Qed.

Lemma X5_witness :
  let w2 :=
    world_of (promptCall (promptS1 "run-2" 2) (world_of (cancelBegin "s1" pingWorld))) in
  effects_of (cancelResume "s1" RpcOk w2)
  = [Resolve 2 {| stopReason := cancelled |}].
Proof.
  cbn zeta.
  apply (X5_cancel_resumes_on_the_newer_prompt pingWorld
           (call_params (promptS1 "run-2" 2)) "run-2" 2 2
           {| Session.sessionId := "s1"; Session.sessionKey := "acp:s1";
              Session.cwd := "/tmp/x";
              Session.activeRun :=
                Some {| Session.runId := "run-1";
                        Session.cancellationHandle := 1 |} |} RpcOk).
  vm_compute. reflexivity.
Defined.

(** ** Superseded prompts *)

Lemma elem_of_set_wf (m : list (string * Pending.t)) k v k' v' :
  pending_wf m -> Pending.sessionId v = k ->
  (k', v') ∈ JSMap.set k v m ->
  (k' = k /\ v' = v) \/ (k' <> k /\ (k', v') ∈ m).
Proof.
  intros Hwf Hv Hin. destruct (decide (k' = k)) as [->|Hne].
  - left. split; [done |].
    pose proof (wf_get _ _ _ (wf_set _ _ _ Hwf Hv) Hin) as Hget.
    rewrite get_set_eq in Hget. by inversion Hget.
  - right. split; [done |]. apply get_elem.
    rewrite <- (get_set_ne k k' v m) by done.
    by apply (wf_get _ _ _ (wf_set _ _ _ Hwf Hv)).
Qed.

Lemma disconnect_effects reason w :
  effects_of (handleGatewayDisconnect reason w)
  = (fun e => Reject (Pending.reject e.2) (GatewayDisconnected reason))
    <$> pendingPrompts w.
Proof.
  rewrite handleGatewayDisconnect_unfold. cbn zeta.
  by destruct (disconnect_loop reason (pendingPrompts w) (with_connected false w))
    as [He _].
Qed.

(** X6. A prompt that supersedes a pending prompt of the same session
    settles no promise, and it replaces the entry of the superseded prompt:
    a Gateway disconnect after it does not reject the superseded promise
    (as long as that promise belongs to no other entry and differs from the
    new one). *)
Theorem X6_superseded_promise_is_left_unsettled (w : World)
    (params : PromptRequest) (runId : string) (abortController promise : nat)
    (session : Session.t) (old : Pending.t) (reason : string) (err : Error) :
  pending_wf (pendingPrompts w) ->
  sessions w !! pr_sessionId params = Some session ->
  JSMap.get (pr_sessionId params) (pendingPrompts w) = Some old ->
  promise <> Pending.reject old ->
  (forall k q, (k, q) ∈ pendingPrompts w -> k <> pr_sessionId params ->
     Pending.reject q <> Pending.reject old) ->
  let r := prompt params runId abortController promise w in
  Forall (fun e => match e with
                   | Resolve _ _ | Reject _ _ => False
                   | _ => True
                   end) (effects_of r) /\
  Reject (Pending.reject old) err
    ∉ effects_of (handleGatewayDisconnect reason (world_of r)).
Proof.
  intros Hwf Hs Hold Hne Hothers. cbn zeta.
  rewrite (prompt_known _ _ _ _ _ _ Hs). cbn zeta. split.
  - unfold effects_of. cbn [snd]. rewrite fmap_app.
    apply Forall_app. split.
    + by destruct (Session.activeRun session); repeat constructor.
    + by repeat constructor.
  - cbn [world_of fst snd].
    rewrite disconnect_effects.
    intros Hin. apply list_elem_of_fmap in Hin as ([k q] & Heq & Hin).
    cbn [snd] in Heq. injection Heq as Hrej _.
    unfold promptedWorld in Hin. cbn [pendingPrompts with_pendingPrompts] in Hin.
    apply elem_of_set_wf in Hin as [[-> ->] | [Hk Hin]]; [| | done | done].
    + cbn [freshPending Pending.reject] in Hrej. congruence.
    + by apply (Hothers k q Hin Hk).
Qed.

Lemma X6_witness :
  Forall (fun e => match e with
                   | Resolve _ _ | Reject _ _ => False
                   | _ => True
                   end)
    (effects_of (promptCall (promptS1 "run-2" 2) pingWorld)).
Proof.
  apply (X6_superseded_promise_is_left_unsettled pingWorld
           (call_params (promptS1 "run-2" 2)) "run-2" 2 2
           {| Session.sessionId := "s1"; Session.sessionKey := "acp:s1";
              Session.cwd := "/tmp/x";
              Session.activeRun :=
                Some {| Session.runId := "run-1";
                        Session.cancellationHandle := 1 |} |}
           pingPending "1006: gone" {| message := "Gateway disconnected: 1006: gone" |}).
  - exact pingWorld_wf.
  - vm_compute. reflexivity.
  - reflexivity.
  - discriminate.
  - intros k q Hin Hk. apply list_elem_of_singleton in Hin. by inversion Hin.
Defined.

(** ** What a chat event can do *)

(** Every chat frame is handled in one of three ways. *)
Lemma handleChatEvent_cases evt w :
  handleChatEvent evt w = (tt, w, []) \/
  (exists sessionId actual fullText newText,
      JSMap.get sessionId (pendingPrompts w) = Some actual /\
      let w' :=
        with_pendingPrompts
          (JSMap.set sessionId
             (Pending.with_sent (String.length fullText) fullText actual)
             (pendingPrompts w)) w in
      handleChatEvent evt w
      = (tt, w',
         [{| at_world := w'; effect := SessionUpdateChunk sessionId newText |}])) \/
  (exists p state,
      let w' :=
        with_sessions
          (alter (Session.with_activeRun None) (Pending.sessionId p) (sessions w))
          (with_pendingPrompts
             (JSMap.delete (Pending.sessionId p) (pendingPrompts w)) w) in
      handleChatEvent evt w
      = (tt, w',
         [{| at_world := w';
             effect := Resolve (Pending.resolve p)
                         {| stopReason := stopReasonOf state |} |}])).
Proof.
  remember (handleChatEvent evt w) as r eqn:Hr. unfold handleChatEvent in Hr.
  destruct (Chat.payload evt) as [payload|]; [| by left].
  destruct (JS.truthy (Chat.sessionKey payload)); [| by left].
  cbn [negb] in Hr. unfold findPendingBySessionKey, bind, get, ret in Hr.
  destruct (findPending _ _ _) as [p|]; [| by left].
  destruct (if bool_decide _ then Chat.message payload else None) as [md|].
  - destruct (JSMap.get (Pending.sessionId p) (pendingPrompts w))
      as [actual|] eqn:Hget.
    + rewrite (handleDelta_entry _ _ _ _ Hget) in Hr. cbn zeta in Hr.
      destruct (_ && _); [| by left].
      right. left. subst r.
      exists (Pending.sessionId p), actual, (fullTextOf md),
        (JS.drop (default 0 (Pending.sentTextLength actual)) (fullTextOf md)).
      split; [exact Hget | reflexivity].
    + rewrite (handleDelta_no_entry _ _ _ Hget) in Hr. by left.
  - destruct (isTerminal _); [| by left].
    right. right. subst r. exists p, (Chat.state payload). reflexivity.
Qed.

(** X7. Handling a chat event makes at most one outgoing call, and that
    call is a text chunk for the client or the resolution of a prompt: a
    chat event never rejects a promise, aborts a run or calls the Gateway.
    It leaves the connected flag alone and never adds, removes or re-keys a
    session. *)
Theorem X7_chat_event_calls (evt : Chat.EventFrame) (w : World) :
  let r := handleChatEvent evt w in
  length (trace_of r) <= 1 /\
  Forall (fun e => match e with
                   | SessionUpdateChunk _ _ | Resolve _ _ => True
                   | _ => False
                   end) (effects_of r) /\
  connected (world_of r) = connected w /\
  forall sessionId,
    (fun s => (Session.sessionId s, Session.sessionKey s, Session.cwd s))
      <$> sessions (world_of r) !! sessionId
    = (fun s => (Session.sessionId s, Session.sessionKey s, Session.cwd s))
      <$> sessions w !! sessionId.
Proof.
  cbn zeta.
  destruct (handleChatEvent_cases evt w)
    as [-> | [(sid & actual & fullText & newText & _ & ->) | (p & state & ->)]];
    cbn [trace_of effects_of world_of fst snd length fmap list_fmap effect].
  - repeat split; [lia | constructor].
  - repeat split; [lia | by repeat constructor].
  - repeat split; [lia | by repeat constructor |].
    intros sid. cbn [sessions with_sessions].
    destruct (decide (Pending.sessionId p = sid)) as [->|Hne].
    + rewrite lookup_alter_eq. by destruct (sessions w !! sid).
    + by rewrite lookup_alter_ne.
Qed.

(** ** What the client has received *)

Lemma prefix_split s t :
  String.prefix s t = true -> s +:+ JS.drop (String.length s) t = t.
Proof.
  revert t. induction s as [|a s IH]; intros t Hp.
  - by rewrite drop_0.
  - destruct t as [|b t]; [done |]. simpl in Hp.
    destruct (Ascii.ascii_dec a b) as [->|]; [| done].
    change (String b (s +:+ JS.drop (String.length s) t) = String b t).
    by rewrite IH.
Qed.

Lemma prefix_trans a b c :
  String.prefix a b = true -> String.prefix b c = true -> String.prefix a c = true.
Proof.
  revert b c. induction a as [|x a IH]; intros b c Hab Hbc; [by destruct c |].
  destruct b as [|y b]; [done |]. destruct c as [|z c]; [done |].
  simpl in *.
  destruct (Ascii.ascii_dec x y) as [->|]; [| done].
  destruct (Ascii.ascii_dec y z) as [->|]; [| done].
  by apply (IH b c).
Qed.

Lemma prefix_refl a : String.prefix a a = true.
Proof.
  induction a as [|x a IH]; [done |]. simpl.
  by destruct (Ascii.ascii_dec x x).
Qed.

(** The world after a stream of delta frames still finds the prompt, with
    the stored state [storedAfter] computes. *)
Lemma afterEvents_deltas texts : forall w key p,
  key <> EmptyString ->
  pending_wf (pendingPrompts w) ->
  findPending (sessions w) key (pendingPrompts w) = Some p ->
  exists p',
    findPending (sessions (afterEvents (chatDelta key <$> texts) w)) key
      (pendingPrompts (afterEvents (chatDelta key <$> texts) w)) = Some p' /\
    (default 0 (Pending.sentTextLength p'),
     default EmptyString (Pending.sentText p'))
    = storedAfter (default 0 (Pending.sentTextLength p))
        (default EmptyString (Pending.sentText p)) texts.
Proof.
  induction texts as [|t rest IH]; intros w key p Hkey Hwf Hfind.
  - by exists p.
  - destruct (delta_step w key (textMessage t) p Hkey Hwf Hfind)
      as (Hstep & Hwf' & Hfind').
    cbn zeta in Hstep, Hwf', Hfind'. rewrite fullTextOf_textMessage in *.
    change (afterEvents (chatDelta key <$> t :: rest) w)
      with (afterEvents (chatDelta key <$> rest)
              (world_of (handleChatEvent (chatDelta key t) w))).
    unfold chatDelta at 2 4. rewrite Hstep. cbn [storedAfter].
    destruct (bool_decide _ && negb _); cbn [world_of fst snd].
    + destruct (IH _ _ _ Hkey Hwf' Hfind') as (p' & Hf & Hst).
      exists p'. split; [exact Hf |]. by rewrite Hst.
    + destruct (IH _ _ _ Hkey Hwf Hfind) as (p' & Hf & Hst).
      by exists p'.
Qed.

(** The chunks of a cumulative stream complete the stored text. *)
Lemma unsentSuffixes_received texts : forall sentText prev,
  String.prefix sentText prev = true ->
  cumulative prev texts ->
  let stored := storedAfter (String.length sentText) sentText texts in
  sentText +:+ received (unsentSuffixes (String.length sentText) sentText texts)
  = stored.2 /\
  stored.1 = String.length stored.2 /\
  String.prefix stored.2 (List.last texts prev) = true.
Proof.
  induction texts as [|t rest IH]; intros sent prev Hpre Hcum; cbn zeta.
  - cbn. split; [| by split].
    unfold received. cbn. clear. induction sent as [|a s IH]; [done |].
    change (String a (s +:+ "") = String a s). by rewrite IH.
  - destruct Hcum as [Hprev Hcum]. unfold JS.startsWith in Hprev.
    pose proof (prefix_trans _ _ _ Hpre Hprev) as Hsent.
    cbn [unsentSuffixes storedAfter].
    assert (List.last (t :: rest) prev = List.last rest t) as ->.
    { destruct rest as [|s rest']; [done |].
      change (List.last (t :: s :: rest') prev) with (List.last (s :: rest') prev).
      clear. revert s. induction rest' as [|s' rest' IHr]; intros s; [done |].
      change (List.last (s' :: rest') prev = List.last (s' :: rest') t).
      apply IHr. }
    destruct (bool_decide _ && negb _).
    + destruct (IH t t (prefix_refl t) Hcum) as (IH1 & IH2 & IH3).
      cbn zeta in *. split; [| by split].
      rewrite <- IH1. unfold received. cbn [concat app foldr JS.slice].
      rewrite <- append_assoc. by rewrite (prefix_split _ _ Hsent).
    + destruct (IH sent t Hsent Hcum) as (IH1 & IH2 & IH3).
      cbn zeta in *. split; [| by split].
      by rewrite <- IH1.
Qed.

(** X8. For a fresh prompt and any stream of delta events whose cumulative
    texts each extend the one before, the chunks forwarded to the client,
    put together in order, are exactly the text the entry records as sent;
    the recorded length is the length of that text, and the text is a
    prefix of the latest payload. So no character reaches the client twice
    and none is skipped inside what was sent. *)
Theorem X8_forwarded_chunks_are_the_stored_text (w : World) (key : string)
    (p : Pending.t) (texts : list string) :
  key <> EmptyString ->
  pending_wf (pendingPrompts w) ->
  findPending (sessions w) key (pendingPrompts w) = Some p ->
  Pending.sentTextLength p = None ->
  Pending.sentText p = None ->
  cumulative EmptyString texts ->
  let evts := chatDelta key <$> texts in
  let w' := afterEvents evts w in
  exists p',
    findPending (sessions w') key (pendingPrompts w') = Some p' /\
    received (forwardedPerEvent evts w) = default EmptyString (Pending.sentText p') /\
    default 0 (Pending.sentTextLength p')
    = String.length (default EmptyString (Pending.sentText p')) /\
    String.prefix (default EmptyString (Pending.sentText p'))
      (List.last texts EmptyString) = true.
Proof.
  intros Hkey Hwf Hfind Hlen Hsent Hcum. cbn zeta.
  destruct (afterEvents_deltas texts w key p Hkey Hwf Hfind) as (p' & Hf & Hst).
  rewrite Hlen, Hsent in Hst. cbn [default from_option id] in Hst.
  destruct (unsentSuffixes_received texts EmptyString EmptyString eq_refl Hcum)
    as (H1 & H2 & H3).
  cbn zeta in *. cbn [String.length] in *. rewrite <- Hst in *. cbn [fst snd] in *.
  exists p'. split; [exact Hf |].
  rewrite (forwardedPerEvent_deltas _ _ _ _ Hkey Hwf Hfind), Hlen, Hsent.
  cbn [default from_option id]. by repeat split.
Qed.

Lemma X8_witness :
  received
    (forwardedPerEvent
       (chatDelta "acp:s1" <$> ["Hel"; "Hello"; "Hello"; "Hello, world"])
       pingWorld)
  = "Hello, world".
Proof.
  destruct (X8_forwarded_chunks_are_the_stored_text pingWorld "acp:s1" pingPending
              ["Hel"; "Hello"; "Hello"; "Hello, world"])
    as (p' & Hf & Hrecv & _).
  - discriminate.
  - exact pingWorld_wf.
  - vm_compute. reflexivity.
  - reflexivity.
  - reflexivity.
  - by repeat split.
  - rewrite Hrecv. vm_compute in Hf. inversion Hf. reflexivity.
Defined.

(** ** Invariants of the reachable worlds *)

Lemma Forall_set_entries (P : string * Pending.t -> Prop) m k v :
  Forall P m -> P (k, v) -> Forall P (JSMap.set k v m).
Proof.
  intros Hall Hv. induction Hall as [|[k' v'] m Hhd Htl IH]; simpl.
  - by constructor.
  - case_decide; constructor; done.
Qed.

Lemma Forall_delete_entries (P : string * Pending.t -> Prop) m k :
  Forall P m -> Forall P (JSMap.delete k m).
Proof.
  intros Hall. apply Forall_forall. intros [k' v] [_ Hin]%elem_of_delete.
  by apply (proj1 (Forall_forall _ _) Hall).
Qed.

Lemma keys_set_elem (m : list (string * Pending.t)) k v sid :
  sid ∈ JSMap.keys (JSMap.set k v m) -> sid = k \/ sid ∈ JSMap.keys m.
Proof.
  destruct (decide (k ∈ JSMap.keys m)) as [Hin|Hnin].
  - rewrite keys_set_present by done. by right.
  - rewrite keys_set_absent by done.
    intros [?|Hx%list_elem_of_singleton]%elem_of_app; [by right | by left].
Qed.

Lemma keys_delete_elem (m : list (string * Pending.t)) k sid :
  sid ∈ JSMap.keys (JSMap.delete k m) -> sid ∈ JSMap.keys m.
Proof. rewrite keys_delete. by intros [_ ?]%list_elem_of_filter. Qed.

Lemma invariant_sessions w ss :
  (forall sid, is_Some (sessions w !! sid) -> is_Some (ss !! sid)) ->
  worldInvariant w -> worldInvariant (with_sessions ss w).
Proof.
  intros Hss (Hwf & Hall & Hk). repeat split; try done.
  - by destruct Hwf.
  - by destruct Hwf.
  - intros sid Hin. apply Hss. by apply Hk.
Qed.

Lemma invariant_delete w k :
  worldInvariant w ->
  worldInvariant (with_pendingPrompts (JSMap.delete k (pendingPrompts w)) w).
Proof.
  intros (Hwf & Hall & Hk). split; [by apply wf_delete |]. split.
  - by apply Forall_delete_entries.
  - intros sid Hin%keys_delete_elem. by apply Hk.
Qed.

Lemma invariant_alter w f k :
  worldInvariant w -> worldInvariant (with_sessions (alter f k (sessions w)) w).
Proof.
  apply invariant_sessions. intros sid Hs. by apply lookup_alter_is_Some.
Qed.

Lemma invariant_set w k v :
  Pending.sessionId v = k -> entryConsistent v -> is_Some (sessions w !! k) ->
  worldInvariant w ->
  worldInvariant (with_pendingPrompts (JSMap.set k v (pendingPrompts w)) w).
Proof.
  intros Hv Hc Hs (Hwf & Hall & Hk). split; [by apply wf_set |]. split.
  - by apply Forall_set_entries.
  - intros sid [->|Hin]%keys_set_elem; [done | by apply Hk].
Qed.

Lemma get_key (m : list (string * Pending.t)) k v :
  JSMap.get k m = Some v -> k ∈ JSMap.keys m.
Proof.
  intros Hget. destruct (decide (k ∈ JSMap.keys m)) as [|Hnin]; [done |].
  apply get_None_keys in Hnin. congruence.
Qed.

(** X9. In every world the translator can reach, the pending table holds
    at most one entry per session, each stored under its own session id and
    belonging to a session of the registry, and the length recorded in an
    entry is the length of the text recorded in it. *)
Theorem X9_reachable_worlds_are_consistent (w : World) :
  reachable w -> worldInvariant w.
Proof.
  induction 1 as [| w _ IH | w cwd sid key _ IH | w params runId ac d _ IH
                 | w sid d err _ IH | w evt _ IH | w reason _ IH
                 | w params outcome _ IH | w sid _ IH | w sid outcome _ IH].
  - split; [split; [apply NoDup_nil_2 | constructor] |].
    split; [constructor |]. by intros sid ?%elem_of_nil.
  - by apply (invariant_sessions w (sessions w)).
  - apply (invariant_sessions w); [| done].
    intros sid' Hs. apply lookup_insert_is_Some.
    destruct (decide (sid = sid')); [by left | by right].
  - destruct (sessions w !! pr_sessionId params) as [session|] eqn:Hs;
      [| by rewrite (prompt_unknown _ _ _ _ _ Hs)].
    rewrite (prompt_known _ _ _ _ _ _ Hs). cbn zeta. cbn [world_of fst snd].
    unfold promptedWorld.
    apply (invariant_set
             (with_sessions (alter _ (pr_sessionId params) (sessions w)) w));
      [done | done | | by apply invariant_alter].
    cbn [sessions with_sessions]. rewrite lookup_alter_eq, Hs. by eexists.
  - apply (invariant_alter
             (with_pendingPrompts (JSMap.delete sid (pendingPrompts w)) w)).
    by apply invariant_delete.
  - destruct (handleChatEvent_cases evt w)
      as [-> | [(sid & actual & fullText & newText & Hget & ->) | (p & state & ->)]];
      cbn [world_of fst snd]; [done | |].
    + destruct IH as (Hwf & Hall & Hk).
      apply invariant_set; [| done | | done].
      * destruct Hwf as [_ Hkeys].
        apply (proj1 (Forall_forall _ _) Hkeys _ (get_elem _ _ _ Hget)).
      * apply Hk. by apply (get_key _ _ actual).
    + apply (invariant_alter
               (with_pendingPrompts
                  (JSMap.delete (Pending.sessionId p) (pendingPrompts w)) w)).
      by apply invariant_delete.
  - rewrite handleGatewayDisconnect_unfold. cbn zeta. cbn [world_of fst snd].
    split; [split; [apply NoDup_nil_2 | constructor] |].
    split; [constructor |]. by intros sid ?%elem_of_nil.
  - by rewrite setSessionMode_world.
  - destruct (sessions w !! sid) as [session|] eqn:Hs.
    + rewrite (cancelBegin_known _ _ _ Hs). cbn zeta. cbn [world_of fst snd].
      destruct (Session.activeRun session); [by apply invariant_alter | done].
    + unfold cancelBegin, getSession, bind, get, ret. by rewrite Hs.
  - rewrite cancelResume_run.
    destruct (JSMap.get sid (pendingPrompts w)); [by apply invariant_delete | done].
Qed.

Lemma X9_witness : worldInvariant hahaWorld.
Proof.
  apply X9_reachable_worlds_are_consistent.
  apply reach_chatEvent, reach_prompt, reach_newSession, reach_start, reach_new.
Defined.

(** ** The request a prompt sends *)



Lemma omap_cons {A B} (f : A -> option B) (x : A) (l : list A) :
  omap f (x :: l)
  = match f x with Some y => y :: omap f l | None => omap f l end.
Proof. reflexivity. Qed.



Lemma truthy_nonempty s : JS.truthy (Some s) = true -> s <> EmptyString.
Proof. intros H ->. discriminate H. Qed.

Lemma extractAttachments_valid prompt :
  Forall validAttachment (extractAttachmentsFromPrompt prompt).
Proof.
  unfold extractAttachmentsFromPrompt.
  induction prompt as [|b rest IH]; [constructor |].
  rewrite omap_cons.
  destruct b as [t|data mime|]; try exact IH.
  destruct (JS.truthy (Some data) && JS.truthy (Some mime)) eqn:Hv; [| exact IH].
  apply andb_true_iff in Hv as [Hd Hm]. constructor; [| exact IH].
  repeat split; cbn [att_mimeType att_content]; by apply truthy_nonempty.
Qed.


(** X11. The [chat.send] request of a prompt on a known session is the last
    call [prompt] makes; it names the session's Gateway key and asks for the
    final result, its idempotency key is the run id that is registered as
    the session's active run and recorded in the pending entry, and its
    attachment list is either absent or a non-empty list of images that each
    have a mime type and data. *)
Theorem X11_chat_send_request (w : World) (params : PromptRequest)
    (runId : string) (abortController promise : nat) (session : Session.t) :
  sessions w !! pr_sessionId params = Some session ->
  let r := prompt params runId abortController promise w in
  exists message attachments,
    List.last (effects_of r) (Abort 0)
    = GatewayRequest "chat.send"
        (ChatSend (Session.sessionKey session) message attachments runId) true /\
    (Session.runId <$> activeRunOf (world_of r) (pr_sessionId params)) = Some runId /\
    (Pending.idempotencyKey
       <$> JSMap.get (pr_sessionId params) (pendingPrompts (world_of r)))
    = Some runId /\
    attachments <> Some [] /\
    (forall l, attachments = Some l -> Forall validAttachment l) /\
    JS.startsWith message ("[Working directory: " +:+ Session.cwd session +:+ "]")
    = true.
Proof.
  intros Hs. cbn zeta. rewrite (prompt_known _ _ _ _ _ _ Hs). cbn zeta.
  unfold chatSendOf. cbn zeta. eexists _, _. split.
  { unfold effects_of. cbn [snd]. rewrite fmap_app. cbn [fmap list_fmap effect].
    apply last_last. }
  cbn [world_of fst snd]. split.
  { rewrite promptedWorld_activeRun_eq; [done | by eexists]. }
  split.
  { unfold promptedWorld. cbn [pendingPrompts with_pendingPrompts].
    by rewrite get_set_eq. }
  split.
  { case_bool_decide as Hlen; [| done]. intros [= Hnil].
    rewrite Hnil in Hlen. cbn in Hlen. lia. }
  split.
  { intros l. case_bool_decide; [| done]. intros [= <-].
    apply extractAttachments_valid. }
  unfold JS.startsWith.
  generalize (extractTextFromPrompt (pr_prompt params)). intros text.
  generalize (Session.cwd session). intros cwd. clear.
  rewrite !append_assoc.
  change ("[Working directory: " +:+ cwd +:+ "]" +:+ JS.LF +:+ JS.LF +:+ text)
    with ("[Working directory: " +:+ (cwd +:+ "]" +:+ JS.LF +:+ JS.LF +:+ text)).
  change ("[Working directory: " +:+ cwd +:+ "]")
    with ("[Working directory: " +:+ (cwd +:+ "]")).
  assert (forall a b c, String.prefix b c = true ->
            String.prefix (a +:+ b) (a +:+ c) = true) as Happ.
  { clear. induction a as [|x a IH]; intros b c H; [done |].
    change (String.prefix (String x (a +:+ b)) (String x (a +:+ c)) = true).
    simpl. destruct (Ascii.ascii_dec x x); [by apply IH | done]. }
  apply Happ. apply Happ. reflexivity.
Qed.

Lemma X11_witness :
  List.last (effects_of (promptCall (promptS1 "run-2" 2) pingWorld)) (Abort 0)
  = GatewayRequest "chat.send"
      (ChatSend "acp:s1"
         ("[Working directory: /tmp/x]" +:+ JS.LF +:+ JS.LF +:+ "again")
         None "run-2") true.
Proof.
  destruct (X11_chat_send_request pingWorld (call_params (promptS1 "run-2" 2))
              "run-2" 2 2
              {| Session.sessionId := "s1"; Session.sessionKey := "acp:s1";
                 Session.cwd := "/tmp/x";
                 Session.activeRun :=
                   Some {| Session.runId := "run-1";
                           Session.cancellationHandle := 1 |} |})
    as (message & attachments & Hlast & _).
  - vm_compute. reflexivity.
  - vm_compute. reflexivity.
Defined.

(** ** The dispatcher of Gateway events *)

(** X12. [handleGatewayEvent] throws a TypeError for a frame whose payload
    is absent (undefined), whatever its kind, before it dispatches
    anything. For every other frame, also one whose payload is null, it
    dispatches on the kind. A chat frame is handled by
    [handleChatEvent] alone. Any other frame leaves the world as it was and
    makes no call of the chat handler; it makes at most one call, and it
    makes one only if it is an agent frame of the tool stream with a run
    id, a tool-call id and phase start or result, and then the notification
    goes to the session found for the run id. This holds for every way of
    looking sessions up by run id. *)
Theorem X12_gateway_event_dispatch
    (getSessionByRunId : string -> World -> option Session.t)
    (evt : Gateway.EventFrame) (w : World) :
  let r := Gateway.handleGatewayEvent getSessionByRunId evt w in
  (Gateway.payload evt = Gateway.Undefined -> r = Gateway.TypeError) /\
  (Gateway.payload evt <> Gateway.Undefined ->
   (Gateway.event evt = "chat" ->
    r = Gateway.Done
          (world_of (handleChatEvent (Gateway.toChat evt) w))
          (Gateway.FromChat
             <$> trace_of (handleChatEvent (Gateway.toChat evt) w))) /\
   (Gateway.event evt <> "chat" ->
    exists calls,
      r = Gateway.Done w calls /\ length calls <= 1 /\
      forall out, out ∈ calls ->
        Gateway.event evt = "agent" /\
        exists payload data session,
          Gateway.payload evt = Gateway.Object payload /\
          Gateway.data payload = Some data /\
          Gateway.stream payload = Some "tool" /\
          JS.truthy (Gateway.runId payload) = true /\
          JS.truthy (Gateway.toolCallId data) = true /\
          getSessionByRunId (default EmptyString (Gateway.runId payload)) w
          = Some session /\
          ((Gateway.phase data = Some "start" /\
            out = Gateway.ToolCall (Session.sessionId session)
                    (default EmptyString (Gateway.toolCallId data))
                    (default "tool" (Gateway.name data)) "running") \/
           (Gateway.phase data = Some "result" /\
            out = Gateway.ToolCallUpdate (Session.sessionId session)
                    (default EmptyString (Gateway.toolCallId data))
                    (if default false (Gateway.isError data)
                     then "error" else "completed"))))).
Proof.
  cbn zeta. unfold Gateway.handleGatewayEvent. split; [by intros -> |].
  intros Hpayload.
  assert (forall A (a b : A),
            match Gateway.payload evt with
            | Gateway.Undefined => a
            | Gateway.Null | Gateway.Object _ => b
            end = b) as -> by (intros; by destruct (Gateway.payload evt)).
  split.
  - intros Hchat. rewrite Hchat.
    rewrite (bool_decide_eq_false_2 ("chat" = "agent")) by discriminate.
    by rewrite bool_decide_eq_true_2.
  - intros Hne. rewrite (bool_decide_eq_false_2 _ Hne).
    eexists. split; [reflexivity |].
    case_bool_decide as Hagent;
      [| split; [cbn; lia | by intros out ?%elem_of_nil]].
    unfold Gateway.handleAgentEvent, Gateway.payloadOf.
    destruct (Gateway.payload evt) as [| |payload] eqn:Hslot;
      [done | split; [cbn; lia | by intros out ?%elem_of_nil] |].
    destruct (Gateway.data payload) as [data|] eqn:Hdata;
      [| split; [cbn; lia | by intros out ?%elem_of_nil]].
    destruct (JS.truthy (Gateway.runId payload)) eqn:Hrun; cbn [negb];
      [| split; [cbn; lia | by intros out ?%elem_of_nil]].
    destruct (getSessionByRunId _ w) as [session|] eqn:Hsession;
      [| split; [cbn; lia | by intros out ?%elem_of_nil]].
    case_bool_decide as Hstream;
      [| split; [cbn; lia | by intros out ?%elem_of_nil]].
    destruct (JS.truthy (Gateway.toolCallId data)) eqn:Htool; cbn [negb];
      [| split; [cbn; lia | by intros out ?%elem_of_nil]].
    case_bool_decide as Hstart.
    + split; [cbn; lia |]. intros out ->%list_elem_of_singleton.
      split; [done |]. exists payload, data, session.
      repeat split; try done. by left.
    + case_bool_decide as Hresult;
        [| split; [cbn; lia | by intros out ?%elem_of_nil]].
      split; [cbn; lia |]. intros out ->%list_elem_of_singleton.
      split; [done |]. exists payload, data, session.
      repeat split; try done. by right.
Qed.

Example handleGatewayEvent_examples :
  let lookup (runId : string) (w : World) :=
    if bool_decide (runId = "run-1") then sessions w !! "s1" else None in
  let tool :=
    {| Gateway.sessionKey := None; Gateway.state := None;
       Gateway.message := None; Gateway.runId := Some "run-1";
       Gateway.stream := Some "tool";
       Gateway.data :=
         Some {| Gateway.phase := Some "start"; Gateway.name := None;
                 Gateway.toolCallId := Some "call-7";
                 Gateway.isError := None |} |} in
  Gateway.handleGatewayEvent lookup
    {| Gateway.event := "agent"; Gateway.payload := Gateway.Object tool |}
    pingWorld
  = Gateway.Done pingWorld [Gateway.ToolCall "s1" "call-7" "tool" "running"] /\
  Gateway.handleGatewayEvent lookup
    {| Gateway.event := "agent"; Gateway.payload := Gateway.Null |} pingWorld
  = Gateway.Done pingWorld [] /\
  Gateway.handleGatewayEvent lookup
    {| Gateway.event := "chat"; Gateway.payload := Gateway.Undefined |} pingWorld
  = Gateway.TypeError.
Proof. vm_compute. done. Qed.

(** ** Command line *)

Example parseArgs_value_is_not_a_flag :
  Cli.parseArgs ["--token"; "--verbose"; "--url"; "ws://h:1"; "extra"; "--url"]
  = Cli.Options {| Cli.gatewayUrl := Some "ws://h:1";
                   Cli.gatewayToken := Some "--verbose";
                   Cli.gatewayPassword := None; Cli.verbose := false |}.
Proof. reflexivity. Qed.

Lemma follows_cons names arg rest value :
  follows names rest value -> follows names (arg :: rest) value.
Proof.
  intros (Hne & before & flag & after & -> & Hflag). split; [done |].
  by exists (arg :: before), flag, after.
Qed.

Ltac other_branches :=
  repeat match goal with
         | |- context [if ?c then _ else _] => destruct c
         end;
  discriminate.

Lemma truthy_default next :
  JS.truthy next = true ->
  default EmptyString next <> EmptyString /\ next = Some (default EmptyString next).
Proof.
  destruct next as [s|]; [| done]. intros Ht. split; [| done].
  by apply truthy_nonempty.
Qed.

Lemma either_name (arg a b : string) :
  bool_decide (arg = a) || bool_decide (arg = b) = true -> arg ∈ [a; b].
Proof.
  intros [H|H]%orb_true_iff; apply bool_decide_eq_true_1 in H; subst; set_solver.
Qed.

Lemma branchOf_SetUrl arg next v :
  Cli.branchOf arg next = Cli.SetUrl v ->
  v <> EmptyString /\ next = Some v /\ arg ∈ ["--gateway-url"; "--url"].
Proof.
  unfold Cli.branchOf.
  destruct ((bool_decide (arg = "--gateway-url") || bool_decide (arg = "--url"))
            && JS.truthy next) eqn:H1; [| other_branches].
  apply andb_true_iff in H1 as [Hname Ht]. intros [= <-].
  destruct (truthy_default _ Ht). split; [done |]. split; [done |].
  by apply either_name.
Qed.

Lemma branchOf_SetToken arg next v :
  Cli.branchOf arg next = Cli.SetToken v ->
  v <> EmptyString /\ next = Some v /\ arg ∈ ["--gateway-token"; "--token"].
Proof.
  unfold Cli.branchOf.
  destruct ((bool_decide (arg = "--gateway-url") || bool_decide (arg = "--url"))
            && JS.truthy next); [discriminate |].
  destruct ((bool_decide (arg = "--gateway-token") || bool_decide (arg = "--token"))
            && JS.truthy next) eqn:H1; [| other_branches].
  apply andb_true_iff in H1 as [Hname Ht]. intros [= <-].
  destruct (truthy_default _ Ht). split; [done |]. split; [done |].
  by apply either_name.
Qed.

Lemma branchOf_SetPassword arg next v :
  Cli.branchOf arg next = Cli.SetPassword v ->
  v <> EmptyString /\ next = Some v /\
  arg ∈ ["--gateway-password"; "--password"].
Proof.
  unfold Cli.branchOf.
  destruct ((bool_decide (arg = "--gateway-url") || bool_decide (arg = "--url"))
            && JS.truthy next); [discriminate |].
  destruct ((bool_decide (arg = "--gateway-token") || bool_decide (arg = "--token"))
            && JS.truthy next); [discriminate |].
  destruct ((bool_decide (arg = "--gateway-password")
             || bool_decide (arg = "--password"))
            && JS.truthy next) eqn:H1; [| other_branches].
  apply andb_true_iff in H1 as [Hname Ht]. intros [= <-].
  destruct (truthy_default _ Ht). split; [done |]. split; [done |].
  by apply either_name.
Qed.

Lemma branchOf_SetVerbose arg next :
  Cli.branchOf arg next = Cli.SetVerbose -> arg ∈ ["--verbose"; "-v"].
Proof.
  unfold Cli.branchOf.
  repeat (destruct (_ && JS.truthy next); [discriminate |]).
  destruct (bool_decide (arg = "--verbose") || bool_decide (arg = "-v")) eqn:H1;
    [| other_branches].
  intros _. by apply either_name.
Qed.

Lemma branchOf_Help arg next :
  Cli.branchOf arg next = Cli.Help -> arg ∈ ["--help"; "-h"].
Proof.
  unfold Cli.branchOf.
  repeat (destruct (_ && JS.truthy next); [discriminate |]).
  destruct (bool_decide (arg = "--verbose") || bool_decide (arg = "-v"));
    [discriminate |].
  destruct (bool_decide (arg = "--cwd") && JS.truthy next); [discriminate |].
  destruct (bool_decide (arg = "--help") || bool_decide (arg = "-h")) eqn:H1;
    [| discriminate].
  intros _. by apply either_name.
Qed.

Lemma branchOf_unknown arg next :
  arg ∉ Cli.flags -> Cli.branchOf arg next = Cli.Ignore.
Proof.
  intros Hnot. unfold Cli.branchOf.
  repeat match goal with
         | |- context [bool_decide (arg = ?name)] =>
             rewrite (bool_decide_eq_false_2 (arg = name));
             [| intros ->; apply Hnot; unfold Cli.flags; set_solver]
         end.
  reflexivity.
Qed.

Lemma parseFrom_exit args : forall opts consumed code,
  Cli.parseFrom opts consumed args = Cli.Exit code ->
  code = 0%Z /\ ("--help" ∈ args \/ "-h" ∈ args).
Proof.
  induction args as [|arg rest IH]; intros opts consumed code; [done |].
  assert (forall opts' consumed',
            Cli.parseFrom opts' consumed' rest = Cli.Exit code ->
            code = 0%Z /\ ("--help" ∈ arg :: rest \/ "-h" ∈ arg :: rest)) as Hrest.
  { intros opts' consumed' H. destruct (IH _ _ _ H) as [? [?|?]].
    - split; [done |]. left. by right.
    - split; [done |]. right. by right. }
  cbn [Cli.parseFrom]. destruct consumed; [by apply Hrest |].
  destruct (Cli.branchOf arg (head rest)) eqn:Hb; try by apply Hrest.
  intros [= <-]. split; [done |].
  apply branchOf_Help in Hb.
  apply elem_of_cons in Hb as [->|Hb]; [left; by left |].
  apply list_elem_of_singleton in Hb as ->. right. by left.
Qed.

(** X13. [parseArgs] ends the process only for a help request: if it exits,
    the exit code is 0 and "--help" or "-h" is among the arguments. Without
    either of them it always returns options. *)
Theorem X13_parseArgs_exits_only_for_help (args : list string) (code : Z) :
  Cli.parseArgs args = Cli.Exit code ->
  code = 0%Z /\ ("--help" ∈ args \/ "-h" ∈ args).
Proof. apply parseFrom_exit. Qed.

Lemma X13_witness :
  (0 = 0)%Z /\ ("--help" ∈ ["--verbose"; "--help"; "--url"] \/
               "-h" ∈ ["--verbose"; "--help"; "--url"]).
Proof.
  apply (X13_parseArgs_exits_only_for_help ["--verbose"; "--help"; "--url"] 0).
  reflexivity.
Defined.

Lemma follows_head names flag value rest :
  value <> EmptyString -> head rest = Some value -> flag ∈ names ->
  follows names (flag :: rest) value.
Proof.
  intros Hne Hhead Hflag. destruct rest as [|v after]; [done |].
  injection Hhead as ->. split; [done |]. by exists [], flag, after.
Qed.

Lemma parseFrom_options args : forall opts consumed o,
  Cli.parseFrom opts consumed args = Cli.Options o ->
  (forall u, Cli.gatewayUrl o = Some u ->
     Cli.gatewayUrl opts = Some u \/ follows ["--gateway-url"; "--url"] args u) /\
  (forall t, Cli.gatewayToken o = Some t ->
     Cli.gatewayToken opts = Some t \/
     follows ["--gateway-token"; "--token"] args t) /\
  (forall p, Cli.gatewayPassword o = Some p ->
     Cli.gatewayPassword opts = Some p \/
     follows ["--gateway-password"; "--password"] args p) /\
  (Cli.verbose o = true ->
     Cli.verbose opts = true \/ "--verbose" ∈ args \/ "-v" ∈ args).
Proof.
  induction args as [|arg rest IH]; intros opts consumed o.
  { intros [= <-]. repeat split; intros; by left. }
  assert (forall opts' consumed',
            Cli.parseFrom opts' consumed' rest = Cli.Options o ->
            (forall u, Cli.gatewayUrl o = Some u ->
               Cli.gatewayUrl opts' = Some u \/
               follows ["--gateway-url"; "--url"] (arg :: rest) u) /\
            (forall t, Cli.gatewayToken o = Some t ->
               Cli.gatewayToken opts' = Some t \/
               follows ["--gateway-token"; "--token"] (arg :: rest) t) /\
            (forall p, Cli.gatewayPassword o = Some p ->
               Cli.gatewayPassword opts' = Some p \/
               follows ["--gateway-password"; "--password"] (arg :: rest) p) /\
            (Cli.verbose o = true ->
               Cli.verbose opts' = true \/
               "--verbose" ∈ arg :: rest \/ "-v" ∈ arg :: rest)) as Hrest.
  { intros opts' consumed' H. destruct (IH _ _ _ H) as (H1 & H2 & H3 & H4).
    repeat split.
    - intros u Hu. destruct (H1 u Hu); [by left | right; by apply follows_cons].
    - intros u Hu. destruct (H2 u Hu); [by left | right; by apply follows_cons].
    - intros u Hu. destruct (H3 u Hu); [by left | right; by apply follows_cons].
    - intros Hv. destruct (H4 Hv) as [?|[?|?]]; [by left | |].
      + right. left. by right.
      + right. right. by right. }
  cbn [Cli.parseFrom]. destruct consumed; [by apply Hrest |].
  destruct (Cli.branchOf arg (head rest)) as [v|v|v| | | |] eqn:Hb;
    intros H; try discriminate H; destruct (Hrest _ _ H) as (H1 & H2 & H3 & H4);
    cbn [Cli.gatewayUrl Cli.gatewayToken Cli.gatewayPassword Cli.verbose] in *.
  - apply branchOf_SetUrl in Hb as (Hne & Hnext & Hflag).
    repeat split; try done.
    intros u Hu. destruct (H1 u Hu) as [[= ->]|?]; [| by right].
    right. by apply follows_head.
  - apply branchOf_SetToken in Hb as (Hne & Hnext & Hflag).
    repeat split; try done.
    intros u Hu. destruct (H2 u Hu) as [[= ->]|?]; [| by right].
    right. by apply follows_head.
  - apply branchOf_SetPassword in Hb as (Hne & Hnext & Hflag).
    repeat split; try done.
    intros u Hu. destruct (H3 u Hu) as [[= ->]|?]; [| by right].
    right. by apply follows_head.
  - apply branchOf_SetVerbose in Hb.
    repeat split; try done.
    intros Hv. right.
    apply elem_of_cons in Hb as [->|Hb]; [left; by left |].
    apply list_elem_of_singleton in Hb as ->. right. by left.
  - by repeat split.
  - by repeat split.
Qed.

(** X14. Whatever [parseArgs] returns was given on the command line: a
    Gateway URL, token or password in the options is a non-empty argument
    that directly follows its flag ("--gateway-url" or "--url", and so on),
    and [verbose] is set only if "--verbose" or "-v" is among the
    arguments. *)
Theorem X14_options_come_from_the_arguments (args : list string)
    (opts : Cli.AcpGwOptions) :
  Cli.parseArgs args = Cli.Options opts ->
  (forall url, Cli.gatewayUrl opts = Some url ->
     follows ["--gateway-url"; "--url"] args url) /\
  (forall token, Cli.gatewayToken opts = Some token ->
     follows ["--gateway-token"; "--token"] args token) /\
  (forall password, Cli.gatewayPassword opts = Some password ->
     follows ["--gateway-password"; "--password"] args password) /\
  (Cli.verbose opts = true -> "--verbose" ∈ args \/ "-v" ∈ args).
Proof.
  intros H. destruct (parseFrom_options _ _ _ _ H) as (H1 & H2 & H3 & H4).
  split; [| split; [| split]].
  - intros u Hu. by destruct (H1 u Hu).
  - intros u Hu. by destruct (H2 u Hu).
  - intros u Hu. by destruct (H3 u Hu).
  - intros Hv. by destruct (H4 Hv).
Qed.

Lemma X14_witness :
  follows ["--gateway-token"; "--token"]
    ["--token"; "--verbose"; "--url"; "ws://h:1"; "extra"; "--url"] "--verbose".
Proof.
  apply (proj1 (proj2 (X14_options_come_from_the_arguments
                         ["--token"; "--verbose"; "--url"; "ws://h:1"; "extra"; "--url"]
                         _ eq_refl))).
  reflexivity.
Defined.

(** X15. Arguments that are none of the recognised flags are ignored: a
    command line made of such arguments only gives the default options. *)
Theorem X15_unknown_arguments_are_ignored (args : list string) :
  Forall (fun arg => arg ∉ Cli.flags) args ->
  Cli.parseArgs args = Cli.Options Cli.noOptions.
Proof.
  unfold Cli.parseArgs. generalize Cli.noOptions. generalize false.
  induction args as [|arg rest IH]; intros consumed opts Hall; [done |].
  apply Forall_cons in Hall as [Harg Hall].
  cbn [Cli.parseFrom]. destruct consumed; [by apply IH |].
  rewrite (branchOf_unknown _ _ Harg). by apply IH.
Qed.

Lemma X15_witness :
  Cli.parseArgs ["serve"; "--port"; "8080"] = Cli.Options Cli.noOptions.
Proof.
  apply X15_unknown_arguments_are_ignored.
  apply (bool_decide_unpack _). vm_compute. exact I.
Defined.

(** ** Runs of the server's connection callbacks *)

Lemma remainingDelays_cons n :
  (n < Server.MAX_RECONNECT_ATTEMPTS)%Z ->
  remainingDelays n
  = (Server.RECONNECT_DELAY_MS * (n + 1))%Z :: remainingDelays (n + 1).
Proof.
  intros Hlt. unfold remainingDelays.
  rewrite seqZ_cons by lia. csimpl. do 3 f_equal; lia.
Qed.

Lemma scheduledDelays_without_hello evs : forall st,
  Forall (fun ev => ev <> HelloOk) evs ->
  (0 <= Server.reconnectAttempts st)%Z ->
  scheduledDelays evs st `prefix_of` remainingDelays (Server.reconnectAttempts st).
Proof.
  induction evs as [|ev rest IH]; intros st Hall Hpos; [apply prefix_nil |].
  apply Forall_cons in Hall as [Hev Hall].
  cbn [scheduledDelays].
  destruct ev as [|code|]; [done | |].
  - cbn [serverStep]. unfold Server.onClose.
    destruct (negb (code =? 1000)%Z && negb (code =? 1001)%Z).
    + destruct (Server.reconnectTimer st) eqn:Ht.
      { unfold Server.scheduleReconnect. rewrite Ht. by apply IH. }
      destruct (Z_lt_le_dec (Server.reconnectAttempts st)
                  Server.MAX_RECONNECT_ATTEMPTS) as [Hlt|Hge].
      * rewrite scheduleReconnect_schedules by done.
        cbn [Server.reconnectTimer]. rewrite remainingDelays_cons by done.
        apply prefix_cons.
        apply (IH {| Server.reconnectAttempts := Server.reconnectAttempts st + 1;
                     Server.reconnectTimer := _ |}); [done |].
        cbn [Server.reconnectAttempts]. lia.
      * rewrite scheduleReconnect_gives_up by done. rewrite Ht. by apply IH.
    + destruct (Server.reconnectTimer st); by apply IH.
  - cbn [serverStep]. unfold Server.onTimer at 1. cbn [Server.reconnectTimer].
    destruct (Server.reconnectTimer st);
      by apply (IH (Server.onTimer st)).
Qed.

(** X16. As long as no connection is established (no [onHelloOk]), whatever
    the sequence of closes and timer firings, the server schedules its
    reconnects with the delays 2000, 4000, 6000, 8000, 10000 ms in this
    order and never a sixth one: the delays handed to [setTimeout] during
    the run form a prefix of that list. *)
Theorem X16_reconnects_without_hello (evs : list ServerEvent) :
  Forall (fun ev => ev <> HelloOk) evs ->
  scheduledDelays evs Server.initial
    `prefix_of` [2000; 4000; 6000; 8000; 10000]%Z.
Proof.
  intros Hall.
  by apply (scheduledDelays_without_hello evs Server.initial).
Qed.

Lemma X16_witness :
  scheduledDelays
    [Close 1006; Close 1006; TimerFired; Close 1000; Close 1011; TimerFired;
     TimerFired; Close 1006]%Z Server.initial
  `prefix_of` [2000; 4000; 6000; 8000; 10000]%Z.
Proof.
  apply X16_reconnects_without_hello.
  repeat (constructor; [discriminate |]). constructor.
Defined.

(** X17. A successful connection resets the backoff: after [onHelloOk],
    with no timer pending, the next abnormal close (a code other than 1000
    and 1001) schedules a reconnect after [RECONNECT_DELAY_MS], however
    many attempts were made before, also after the server had given up;
    a close with code 1000 or 1001 schedules nothing. *)
Theorem X17_hello_resets_the_backoff (st : Server.ConnectionState) (code : Z) :
  Server.reconnectTimer st = None ->
  (code <> 1000 -> code <> 1001 ->
   Server.onClose code (Server.onHelloOk st)
   = {| Server.reconnectAttempts := 1;
        Server.reconnectTimer := Some Server.RECONNECT_DELAY_MS |})%Z /\
  (code = 1000 \/ code = 1001 ->
   Server.onClose code (Server.onHelloOk st) = Server.onHelloOk st)%Z.
Proof.
  intros Ht. unfold Server.onClose. split.
  - intros H1 H2.
    destruct (Z.eqb_spec code 1000); [done |].
    destruct (Z.eqb_spec code 1001); [done |].
    cbn [negb andb]. rewrite scheduleReconnect_schedules; [done | done |].
    cbn. unfold Server.MAX_RECONNECT_ATTEMPTS. lia.
  - intros [-> | ->]; reflexivity.
Qed.

Lemma X17_witness :
  Server.onClose 1006
    (Server.onHelloOk
       {| Server.reconnectAttempts := 5; Server.reconnectTimer := None |})
  = {| Server.reconnectAttempts := 1; Server.reconnectTimer := Some 2000%Z |}.
Proof.
  apply (X17_hello_resets_the_backoff
           {| Server.reconnectAttempts := 5; Server.reconnectTimer := None |}
           1006 eq_refl); discriminate.
Defined.

(** ** Runs of the web monitor loop *)

Section web_loop.
Variable ReconnectPolicy : Type.
Variable maxAttempts : ReconnectPolicy -> Z.
Variable computeBackoff : ReconnectPolicy -> Z -> Z.

Local Abbreviation afterClose :=
  (WebMonitor.afterClose ReconnectPolicy maxAttempts computeBackoff).
Local Abbreviation monitorWebProvider :=
  (WebMonitor.monitorWebProvider ReconnectPolicy maxAttempts computeBackoff).

Lemma afterClose_retry policy hb uptime stop sigint reason n n' delay :
  afterClose policy hb uptime stop sigint reason n
  = (n', WebMonitor.Retry delay) ->
  (n' = (if (hb * 1000 <? uptime)%Z then 0 else n) + 1)%Z /\
  delay = computeBackoff policy n' /\
  ((0 < maxAttempts policy)%Z -> (n' < maxAttempts policy)%Z).
Proof.
  unfold WebMonitor.afterClose.
  destruct (stop || sigint || _); [discriminate |].
  destruct (match reason with WebMonitor.Closed _ b => b | _ => false end);
    [discriminate |].
  destruct (Z.ltb_spec 0 (maxAttempts policy)); cbn [andb].
  - destruct (Z.leb_spec (maxAttempts policy)
                ((if (hb * 1000 <? uptime)%Z then 0 else n) + 1)%Z);
      [discriminate |].
    intros [= <- <-]. by repeat split.
  - intros [= <- <-]. repeat split. lia.
Qed.

Lemma afterClose_retryable policy hb c n :
  retryable c ->
  let n' := ((if (hb * 1000 <? WebMonitor.uptimeMs c)%Z then 0 else n) + 1)%Z in
  afterClose policy hb (WebMonitor.uptimeMs c) (WebMonitor.stopRequested c)
    (WebMonitor.sigintStop c) (WebMonitor.reason c) n
  = (n',
     if ((0 <? maxAttempts policy) && (maxAttempts policy <=? n'))%Z
     then WebMonitor.Break
     else WebMonitor.Retry (computeBackoff policy n')).
Proof.
  intros (_ & -> & -> & [status ->] & _). unfold WebMonitor.afterClose.
  cbn [orb]. by destruct (_ && _).
Qed.

Lemma monitorWebProvider_attempts policy hb conns : forall n,
  (0 < maxAttempts policy)%Z -> (0 <= n)%Z ->
  Forall (fun delay => exists k,
            (1 <= k < maxAttempts policy)%Z /\ delay = computeBackoff policy k)
    (monitorWebProvider policy hb conns n).
Proof.
  intros n Hmax. revert n.
  induction conns as [|c rest IH]; intros n Hn; [constructor |].
  cbn [WebMonitor.monitorWebProvider].
  destruct (WebMonitor.stoppedBefore c); [constructor |].
  destruct (afterClose _ _ _ _ _ _ _) as [n' [|delay]] eqn:Hc; [constructor |].
  apply afterClose_retry in Hc as (Hn' & -> & Hlt).
  assert (1 <= n')%Z by (destruct (_ <? _)%Z; lia).
  constructor.
  - exists n'. split; [split; [done | by apply Hlt] | done].
  - destruct (WebMonitor.sleepAborted c); [constructor |]. apply IH. lia.
Qed.

(** X18. With a positive [maxAttempts], every delay the monitor loop sleeps
    is [computeBackoff] of an attempt number between 1 and
    [maxAttempts - 1], whatever the connections do (also when healthy
    stretches reset the counter); with [maxAttempts = 1] the loop never
    sleeps, so it never reconnects. *)
Theorem X18_web_loop_attempt_numbers (reconnectPolicy : ReconnectPolicy)
    (heartbeatSeconds : Z) (connections : list WebMonitor.Connection) :
  (0 < maxAttempts reconnectPolicy)%Z ->
  Forall (fun delay => exists k,
            (1 <= k < maxAttempts reconnectPolicy)%Z /\
            delay = computeBackoff reconnectPolicy k)
    (monitorWebProvider reconnectPolicy heartbeatSeconds connections 0) /\
  (maxAttempts reconnectPolicy = 1%Z ->
   monitorWebProvider reconnectPolicy heartbeatSeconds connections 0 = []).
Proof.
  intros Hmax.
  pose proof (monitorWebProvider_attempts reconnectPolicy heartbeatSeconds
                connections 0 Hmax (Z.le_refl 0)) as Hall.
  split; [exact Hall |].
  intros H1. destruct (monitorWebProvider _ _ _ _) as [|delay rest]; [done |].
  apply Forall_cons in Hall as [(k & Hk & _) _]. lia.
Qed.

Lemma monitorWebProvider_short_lived policy hb conns : forall n,
  (0 < maxAttempts policy)%Z ->
  Forall (shortLived hb) conns ->
  monitorWebProvider policy hb conns n
  `prefix_of` (computeBackoff policy <$> seqZ (n + 1) (maxAttempts policy - 1 - n)).
Proof.
  intros n Hmax. revert n.
  induction conns as [|c rest IH]; intros n Hall; [apply prefix_nil |].
  apply Forall_cons in Hall as [Hc Hall].
  cbn [WebMonitor.monitorWebProvider].
  destruct (WebMonitor.stoppedBefore c); [apply prefix_nil |].
  destruct (afterClose _ _ _ _ _ _ _) as [n' [|delay]] eqn:Hclose;
    [apply prefix_nil |].
  apply afterClose_retry in Hclose as (Hn' & -> & Hlt).
  unfold shortLived in Hc.
  destruct (Z.ltb_spec (hb * 1000) (WebMonitor.uptimeMs c)); [lia |].
  subst n'. specialize (Hlt Hmax).
  rewrite seqZ_cons by lia. csimpl. apply prefix_cons.
  destruct (WebMonitor.sleepAborted c); [apply prefix_nil |].
  replace (Z.succ (n + 1)) with (n + 1 + 1)%Z by lia.
  replace (Z.pred (maxAttempts policy - 1 - n))
    with (maxAttempts policy - 1 - (n + 1))%Z by lia.
  by apply IH.
Qed.

(** X19. With a positive [maxAttempts] and connections none of which
    outlives the heartbeat interval, the loop sleeps
    [computeBackoff policy 1], [computeBackoff policy 2], ... in this order
    and gives up before attempt [maxAttempts]: the delays form a prefix of
    the backoffs of the attempts [1 .. maxAttempts - 1]. *)
Theorem X19_web_loop_backoff_sequence (reconnectPolicy : ReconnectPolicy)
    (heartbeatSeconds : Z) (connections : list WebMonitor.Connection) :
  (0 < maxAttempts reconnectPolicy)%Z ->
  Forall (shortLived heartbeatSeconds) connections ->
  monitorWebProvider reconnectPolicy heartbeatSeconds connections 0
  `prefix_of` (computeBackoff reconnectPolicy
                 <$> seqZ 1 (maxAttempts reconnectPolicy - 1)).
Proof.
  intros Hmax Hall.
  pose proof (monitorWebProvider_short_lived reconnectPolicy heartbeatSeconds
                connections 0 Hmax Hall) as H.
  by rewrite Z.sub_0_r in H.
Qed.

Lemma monitorWebProvider_unlimited policy hb conns : forall n,
  (maxAttempts policy <= 0)%Z ->
  Forall retryable conns -> Forall (shortLived hb) conns ->
  monitorWebProvider policy hb conns n
  = computeBackoff policy <$> seqZ (n + 1) (Z.of_nat (length conns)).
Proof.
  intros n Hmax. revert n.
  induction conns as [|c rest IH]; intros n Hr Hs; [done |].
  apply Forall_cons in Hr as [Hc Hr]. apply Forall_cons in Hs as [Hshort Hs].
  cbn [WebMonitor.monitorWebProvider].
  rewrite (afterClose_retryable policy hb c n Hc).
  destruct Hc as (-> & _ & _ & _ & ->).
  unfold shortLived in Hshort.
  destruct (Z.ltb_spec (hb * 1000) (WebMonitor.uptimeMs c)); [lia |].
  destruct (Z.ltb_spec 0 (maxAttempts policy)); [lia |]. cbn [andb].
  rewrite seqZ_cons by (cbn [length]; lia). csimpl. f_equal.
  rewrite IH by done. do 2 f_equal; cbn [length]; lia.
Qed.

(** X20. With [maxAttempts] zero or negative the loop never gives up: over
    connections that all close for a retryable reason before the heartbeat
    interval has passed, it sleeps once per connection, with the backoffs
    of the attempts 1, 2, 3, ... *)
Theorem X20_web_loop_unlimited (reconnectPolicy : ReconnectPolicy)
    (heartbeatSeconds : Z) (connections : list WebMonitor.Connection) :
  (maxAttempts reconnectPolicy <= 0)%Z ->
  Forall retryable connections ->
  Forall (shortLived heartbeatSeconds) connections ->
  monitorWebProvider reconnectPolicy heartbeatSeconds connections 0
  = computeBackoff reconnectPolicy
      <$> seqZ 1 (Z.of_nat (length connections)).
Proof. apply monitorWebProvider_unlimited. Qed.

(** X21. A healthy stretch resets the backoff: when a connection that
    stayed up longer than the heartbeat interval closes for a retryable
    reason, the loop sleeps [computeBackoff policy 1], whatever the attempt
    counter was, unless [maxAttempts] is 1. *)
Theorem X21_healthy_uptime_resets_backoff (reconnectPolicy : ReconnectPolicy)
    (heartbeatSeconds : Z) (c : WebMonitor.Connection)
    (rest : list WebMonitor.Connection) (reconnectAttempts : Z) :
  retryable c ->
  (heartbeatSeconds * 1000 < WebMonitor.uptimeMs c)%Z ->
  maxAttempts reconnectPolicy <> 1%Z ->
  monitorWebProvider reconnectPolicy heartbeatSeconds (c :: rest)
    reconnectAttempts
  = computeBackoff reconnectPolicy 1
    :: monitorWebProvider reconnectPolicy heartbeatSeconds rest 1.
Proof.
  intros Hc Hup Hmax. cbn [WebMonitor.monitorWebProvider].
  rewrite (afterClose_retryable reconnectPolicy heartbeatSeconds c
             reconnectAttempts Hc).
  destruct Hc as (-> & _ & _ & _ & ->).
  destruct (Z.ltb_spec (heartbeatSeconds * 1000) (WebMonitor.uptimeMs c));
    [| lia].
  cbn [Z.add Pos.add].
  destruct (Z.ltb_spec 0 (maxAttempts reconnectPolicy)); cbn [andb]; [| done].
  destruct (Z.leb_spec (maxAttempts reconnectPolicy) (0 + 1)); [lia | done].
Qed.

End web_loop.

Lemma dropped_retryable uptime : retryable (dropped uptime).
Proof. repeat split. by exists (Some 428%Z). Qed.

Lemma X18_witness :
  Forall (fun delay => exists k, (1 <= k < 3)%Z /\ delay = (1000 * k)%Z)
    (WebMonitor.monitorWebProvider unit (fun _ => 3%Z) (fun _ n => (1000 * n)%Z)
       tt 60 [dropped 10; dropped 90000; dropped 10; dropped 10; dropped 10] 0).
Proof.
  apply (proj1 (X18_web_loop_attempt_numbers unit (fun _ => 3%Z)
                  (fun _ n => (1000 * n)%Z) tt 60
                  [dropped 10; dropped 90000; dropped 10; dropped 10; dropped 10]
                  eq_refl)).
Defined.

Lemma X19_witness :
  WebMonitor.monitorWebProvider unit (fun _ => 3%Z) (fun _ n => (1000 * n)%Z)
    tt 60 [dropped 10; dropped 20; dropped 30; dropped 40] 0
  `prefix_of` [1000; 2000]%Z.
Proof.
  apply (X19_web_loop_backoff_sequence unit (fun _ => 3%Z)
           (fun _ n => (1000 * n)%Z) tt 60
           [dropped 10; dropped 20; dropped 30; dropped 40] eq_refl).
  repeat (constructor; [unfold shortLived; cbn; lia |]). constructor.
Defined.

Lemma X20_witness :
  WebMonitor.monitorWebProvider unit (fun _ => 0%Z) (fun _ n => (1000 * n)%Z)
    tt 60 [dropped 10; dropped 20; dropped 30; dropped 40] 0
  = [1000; 2000; 3000; 4000]%Z.
Proof.
  apply (X20_web_loop_unlimited unit (fun _ => 0%Z) (fun _ n => (1000 * n)%Z)
           tt 60 [dropped 10; dropped 20; dropped 30; dropped 40]).
  - cbn. lia.
  - repeat (constructor; [apply dropped_retryable |]). constructor.
  - repeat (constructor; [unfold shortLived; cbn; lia |]). constructor.
Defined.

Lemma X21_witness :
  WebMonitor.monitorWebProvider unit (fun _ => 5%Z) (fun _ n => (1000 * n)%Z)
    tt 60 [dropped 90000; dropped 10] 4
  = (1000 * 1)%Z
    :: WebMonitor.monitorWebProvider unit (fun _ => 5%Z)
         (fun _ n => (1000 * n)%Z) tt 60 [dropped 10] 1.
Proof.
  apply (X21_healthy_uptime_resets_backoff unit (fun _ => 5%Z)
           (fun _ n => (1000 * n)%Z) tt 60 (dropped 90000) [dropped 10] 4).
  - apply dropped_retryable.
  - cbn. lia.
  - discriminate.
Defined.

(** ** Delivery of a reply *)

Section deliver.
Variable loadWebMedia : nat -> string -> Z -> option WebReply.WebMedia.
Variable sendMedia : nat -> WebReply.MediaMessage -> bool.
Variable reply : string -> bool.

Local Abbreviation sendFrom := (WebReply.sendFrom loadWebMedia sendMedia reply).
Local Abbreviation deliverWebReply :=
  (WebReply.deliverWebReply loadWebMedia sendMedia reply).

Lemma caption_mediaMessage url media caption :
  WebReply.caption (WebReply.mediaMessage url media caption) = caption.
Proof. unfold WebReply.mediaMessage. by repeat case_bool_decide. Qed.

Lemma delivered_app sent1 sent2 :
  delivered (sent1 ++ sent2) = delivered sent1 ++ delivered sent2.
Proof. apply omap_app. Qed.

Lemma delivered_bare sent :
  Forall (fun call : WebReply.Sent * bool => bare call.1) sent -> Forall bare (delivered sent).
Proof.
  induction 1 as [|[call ok] sent Hc _ IH]; [constructor |].
  unfold delivered. rewrite omap_cons. cbn [fst snd].
  destruct ok; [by constructor | exact IH].
Qed.

Lemma sendFrom_bare mediaList : forall index cleanText maxMediaBytes,
  bool_decide (index = 0) && JS.truthy cleanText = false ->
  (sendFrom index cleanText maxMediaBytes mediaList).2 = WebReply.Returned /\
  Forall (fun call : WebReply.Sent * bool => bare call.1)
    (sendFrom index cleanText maxMediaBytes mediaList).1.
Proof.
  induction mediaList as [|url rest IH]; intros index cleanText mb Hno;
    [by split |].
  cbn [WebReply.sendFrom]. rewrite Hno.
  destruct (IH (S index) cleanText mb) as [Hret Hbare]; [done |].
  destruct (loadWebMedia index url mb) as [media|]; cbn [fst snd].
  - split; [by destruct (sendMedia _ _) |].
    assert (Forall (fun call : WebReply.Sent * bool => bare call.1)
              ((WebReply.SendMedia (WebReply.mediaMessage url media None),
                sendMedia index (WebReply.mediaMessage url media None))
               :: (sendFrom (S index) cleanText mb rest).1)) as H.
    { constructor; [| done]. cbn. apply caption_mediaMessage. }
    by destruct (sendMedia _ _).
  - by split.
Qed.

(** X22. When [deliverWebReply] returns for a reply with a non-empty text,
    the recipient got the text exactly once, and before anything else: the
    first call that resolved carries it, as the plain reply, as the
    caption of the first media, or as the text-only reply sent when the
    first media failed, and every later call that resolved is a media
    message without a caption. *)
Theorem X22_text_delivered_once (replyResult : WebReply.ReplyPayload)
    (maxMediaBytes : Z) (t : string) (sent : list (WebReply.Sent * bool)) :
  WebReply.text replyResult = Some t -> t <> EmptyString ->
  deliverWebReply replyResult maxMediaBytes = (sent, WebReply.Returned) ->
  exists first rest,
    delivered sent = first :: rest /\ carries t first /\ Forall bare rest.
Proof.
  intros Ht Hne. unfold WebReply.deliverWebReply.
  assert (JS.truthy (Some t) = true) as Htruthy.
  { cbn. by destruct (String.eqb_spec t EmptyString). }
  rewrite Ht, Htruthy.
  destruct (WebReply.mediaListOf replyResult) as [|url rest].
  { cbn. destruct (reply t); [| discriminate].
    intros [= <-]. by exists (WebReply.Reply t), []. }
  cbn [length bool_decide andb]. rewrite bool_decide_false by done. cbn [andb].
  cbn [WebReply.sendFrom]. rewrite bool_decide_true by done.
  rewrite Htruthy. cbn [andb default from_option id].
  destruct (sendFrom_bare rest 1 (Some t) maxMediaBytes) as [Hret Hbare];
    [done |].
  apply delivered_bare in Hbare.
  destruct (loadWebMedia 0 url maxMediaBytes) as [media|]; cbn [fst snd].
  - destruct (sendMedia 0 _) eqn:Hsend.
    + intros [= <- _]. eexists _, _. split; [reflexivity |].
      split; [apply caption_mediaMessage | exact Hbare].
    + destruct (reply t); [| discriminate].
      intros [= <- _]. eexists _, _. split; [reflexivity |].
      split; [reflexivity | exact Hbare].
  - destruct (reply t); [| discriminate].
    intros [= <- _]. eexists _, _. split; [reflexivity |].
    split; [reflexivity | exact Hbare].
Qed.

(** X23. [deliverWebReply] throws only when [msg.reply] throws: the failed
    call is then the last one made, it is the reply with the text, and no
    call before it resolved. A media that cannot be loaded or sent never
    makes it throw: when [msg.reply] resolves, it returns. *)
Theorem X23_only_a_failed_reply_throws (replyResult : WebReply.ReplyPayload)
    (maxMediaBytes : Z) (sent : list (WebReply.Sent * bool)) :
  deliverWebReply replyResult maxMediaBytes = (sent, WebReply.Threw) ->
  exists earlier t,
    sent = earlier ++ [(WebReply.Reply t, false)] /\
    WebReply.text replyResult = Some t /\ t <> EmptyString /\
    reply t = false /\ delivered earlier = [].
Proof.
  unfold WebReply.deliverWebReply.
  destruct (JS.truthy (WebReply.text replyResult)) eqn:Htruthy.
  2: { rewrite andb_false_r. intros H.
       destruct (sendFrom_bare (WebReply.mediaListOf replyResult) 0
                   (WebReply.text replyResult) maxMediaBytes) as [Hret _].
       { by rewrite Htruthy, andb_false_r. }
       rewrite H in Hret. discriminate. }
  destruct (truthy_default _ Htruthy) as [Hne Ht].
  set (t := default EmptyString (WebReply.text replyResult)) in *.
  destruct (WebReply.mediaListOf replyResult) as [|url rest].
  { cbn. destruct (reply t) eqn:Hr; [discriminate |].
    intros [= <-]. by exists [], t. }
  cbn [length]. rewrite bool_decide_false by done. cbn [andb].
  cbn [WebReply.sendFrom]. rewrite bool_decide_true by done.
  rewrite Htruthy. cbn [andb]. fold t.
  destruct (sendFrom_bare rest 1 (WebReply.text replyResult) maxMediaBytes)
    as [Hret _]; [done |].
  destruct (loadWebMedia 0 url maxMediaBytes) as [media|]; cbn [fst snd].
  - destruct (sendMedia 0 _) eqn:Hsend.
    + intros [= _ H]. rewrite H in Hret. discriminate.
    + destruct (reply t) eqn:Hr.
      * intros [= _ H]. rewrite H in Hret. discriminate.
      * intros [= <-]. eexists [_], t. by repeat split.
  - destruct (reply t) eqn:Hr.
    + intros [= _ H]. rewrite H in Hret. discriminate.
    + intros [= <-]. by exists [], t.
Qed.

(** X24. A reply without text makes media calls only: [deliverWebReply]
    returns, none of its calls is a reply or has a caption, it makes at
    most one call per media URL, and with no media either it makes no call
    at all. *)
Theorem X24_reply_without_text (replyResult : WebReply.ReplyPayload)
    (maxMediaBytes : Z) :
  JS.truthy (WebReply.text replyResult) = false ->
  (deliverWebReply replyResult maxMediaBytes).2 = WebReply.Returned /\
  Forall (fun call : WebReply.Sent * bool => bare call.1)
    (deliverWebReply replyResult maxMediaBytes).1 /\
  length (deliverWebReply replyResult maxMediaBytes).1
  <= length (WebReply.mediaListOf replyResult).
Proof.
  intros Hno. unfold WebReply.deliverWebReply.
  rewrite Hno, andb_false_r.
  destruct (sendFrom_bare (WebReply.mediaListOf replyResult) 0
              (WebReply.text replyResult) maxMediaBytes) as [Hret Hbare].
  { by rewrite Hno, andb_false_r. }
  split; [done |]. split; [done |].
  assert (forall l index,
            length (sendFrom index (WebReply.text replyResult) maxMediaBytes l).1
            <= length l) as Hlen.
  { induction l as [|url rest IH]; intros index; [done |].
    cbn [WebReply.sendFrom]. rewrite Hno, andb_false_r.
    specialize (IH (S index)).
    destruct (loadWebMedia index url maxMediaBytes); cbn [fst snd].
    - destruct (sendMedia _ _); cbn [fst length app]; lia.
    - cbn [fst length app]. lia. }
  apply Hlen.
Qed.

End deliver.

Lemma X22_witness :
  exists first rest,
    delivered
      (WebReply.deliverWebReply laterPictures (fun _ _ => true) (fun _ => true)
         (twoPictures (Some "hi")) 1024).1
    = first :: rest /\
    carries "hi" first /\ Forall bare rest.
Proof.
  apply (X22_text_delivered_once laterPictures (fun _ _ => true) (fun _ => true)
           (twoPictures (Some "hi")) 1024 "hi" _ eq_refl);
    [discriminate | reflexivity].
Defined.

Lemma X23_witness :
  exists earlier t,
    (WebReply.deliverWebReply laterPictures (fun _ _ => true) (fun _ => false)
       (twoPictures (Some "hi")) 1024).1
    = earlier ++ [(WebReply.Reply t, false)] /\
    WebReply.text (twoPictures (Some "hi")) = Some t /\ t <> EmptyString /\
    false = false /\ delivered earlier = [].
Proof.
  apply (X23_only_a_failed_reply_throws laterPictures (fun _ _ => true)
           (fun _ => false) (twoPictures (Some "hi")) 1024 _ eq_refl).
Defined.

Lemma X24_witness :
  (WebReply.deliverWebReply laterPictures (fun _ _ => true) (fun _ => false)
     (twoPictures None) 1024).2 = WebReply.Returned /\
  Forall (fun call : WebReply.Sent * bool => bare call.1)
    (WebReply.deliverWebReply laterPictures (fun _ _ => true) (fun _ => false)
       (twoPictures None) 1024).1 /\
  length (WebReply.deliverWebReply laterPictures (fun _ _ => true)
            (fun _ => false) (twoPictures None) 1024).1
  <= length (WebReply.mediaListOf (twoPictures None)).
Proof.
  apply (X24_reply_without_text laterPictures (fun _ _ => true)
           (fun _ => false) (twoPictures None) 1024 eq_refl).
Defined.

Example deliverWebReply_first_media_fails :
  WebReply.deliverWebReply laterPictures (fun _ _ => true) (fun _ => true)
    (twoPictures (Some "hi")) 1024
  = ([(WebReply.Reply "hi", true);
      (WebReply.SendMedia
         {| WebReply.slot := "image"; WebReply.content := "png";
            WebReply.caption := None; WebReply.mimetype := Some "image/png";
            WebReply.ptt := false; WebReply.fileName := None |}, true)],
     WebReply.Returned).
Proof. reflexivity. Qed.

(** ** Heartbeat replies *)

Lemma truthy_false s : JS.truthy (Some s) = false -> s = EmptyString.
Proof. cbn. by destruct (String.eqb_spec s EmptyString). Qed.

Lemma startsWith_split p : forall s,
  JS.startsWith s p = true -> exists after, s = p +:+ after.
Proof.
  unfold JS.startsWith.
  induction p as [|a p IH]; intros s; [by exists s |].
  destruct s as [|b s]; [done |]. cbn [String.prefix].
  destruct (Ascii.ascii_dec a b) as [-> | _]; [| done].
  intros [after ->]%IH. by exists after.
Qed.

Lemma occursIn_cons pattern c s :
  occursIn pattern s -> occursIn pattern (String c s).
Proof. intros (before & after & ->). by exists (String c before), after. Qed.

Lemma removeFrom_absent pattern s :
  ~ occursIn pattern s -> Heartbeat.removeFrom pattern 0 s = s.
Proof.
  induction s as [|c s IH]; [done |]. intros Hno.
  cbn [Heartbeat.removeFrom].
  destruct (JS.startsWith (String c s) pattern) eqn:Hp.
  - destruct Hno. apply startsWith_split in Hp as [after Hp].
    by exists EmptyString, after.
  - rewrite IH; [done |]. intros H. apply Hno. by apply occursIn_cons.
Qed.

Lemma trimStart_suffix s : exists before, s = before +:+ Heartbeat.trimStart s.
Proof.
  induction s as [|c s [before IH]]; [by exists EmptyString |].
  cbn [Heartbeat.trimStart]. destruct (Heartbeat.isWhiteSpace c).
  - exists (String c before).
    change (String c s = String c (before +:+ Heartbeat.trimStart s)).
    by rewrite <- IH.
  - by exists EmptyString.
Qed.

Lemma append_empty s : s +:+ EmptyString = s.
Proof.
  induction s as [|c s IH]; [done |].
  change (String c (s +:+ EmptyString) = String c s). by rewrite IH.
Qed.

Lemma trimEnd_prefix s : exists after, s = Heartbeat.trimEnd s +:+ after.
Proof.
  induction s as [|c s [after IH]]; [by exists EmptyString |].
  cbn [Heartbeat.trimEnd]. destruct (Heartbeat.trimEnd s) as [|k kept].
  - destruct (Heartbeat.isWhiteSpace c).
    + by exists (String c s).
    + exists s. reflexivity.
  - exists after.
    change (String c s = String c (String k kept +:+ after)). by rewrite <- IH.
Qed.

Lemma occursIn_trim pattern s :
  occursIn pattern (Heartbeat.trim s) -> occursIn pattern s.
Proof.
  intros (before & after & Ht). unfold Heartbeat.trim in Ht.
  destruct (trimStart_suffix s) as [pre Hs].
  destruct (trimEnd_prefix (Heartbeat.trimStart s)) as [post He].
  exists (pre +:+ before), (after +:+ post).
  rewrite Hs at 1. rewrite He, Ht. by rewrite !append_assoc.
Qed.

Lemma trimEnd_idem s : Heartbeat.trimEnd (Heartbeat.trimEnd s) = Heartbeat.trimEnd s.
Proof.
  induction s as [|c s IH]; [done |]. cbn [Heartbeat.trimEnd].
  destruct (Heartbeat.trimEnd s) as [|k kept] eqn:He.
  - destruct (Heartbeat.isWhiteSpace c) eqn:Hc; [done |].
    cbn [Heartbeat.trimEnd]. by rewrite Hc.
  - cbn [Heartbeat.trimEnd] in *. by rewrite IH.
Qed.

Lemma trimEnd_keeps_head c s :
  Heartbeat.isWhiteSpace c = false ->
  exists kept, Heartbeat.trimEnd (String c s) = String c kept.
Proof.
  intros Hc. cbn [Heartbeat.trimEnd]. rewrite Hc.
  destruct (Heartbeat.trimEnd s); by eexists.
Qed.

Lemma trimStart_head s :
  Heartbeat.trimStart s = EmptyString \/
  exists c rest, Heartbeat.trimStart s = String c rest /\
                 Heartbeat.isWhiteSpace c = false.
Proof.
  induction s as [|c s IH]; [by left |]. cbn [Heartbeat.trimStart].
  destruct (Heartbeat.isWhiteSpace c) eqn:Hc; [done |].
  right. by exists c, s.
Qed.

Lemma trim_idem s : Heartbeat.trim (Heartbeat.trim s) = Heartbeat.trim s.
Proof.
  unfold Heartbeat.trim.
  destruct (trimStart_head s) as [-> | (c & rest & -> & Hc)]; [done |].
  destruct (trimEnd_keeps_head c rest Hc) as [kept Hk].
  rewrite Hk at 1. cbn [Heartbeat.trimStart]. rewrite Hc, <- Hk.
  apply trimEnd_idem.
Qed.

(** X25. A reply that does not contain the heartbeat token passes through
    [stripHeartbeatToken] with its surrounding white space removed and
    nothing else changed; it is skipped only if nothing is left. *)
Theorem X25_token_free_reply_is_kept (raw : string) :
  ~ occursIn Heartbeat.HEARTBEAT_TOKEN raw ->
  Heartbeat.stripHeartbeatToken (Some raw)
  = {| Heartbeat.shouldSkip := bool_decide (Heartbeat.trim raw = EmptyString);
       Heartbeat.text := Heartbeat.trim raw |}.
Proof.
  intros Hno. unfold Heartbeat.stripHeartbeatToken.
  destruct (JS.truthy (Some raw)) eqn:Hraw; cbn [negb].
  2: { apply truthy_false in Hraw as ->. reflexivity. }
  cbn [default from_option id].
  destruct (JS.truthy (Some (Heartbeat.trim raw))) eqn:Ht; cbn [negb].
  2: { apply truthy_false in Ht as ->. reflexivity. }
  pose proof (truthy_nonempty _ Ht) as Hne.
  case_bool_decide as Htok.
  { destruct Hno. apply (occursIn_trim _ raw). rewrite Htok.
    exists EmptyString, EmptyString. by rewrite append_empty. }
  unfold Heartbeat.removeAll. rewrite removeFrom_absent.
  2: { intros H. by apply Hno, occursIn_trim. }
  rewrite trim_idem, Ht. f_equal.
  rewrite (bool_decide_false (_ = EmptyString)) by done.
  apply bool_decide_false. by destruct (Heartbeat.trim raw).
Qed.

Lemma startsWith_append p after : JS.startsWith (p +:+ after) p = true.
Proof.
  unfold JS.startsWith. induction p as [|a p IH]; [by destruct after |].
  change (String.prefix (String a p) (String a (p +:+ after)) = true).
  cbn [String.prefix]. by destruct (Ascii.ascii_dec a a).
Qed.

Lemma occursIn_includes pattern s :
  occursIn pattern s -> includes s pattern = true.
Proof.
  intros (before & after & ->).
  induction before as [|c before IH].
  - change (includes (pattern +:+ after) pattern = true).
    destruct (pattern +:+ after) eqn:E; cbn [includes];
      rewrite <- E, startsWith_append; reflexivity.
  - change (includes (String c (before +:+ pattern +:+ after)) pattern = true).
    cbn [includes]. rewrite IH. apply orb_true_r.
Qed.

Lemma X25_witness :
  Heartbeat.stripHeartbeatToken (Some "  disk almost full ")
  = {| Heartbeat.shouldSkip :=
         bool_decide (Heartbeat.trim "  disk almost full " = EmptyString);
       Heartbeat.text := Heartbeat.trim "  disk almost full " |}.
Proof.
  apply X25_token_free_reply_is_kept.
  intros H%occursIn_includes. vm_compute in H. discriminate H.
Defined.

Lemma stripped_text raw :
  Heartbeat.trim (Heartbeat.text (Heartbeat.stripHeartbeatToken raw))
  = Heartbeat.text (Heartbeat.stripHeartbeatToken raw) /\
  (Heartbeat.shouldSkip (Heartbeat.stripHeartbeatToken raw) = false ->
   Heartbeat.text (Heartbeat.stripHeartbeatToken raw) <> EmptyString).
Proof.
  unfold Heartbeat.stripHeartbeatToken.
  destruct (JS.truthy raw); cbn [negb]; [| by split].
  destruct (JS.truthy (Some (Heartbeat.trim _))); cbn [negb]; [| by split].
  case_bool_decide; [by split |].
  cbn [Heartbeat.text Heartbeat.shouldSkip].
  destruct (JS.truthy (Some (Heartbeat.trim (Heartbeat.removeAll _ _)))) eqn:Hw.
  - split; [apply trim_idem | intros _; by apply truthy_nonempty].
  - split; [apply trim_idem |].
    apply truthy_false in Hw as ->. by rewrite bool_decide_true.
Qed.

(** X26. The text [stripHeartbeatToken] returns has no white space at
    either end, and a reply it does not skip has a non-empty text. *)
Theorem X26_stripped_text_is_trimmed (raw : option string) :
  Heartbeat.trim (Heartbeat.text (Heartbeat.stripHeartbeatToken raw))
  = Heartbeat.text (Heartbeat.stripHeartbeatToken raw) /\
  (Heartbeat.shouldSkip (Heartbeat.stripHeartbeatToken raw) = false ->
   Heartbeat.text (Heartbeat.stripHeartbeatToken raw) <> EmptyString).
Proof. apply stripped_text. Qed.

Section once.
Variable positive : string -> bool.

(** X27. A heartbeat reply without media (in the sense of the [hasMedia]
    test) is handed to [sender] only with a non-empty text that has no
    white space at either end; and when its text is the heartbeat token,
    with or without white space around it, nothing is sent. *)
Theorem X27_heartbeat_alert_text (replyResult : WebReply.ReplyPayload) :
  Heartbeat.hasMedia positive replyResult = false ->
  (forall t, Heartbeat.runWebHeartbeatOnce positive (Some replyResult) = Some t ->
     t <> EmptyString /\ Heartbeat.trim t = t) /\
  (forall raw, WebReply.text replyResult = Some raw ->
     Heartbeat.trim raw = Heartbeat.HEARTBEAT_TOKEN ->
     Heartbeat.runWebHeartbeatOnce positive (Some replyResult) = None).
Proof.
  intros Hmedia. unfold Heartbeat.runWebHeartbeatOnce. rewrite Hmedia.
  cbn [negb]. split.
  - intros t. destruct (_ && _ && _); [done |]. rewrite andb_true_r.
    destruct (stripped_text (WebReply.text replyResult))
      as [Htrim Hne].
    destruct (Heartbeat.shouldSkip _) eqn:Hskip; [done |].
    specialize (Hne eq_refl). rewrite (truthy_Some _ Hne).
    by intros [= <-].
  - intros raw Hraw Htok. destruct (_ && _ && _); [done |].
    rewrite Hraw. unfold Heartbeat.stripHeartbeatToken.
    destruct (JS.truthy (Some raw)); cbn [negb]; [| done].
    cbn [default from_option id]. rewrite Htok. reflexivity.
Qed.

End once.

Lemma X27_witness :
  (forall t,
     Heartbeat.runWebHeartbeatOnce (fun _ => false)
       (Some {| WebReply.text := Some "  HEARTBEAT_OK ";
                WebReply.mediaUrl := Some "https://host/a.png";
                WebReply.mediaUrls := None |}) = Some t ->
     t <> EmptyString /\ Heartbeat.trim t = t) /\
  (forall raw,
     Some "  HEARTBEAT_OK " = Some raw ->
     Heartbeat.trim raw = Heartbeat.HEARTBEAT_TOKEN ->
     Heartbeat.runWebHeartbeatOnce (fun _ => false)
       (Some {| WebReply.text := Some "  HEARTBEAT_OK ";
                WebReply.mediaUrl := Some "https://host/a.png";
                WebReply.mediaUrls := None |}) = None).
Proof.
  apply (X27_heartbeat_alert_text (fun _ => false)
           {| WebReply.text := Some "  HEARTBEAT_OK ";
              WebReply.mediaUrl := Some "https://host/a.png";
              WebReply.mediaUrls := None |} eq_refl).
Defined.

(** ** Phone numbers *)

Lemma digitOrPlus_not_space c :
  Utils.digitOrPlus c = true -> Heartbeat.isWhiteSpace c = false.
Proof. by destruct c as [[] [] [] [] [] [] [] []]. Qed.

Lemma only_trimStart s :
  Utils.only Utils.digitOrPlus (Heartbeat.trimStart s)
  = Utils.only Utils.digitOrPlus s.
Proof.
  induction s as [|c s IH]; [done |]. cbn [Heartbeat.trimStart].
  destruct (Heartbeat.isWhiteSpace c) eqn:Hc; [| done].
  cbn [Utils.only]. destruct (Utils.digitOrPlus c) eqn:Hk; [| done].
  apply digitOrPlus_not_space in Hk. congruence.
Qed.

Lemma only_trimEnd s :
  Utils.only Utils.digitOrPlus (Heartbeat.trimEnd s)
  = Utils.only Utils.digitOrPlus s.
Proof.
  induction s as [|c s IH]; [done |]. cbn [Heartbeat.trimEnd].
  destruct (Heartbeat.trimEnd s) as [|k kept] eqn:He.
  - destruct (Heartbeat.isWhiteSpace c) eqn:Hc.
    + cbn [Utils.only]. rewrite <- IH.
      destruct (Utils.digitOrPlus c) eqn:Hk; [| done].
      apply digitOrPlus_not_space in Hk. congruence.
    + cbn [Utils.only]. by rewrite <- IH.
  - cbn [Utils.only] in *. by rewrite IH.
Qed.

Lemma only_trim s :
  Utils.only Utils.digitOrPlus (Heartbeat.trim s)
  = Utils.only Utils.digitOrPlus s.
Proof. unfold Heartbeat.trim. by rewrite only_trimEnd, only_trimStart. Qed.

Lemma drop_append_length p s : JS.drop (String.length p) (p +:+ s) = s.
Proof. induction p as [|a p IH]; [by destruct s | exact IH]. Qed.

Lemma only_idem keep s : Utils.only keep (Utils.only keep s) = Utils.only keep s.
Proof.
  induction s as [|c s IH]; [done |]. cbn [Utils.only].
  destruct (keep c) eqn:Hk; [| done]. cbn [Utils.only]. by rewrite Hk, IH.
Qed.

Lemma only_plus s :
  Utils.only Utils.digitOrPlus ("+" +:+ s) = "+" +:+ Utils.only Utils.digitOrPlus s.
Proof. reflexivity. Qed.

(** The result of [normalizeE164] in terms of the digits and plus signs of
    its argument. *)
Lemma normalizeE164_digits number :
  Utils.normalizeE164 number
  = if JS.startsWith (Utils.only Utils.digitOrPlus number) "+"
    then Utils.only Utils.digitOrPlus number
    else "+" +:+ Utils.only Utils.digitOrPlus number.
Proof.
  unfold Utils.normalizeE164. rewrite only_trim.
  assert (Utils.only Utils.digitOrPlus
            (if JS.startsWith number "whatsapp:"
             then JS.drop (String.length "whatsapp:") number else number)
          = Utils.only Utils.digitOrPlus number) as ->.
  { destruct (JS.startsWith number "whatsapp:") eqn:Hp; [| done].
    apply startsWith_split in Hp as [after ->].
    by rewrite drop_append_length. }
  destruct (JS.startsWith _ "+") eqn:Hplus; [| done].
  apply startsWith_split in Hplus as [after ->]. reflexivity.
Qed.

(** X28. [normalizeE164] reads only the digits and plus signs of its
    argument: the result is those characters in order, with a "+" put in
    front unless they start with one, so two arguments with the same digits
    and plus signs give the same result. The result starts with "+" and
    consists of digits and plus signs; normalising twice is normalising
    once; and a number gives the same result with and without the
    "whatsapp:" prefix that [withWhatsAppPrefix] puts in front. *)
Theorem X28_normalizeE164 (number : string) :
  Utils.normalizeE164 number
  = (if JS.startsWith (Utils.only Utils.digitOrPlus number) "+"
     then Utils.only Utils.digitOrPlus number
     else "+" +:+ Utils.only Utils.digitOrPlus number) /\
  (forall other,
     Utils.only Utils.digitOrPlus other = Utils.only Utils.digitOrPlus number ->
     Utils.normalizeE164 other = Utils.normalizeE164 number) /\
  JS.startsWith (Utils.normalizeE164 number) "+" = true /\
  Utils.only Utils.digitOrPlus (Utils.normalizeE164 number)
  = Utils.normalizeE164 number /\
  Utils.normalizeE164 (Utils.normalizeE164 number) = Utils.normalizeE164 number /\
  Utils.normalizeE164 (Utils.withWhatsAppPrefix number)
  = Utils.normalizeE164 number.
Proof.
  assert (JS.startsWith (Utils.normalizeE164 number) "+" = true) as Hplus.
  { rewrite normalizeE164_digits.
    destruct (JS.startsWith (Utils.only Utils.digitOrPlus number) "+") eqn:H;
      [done |].
    apply startsWith_append. }
  assert (Utils.only Utils.digitOrPlus (Utils.normalizeE164 number)
          = Utils.normalizeE164 number) as Honly.
  { rewrite normalizeE164_digits.
    destruct (JS.startsWith (Utils.only Utils.digitOrPlus number) "+");
      [apply only_idem |].
    by rewrite only_plus, only_idem. }
  split; [apply normalizeE164_digits |].
  split.
  { intros other Hsame.
    by rewrite (normalizeE164_digits other), (normalizeE164_digits number), Hsame. }
  split; [done |]. split; [done |]. split.
  - rewrite (normalizeE164_digits (Utils.normalizeE164 number)).
    by rewrite Honly, Hplus.
  - rewrite (normalizeE164_digits (Utils.withWhatsAppPrefix number)),
      (normalizeE164_digits number).
    unfold Utils.withWhatsAppPrefix.
    by destruct (JS.startsWith number "whatsapp:").
Qed.

Example normalizeE164_examples :
  Utils.normalizeE164 "whatsapp:+1 (555) 010-9999" = "+15550109999" /\
  Utils.normalizeE164 "  1555 " = "+1555" /\
  Utils.normalizeE164 "" = "+".
Proof. vm_compute. done. Qed.

(** ** Reachable connection states of the server *)

(** X29. In every state the server's connection callbacks can reach, the
    attempt counter is between 0 and [MAX_RECONNECT_ATTEMPTS], and the
    delay of a pending timer is [RECONNECT_DELAY_MS] times an attempt
    number between 1 and [MAX_RECONNECT_ATTEMPTS]. *)
Theorem X29_reachable_connection_states (st : Server.ConnectionState) :
  serverReachable st ->
  (0 <= Server.reconnectAttempts st <= Server.MAX_RECONNECT_ATTEMPTS)%Z /\
  forall delay, Server.reconnectTimer st = Some delay ->
    exists k, (1 <= k <= Server.MAX_RECONNECT_ATTEMPTS)%Z /\
              delay = (Server.RECONNECT_DELAY_MS * k)%Z.
Proof.
  unfold Server.MAX_RECONNECT_ATTEMPTS.
  induction 1 as [|st _ [IHa IHt]|code st _ [IHa IHt]|st _ [IHa IHt]].
  - split; [cbn; lia | done].
  - split; [cbn; lia | exact IHt].
  - unfold Server.onClose.
    destruct (negb (code =? 1000)%Z && negb (code =? 1001)%Z); [| by split].
    destruct (Server.reconnectTimer st) eqn:Ht.
    { unfold Server.scheduleReconnect. rewrite Ht. split; [done |].
      by rewrite Ht. }
    destruct (Z_lt_le_dec (Server.reconnectAttempts st)
                Server.MAX_RECONNECT_ATTEMPTS) as [Hlt|Hge].
    + rewrite scheduleReconnect_schedules by done.
      unfold Server.MAX_RECONNECT_ATTEMPTS in Hlt.
      cbn [Server.reconnectAttempts Server.reconnectTimer].
      split; [lia |]. intros delay [= <-].
      exists (Server.reconnectAttempts st + 1)%Z. split; [lia | done].
    + rewrite scheduleReconnect_gives_up by done. split; [done |].
      by rewrite Ht.
  - split; [exact IHa | done].
Qed.

Lemma X29_witness :
  (0 <= Server.reconnectAttempts
          (Server.onClose 1006 (Server.onTimer (Server.onClose 1006 Server.initial)))
   <= Server.MAX_RECONNECT_ATTEMPTS)%Z /\
  forall delay,
    Server.reconnectTimer
      (Server.onClose 1006 (Server.onTimer (Server.onClose 1006 Server.initial)))
    = Some delay ->
    exists k, (1 <= k <= Server.MAX_RECONNECT_ATTEMPTS)%Z /\
              delay = (Server.RECONNECT_DELAY_MS * k)%Z.
Proof.
  apply X29_reachable_connection_states.
  apply reach_close, reach_timer, reach_close, reach_initial.
Defined.

(** ** The reply heartbeat interval *)

Section minutes.
Variable Number : Type.
Variable isZero : Number -> bool.
Variable isPositive : Number -> bool.
Variable DEFAULT_REPLY_HEARTBEAT_MINUTES : Number.

Local Abbreviation resolveReplyHeartbeatMinutes :=
  (ReplyHeartbeat.resolveReplyHeartbeatMinutes Number isZero isPositive
     DEFAULT_REPLY_HEARTBEAT_MINUTES).

(** X30. The reply heartbeat interval is never zero or negative: given
    that the default of 30 minutes is positive, [resolveReplyHeartbeatMinutes]
    returns either nothing or a positive number. An override that is zero
    or positive decides alone, whatever the configuration says: zero
    disables the heartbeat and a positive override is the interval. *)
Theorem X30_heartbeat_minutes_are_positive
    (cfg : ReplyHeartbeat.ReplyConfig Number) (overrideMinutes : option Number) :
  isPositive DEFAULT_REPLY_HEARTBEAT_MINUTES = true ->
  (forall minutes,
     resolveReplyHeartbeatMinutes cfg overrideMinutes = Some minutes ->
     isPositive minutes = true) /\
  (forall n, overrideMinutes = Some n -> isZero n = true ->
     resolveReplyHeartbeatMinutes cfg overrideMinutes = None) /\
  (forall n, overrideMinutes = Some n -> isZero n = false ->
     isPositive n = true ->
     resolveReplyHeartbeatMinutes cfg overrideMinutes = Some n).
Proof.
  intros Hdefault. unfold ReplyHeartbeat.resolveReplyHeartbeatMinutes.
  split; [| split].
  - intros minutes.
    destruct overrideMinutes as [n|];
      [| destruct (ReplyHeartbeat.heartbeatMinutes _ cfg) as [n|]].
    + destruct (isZero n); [done |].
      destruct (isPositive n) eqn:Hn; [by intros [= <-] |].
      case_bool_decide; [by intros [= <-] | done].
    + destruct (isZero n); [done |].
      destruct (isPositive n) eqn:Hn; [by intros [= <-] |].
      case_bool_decide; [by intros [= <-] | done].
    + case_bool_decide; [by intros [= <-] | done].
  - intros n -> Hz. by rewrite Hz.
  - intros n -> Hz Hp. by rewrite Hz, Hp.
Qed.

End minutes.

Lemma X30_witness :
  (forall minutes,
     ReplyHeartbeat.resolveReplyHeartbeatMinutes Z (Z.eqb 0) (Z.ltb 0) 30%Z
       {| ReplyHeartbeat.heartbeatMinutes := Some (-5)%Z;
          ReplyHeartbeat.mode := Some "command" |} (Some 45%Z) = Some minutes ->
     (0 <? minutes)%Z = true) /\
  (forall n, Some 45%Z = Some n -> (0 =? n)%Z = true ->
     ReplyHeartbeat.resolveReplyHeartbeatMinutes Z (Z.eqb 0) (Z.ltb 0) 30%Z
       {| ReplyHeartbeat.heartbeatMinutes := Some (-5)%Z;
          ReplyHeartbeat.mode := Some "command" |} (Some 45%Z) = None) /\
  (forall n, Some 45%Z = Some n -> (0 =? n)%Z = false -> (0 <? n)%Z = true ->
     ReplyHeartbeat.resolveReplyHeartbeatMinutes Z (Z.eqb 0) (Z.ltb 0) 30%Z
       {| ReplyHeartbeat.heartbeatMinutes := Some (-5)%Z;
          ReplyHeartbeat.mode := Some "command" |} (Some 45%Z) = Some n).
Proof.
  apply (X30_heartbeat_minutes_are_positive Z (Z.eqb 0) (Z.ltb 0) 30%Z
           {| ReplyHeartbeat.heartbeatMinutes := Some (-5)%Z;
              ReplyHeartbeat.mode := Some "command" |} (Some 45%Z) eq_refl).
Defined.
